(** * Sanal-Sekreter: retrieval-augmented conversational orchestrator

    A shallow embedding of the algorithmic core of the virtual secretary
    (intent detection, handoff policy, conversation history, text
    chunking, batch embeddings, vector search, batch insert, folder
    indexing and query validation), followed by the theorems that relate
    the behaviour of the code to its specification.

    Layout: Part I holds the model, one module per service of the
    repository; Part II holds the proofs. *)

From Stdlib Require Import List String Ascii NArith ZArith QArith Qminmax Qround Bool Lia.
From Stdlib Require Import Sorting.Permutation.
From Stdlib Require Import Sorting.Sorted.
From Stdlib Require Import Floats.PrimFloat Numbers.Cyclic.Int63.Uint63.
From stdpp Require Import gmap strings.
Import ListNotations.

Local Open Scope nat_scope.
Local Open Scope list_scope.

(* ===================================================================== *)
(** * Part I. The model                                                   *)
(* ===================================================================== *)

(** ** JavaScript values used by the services *)

Module JS.

(** A JavaScript string is a sequence of UTF-16 code units; [length],
    [includes], [trim] and the regular expressions of the code (which do
    not carry the [u] flag) all work on code units. *)
Abbreviation jsstring := (list N).

(** An ASCII literal as a JavaScript string. *)
Definition u (s : string) : jsstring :=
  List.map N_of_ascii (list_ascii_of_string s).

(** [throw new Error(msg)] against a normal return. *)
Inductive Result (A : Type) : Type :=
| Ok (a : A)
| Throw (msg : string).
Arguments Ok {A} a.
Arguments Throw {A} msg.

(** [s.startsWith(k)], the helper of [includes]. *)
Fixpoint startsWith (s k : jsstring) {struct k} : bool :=
  match k with
  | [] => true
  | c :: k' =>
      match s with
      | [] => false
      | d :: s' => N.eqb c d && startsWith s' k'
      end
  end.

(** [s.includes(k)]: [k] occurs in [s] as a contiguous run of code units. *)
Fixpoint includes (s k : jsstring) : bool :=
  startsWith s k ||
  match s with
  | [] => false
  | _ :: s' => includes s' k
  end.

(** ECMAScript WhiteSpace and LineTerminator code units: what [trim]
    strips and what [\s] matches. *)
Definition isWhiteSpace (c : N) : bool :=
  ((9 <=? c) && (c <=? 13) || (c =? 32) || (c =? 160) || (c =? 5760)
   || (8192 <=? c) && (c <=? 8202) || (c =? 8232) || (c =? 8233)
   || (c =? 8239) || (c =? 8287) || (c =? 12288) || (c =? 65279))%N.

Fixpoint trimStart (s : jsstring) : jsstring :=
  match s with
  | [] => []
  | c :: s' => if isWhiteSpace c then trimStart s' else s
  end.

Definition trimEnd (s : jsstring) : jsstring := rev (trimStart (rev s)).

Definition trim (s : jsstring) : jsstring := trimEnd (trimStart s).

(** The guard [!text || text.trim().length === 0] that several services
    share; the empty string is the only falsy string. *)
Definition isBlank (s : jsstring) : bool :=
  match trim s with
  | [] => true
  | _ :: _ => false
  end.

(** [parts.join(sep)]. *)
Fixpoint join (sep : jsstring) (parts : list jsstring) : jsstring :=
  match parts with
  | [] => []
  | [p] => p
  | p :: rest => p ++ sep ++ join sep rest
  end.

(** [String.prototype.toLowerCase] on the Basic Latin block. The services
    are parametrised by the lower-casing function; this instance is the
    one used on concrete ASCII inputs, where it coincides with the
    built-in. *)
Definition toLowerCase_ascii (s : jsstring) : jsstring :=
  List.map (fun c => if ((65 <=? c) && (c <=? 90))%N then (c + 32)%N else c) s.

(** [arr.slice(start, end)] with JavaScript's treatment of negative and
    out-of-range indices. *)
Definition clampIndex (len k : Z) : Z :=
  if (k <? 0)%Z then Z.max (len + k) 0 else Z.min k len.

Definition slice {A : Type} (l : list A) (start stop : Z) : list A :=
  let len := Z.of_nat (List.length l) in
  let k := clampIndex len start in
  let final := clampIndex len stop in
  firstn (Z.to_nat (final - k)) (skipn (Z.to_nat k) l).

(** [String(n)] for a non-negative integer: its decimal digits. *)
Fixpoint digitsOf (d : Decimal.uint) : jsstring :=
  match d with
  | Decimal.Nil => []
  | Decimal.D0 d' => 48%N :: digitsOf d'
  | Decimal.D1 d' => 49%N :: digitsOf d'
  | Decimal.D2 d' => 50%N :: digitsOf d'
  | Decimal.D3 d' => 51%N :: digitsOf d'
  | Decimal.D4 d' => 52%N :: digitsOf d'
  | Decimal.D5 d' => 53%N :: digitsOf d'
  | Decimal.D6 d' => 54%N :: digitsOf d'
  | Decimal.D7 d' => 55%N :: digitsOf d'
  | Decimal.D8 d' => 56%N :: digitsOf d'
  | Decimal.D9 d' => 57%N :: digitsOf d'
  end.

Definition numberToString (n : nat) : jsstring := digitsOf (Nat.to_uint n).

(** The same digits as text of the model's [string] type. *)
Definition numberToText (n : nat) : string :=
  string_of_list_ascii (List.map ascii_of_N (numberToString n)).

(** An instance of [Math.sqrt] for concrete inputs: the integer square
    root, exact on the perfect squares among the integers. *)
Definition sqrtFloor (x : Q) : Q := inject_Z (Z.sqrt (Qfloor x)).

(** An optional property of an options object: absent, [null], or a
    value. Destructuring defaults replace the absent case only. *)
Inductive Optional (A : Type) : Type :=
| Undefined
| Null
| Value (a : A).
Arguments Undefined {A}.
Arguments Null {A}.
Arguments Value {A} a.

End JS.

Import JS.

(** ** OrchestratorService (services/llm/orchestrator.service.js) *)

Module Orchestrator.

Record Message : Type := mkMessage {
  role : string;
  content : jsstring
}.

Record Intent : Type := mkIntent {
  name : string;
  confidence : Q;
  keywords : list jsstring
}.

Record ToolResult : Type := mkToolResult {
  tool : string;
  summary : string
}.

(** The [intents] object literal of [detectIntent]; [Object.entries]
    enumerates its string keys in the order they are written. *)
Definition intents : list (string * list jsstring) :=
  [ ("business_hours"%string,
      [u "heures"; u "ouvert"; u "horaires"; [97; 231; 305; 107]%N;
       u "saat"; u "hours"; u "open"]);
    ("services"%string,
      [u "service"; (u "r" ++ [233%N] ++ u "paration"); u "repair";
       u "tamir"; u "hizmet"]);
    ("appointment"%string,
      [u "rendez-vous"; u "appointment"; u "randevu";
       (u "r" ++ [233%N] ++ u "server"); u "book"]);
    ("technical_support"%string,
      [(u "probl" ++ [232%N] ++ u "me"); u "problem"; u "sorun"; u "bug";
       u "error"; u "panne"]);
    ("pricing"%string,
      [u "prix"; u "tarif"; u "cost"; u "price"; u "fiyat"]);
    ("location"%string,
      [u "adresse"; (u "o" ++ [249%N]); u "location"; u "address";
       u "adres"; u "nerede"]);
    ("contact"%string,
      [u "contact"; u "email";
       (u "t" ++ [233%N] ++ u "l" ++ [233%N] ++ u "phone"); u "phone";
       (u "ileti" ++ [351%N] ++ u "im")]);
    ("agent_request"%string,
      [u "agent"; u "personne"; u "human"; u "temsilci"; u "insan"]) ].

(** [keywords.filter(keyword => lowerText.includes(keyword)).length] *)
Definition countMatches (lowerText : jsstring) (kws : list jsstring) : nat :=
  List.length (List.filter (fun keyword => includes lowerText keyword) kws).

(** One iteration of the [for ... of Object.entries(intents)] loop; the
    state is [(detectedIntent, maxMatches)]. *)
Definition detectStep (lowerText : jsstring) (st : string * nat)
    (entry : string * list jsstring) : string * nat :=
  let matches := countMatches lowerText (snd entry) in
  if snd st <? matches then (fst entry, matches) else st.

Definition detectLoop (lowerText : jsstring)
    (entries : list (string * list jsstring)) (st : string * nat) : string * nat :=
  List.fold_left (detectStep lowerText) entries st.

(** [intents[detectedIntent] || []] *)
Fixpoint lookupKeywords (entries : list (string * list jsstring)) (n : string)
    : list jsstring :=
  match entries with
  | [] => []
  | (k, kws) :: rest => if String.eqb k n then kws else lookupKeywords rest n
  end.

(** [Math.min(maxMatches * 0.3, 0.95)]; numbers are exact rationals. *)
Definition confidenceOf (maxMatches : nat) : Q :=
  Qmin (inject_Z (Z.of_nat maxMatches) * (3 # 10)) (95 # 100).

(** The same expression as the engine evaluates it, in IEEE 754
    binary64 ([0x1.3333333333333p-2] and [0x1.e666666666666p-1] are the
    doubles that the literals 0.3 and 0.95 denote), and the test
    [confidence < 0.3] on it. The model computes with the rationals; the
    proofs part shows that the test has the same outcome on every count
    that [detectIntent] can reach. *)
Definition confidenceOf_binary64 (maxMatches : nat) : float :=
  let product :=
    PrimFloat.mul (PrimFloat.of_uint63 (Uint63.of_Z (Z.of_nat maxMatches)))
      0x1.3333333333333p-2%float in
  if PrimFloat.ltb product 0x1.e666666666666p-1%float
  then product else 0x1.e666666666666p-1%float.

Definition lowConfidence_binary64 (maxMatches : nat) : bool :=
  PrimFloat.ltb (confidenceOf_binary64 maxMatches) 0x1.3333333333333p-2%float.

Definition detectIntent (toLowerCase : jsstring -> jsstring) (text : jsstring) : Intent :=
  let lowerText := toLowerCase text in
  let st := detectLoop lowerText intents ("general_inquiry"%string, 0) in
  {| name := fst st;
     confidence := confidenceOf (snd st);
     keywords := lookupKeywords intents (fst st) |}.

(** [toolResults.some(t => t.tool === 'knowledge_base')] *)
Definition hasKnowledge (toolResults : list ToolResult) : bool :=
  existsb (fun t => String.eqb (tool t) "knowledge_base") toolResults.

(** [confidence < 0.3] *)
Definition lowConfidence (i : Intent) : bool :=
  negb (Qle_bool (3 # 10) (confidence i)).

(** [shouldHandoff]; [isBusinessHours] is the value that the call to the
    clock helper [isBusinessHours()] returns. The response argument is
    never read by the code and is left out. *)
Definition shouldHandoff (intent : Intent) (toolResults : list ToolResult)
    (isBusinessHours : bool) : bool :=
  if String.eqb (name intent) "agent_request" then true
  else if lowConfidence intent then true
  else if String.eqb (name intent) "technical_support" && isBusinessHours then true
  else if negb (hasKnowledge toolResults)
          && negb (String.eqb (name intent) "general_inquiry") then true
  else false.

(** The four [return true] statements of [shouldHandoff], in source
    order. *)
Inductive HandoffRule : Type :=
| ExplicitRequest
| LowConfidence
| SpecialistRequired
| NoKnowledge.

(** Which [return] of [shouldHandoff] is taken: [Some r] for the
    [return true] of rule [r], [None] for the final [return false]. *)
Definition firedRule (intent : Intent) (toolResults : list ToolResult)
    (isBusinessHours : bool) : option HandoffRule :=
  if String.eqb (name intent) "agent_request" then Some ExplicitRequest
  else if lowConfidence intent then Some LowConfidence
  else if String.eqb (name intent) "technical_support" && isBusinessHours
       then Some SpecialistRequired
  else if negb (hasKnowledge toolResults)
          && negb (String.eqb (name intent) "general_inquiry")
       then Some NoKnowledge
  else None.

(** The [reasons] object literal of [getHandoffReason]. *)
Definition reasons : list (string * string) :=
  [ ("agent_request", "Customer requested human agent");
    ("technical_support", "Technical support requires specialist");
    ("low_confidence", "Unable to understand request clearly");
    ("no_knowledge", "Information not available in knowledge base") ]%string.

Fixpoint lookupReason (table : list (string * string)) (n : string) : option string :=
  match table with
  | [] => None
  | (k, v) :: rest => if String.eqb k n then Some v else lookupReason rest n
  end.

(** [reasons[intent.name] || 'Customer needs personalized assistance'];
    every entry of the table is a non-empty, hence truthy, string. *)
Definition getHandoffReason (intent : Intent) : string :=
  match lookupReason reasons (name intent) with
  | Some r => r
  | None => "Customer needs personalized assistance"%string
  end.

(** *** Conversation history and [processCall] *)

Module Turn.
Record t : Type := mk {
  callId : jsstring;
  intent : string;
  confidence : Q;
  response : jsstring;
  needsHandoff : bool;
  handoffReason : option string;
  toolsUsed : list string;
  isBusinessHours : bool;
  conversationTurns : Q
}.
End Turn.

Section ProcessCall.

(** [this.systemPrompt], built once by the constructor. *)
Variable systemPrompt : jsstring.

Variable toLowerCase : jsstring -> jsstring.

(** [this.gatherContext(intent, userInput, context)]: calls the
    knowledge base, calendar and contacts services and catches their
    errors itself; it does not touch the history. *)
Variable gatherContext : Intent -> jsstring -> list ToolResult.

(** [openaiService.generateResponse(messages, {enhancedPrompt, intent,
    tools})]: the reply text, or a thrown error. It reads the messages
    and leaves the array as it is. *)
Variable generateResponse : list Message -> jsstring -> Intent -> Result jsstring.

(** What [isBusinessHours()] answers during the turn. *)
Variable isOpen : bool.

(** The enhanced prompt: the input, one line per tool result, and the
    business status. *)
Definition enhancedPromptOf (userInput : jsstring) (toolResults : list ToolResult)
    : jsstring :=
  userInput
  ++ (match toolResults with
      | [] => []
      | _ :: _ =>
          [10; 10]%N ++ u "Context:" ++ [10%N]
          ++ concat (List.map (fun result =>
                       u "- " ++ u (tool result) ++ u ": " ++ u (summary result)
                       ++ [10%N]) toolResults)
      end)
  ++ [10; 10]%N ++ u "Current status: "
  ++ (if isOpen then u "Business is OPEN" else u "Business is CLOSED").

(** [messages.filter(m => m.role !== 'system').length / 2] *)
Definition conversationTurnsOf (messages : list Message) : Q :=
  inject_Z (Z.of_nat (List.length
     (List.filter (fun m => negb (String.eqb (role m) "system")) messages))) / 2.

(** [processCall] on the map [this.conversationHistory]. The array held
    by the map is the one that [push] mutates, so each [push] is written
    back under the same key. When [generateResponse] throws, the error is
    rethrown with the user message already pushed. *)
Definition processCall (callId userInput : jsstring)
    (conversationHistory : gmap (list N) (list Message))
    : gmap (list N) (list Message) * Result Turn.t :=
  let h1 :=
    match conversationHistory !! callId with
    | Some _ => conversationHistory
    | None => <[callId := [mkMessage "system" systemPrompt]]> conversationHistory
    end in
  let messages := default [] (h1 !! callId) in
  let messages1 := messages ++ [mkMessage "user" userInput] in
  let h2 := <[callId := messages1]> h1 in
  let intent := detectIntent toLowerCase userInput in
  let toolResults := gatherContext intent userInput in
  let enhancedPrompt := enhancedPromptOf userInput toolResults in
  match generateResponse messages1 enhancedPrompt intent with
  | Throw msg => (h2, Throw msg)
  | Ok reply =>
      let messages2 := messages1 ++ [mkMessage "assistant" reply] in
      let h3 := <[callId := messages2]> h2 in
      let needsHandoff := shouldHandoff intent toolResults isOpen in
      (h3,
       Ok (Turn.mk callId (name intent) (confidence intent) reply needsHandoff
             (if needsHandoff then Some (getHandoffReason intent) else None)
             (List.map tool toolResults) isOpen (conversationTurnsOf messages2)))
  end.

End ProcessCall.

(** [clearHistory]: [this.conversationHistory.delete(callId)] *)
Definition clearHistory (callId : jsstring)
    (conversationHistory : gmap (list N) (list Message))
    : gmap (list N) (list Message) :=
  delete callId conversationHistory.

(** *** [getConversationSummary] *)

Module ConversationSummary.
Record t : Type := mk {
  turns : nat;
  userMessages : list jsstring;
  assistantMessages : list jsstring
}.
End ConversationSummary.

(** [getConversationSummary]: [None] is the [null] for a call without
    history. *)
Definition getConversationSummary (callId : jsstring)
    (conversationHistory : gmap (list N) (list Message))
    : option ConversationSummary.t :=
  match conversationHistory !! callId with
  | None => None
  | Some messages =>
      let userMessages := List.filter (fun m => String.eqb (role m) "user") messages in
      let assistantMessages :=
        List.filter (fun m => String.eqb (role m) "assistant") messages in
      Some (ConversationSummary.mk (List.length userMessages)
              (List.map content userMessages) (List.map content assistantMessages))
  end.

(** The history of a call whose turns so far all completed: the system
    prompt, then for each turn the user message and the reply. Used to
    state what the summary and the turn counter report. *)
Definition transcript (systemPrompt : jsstring) (turns : list (jsstring * jsstring))
    : list Message :=
  mkMessage "system" systemPrompt
  :: List.flat_map
       (fun t => [mkMessage "user" (fst t); mkMessage "assistant" (snd t)]) turns.

(** The spec's wording of the tie-break, kept apart from the code: among
    the intents that reach the highest (non-zero) match count, the one
    whose name comes first alphabetically. *)
Definition maxCount (lowerText : jsstring)
    (entries : list (string * list jsstring)) : nat :=
  list_max (List.map (fun e => countMatches lowerText (snd e)) entries).

Fixpoint alphabeticalMin (d : string) (names : list string) : string :=
  match names with
  | [] => d
  | n :: rest =>
      let m := alphabeticalMin d rest in
      match rest with
      | [] => n
      | _ :: _ => if String.ltb n m then n else m
      end
  end.

Definition classify_alphabetical (toLowerCase : jsstring -> jsstring)
    (text : jsstring) : string :=
  let lowerText := toLowerCase text in
  let best := maxCount lowerText intents in
  if best =? 0 then "general_inquiry"%string
  else alphabeticalMin "general_inquiry"
         (List.map fst
            (List.filter (fun e => countMatches lowerText (snd e) =? best) intents)).

End Orchestrator.

(** ** EmbeddingsService *)

Module Embeddings.

(** *** Batch embeddings *)

Section Batch.

(** An embedding vector; the code only moves vectors around. *)
Variable Embedding : Type.

(** [this.client]: [None] when the API key is missing, otherwise the
    provider call [client.embeddings.create({input: batch})] followed by
    [response.data.map(item => item.embedding)], which may throw. *)
Variable client : option (list jsstring -> Result (list Embedding)).

(** [for (let i = 0; i < validTexts.length; i += batchSize)
      batches.push(validTexts.slice(i, i + batchSize))];
    every iteration with [0 < size] consumes an element, so as many
    iterations as there are texts are enough. *)
Fixpoint sliceBatches (fuel size : nat) (texts : list jsstring) : list (list jsstring) :=
  match fuel with
  | O => []
  | S fuel' =>
      match texts with
      | [] => []
      | _ :: _ => firstn size texts :: sliceBatches fuel' size (skipn size texts)
      end
  end.

Definition batchesOf (size : nat) (texts : list jsstring) : list (list jsstring) :=
  sliceBatches (List.length texts) size texts.

(** [for (const batch of batches) { ...; allEmbeddings.push(...embeddings) }] *)
Fixpoint embedBatches (create : list jsstring -> Result (list Embedding))
    (batches : list (list jsstring)) (allEmbeddings : list Embedding)
    : Result (list Embedding) :=
  match batches with
  | [] => Ok allEmbeddings
  | batch :: rest =>
      match create batch with
      | Ok embeddings => embedBatches create rest (allEmbeddings ++ embeddings)
      | Throw msg => Throw msg
      end
  end.

(** [texts.filter(text => text && text.trim().length > 0)] *)
Definition validTextsOf (texts : list jsstring) : list jsstring :=
  List.filter (fun text => negb (isBlank text)) texts.

Definition batchSize : nat := 2048.

(** The batches handed to the provider, in order. *)
Definition requestsOf (texts : list jsstring) : list (list jsstring) :=
  batchesOf batchSize (validTextsOf texts).

Definition generateEmbeddings (texts : list jsstring) : Result (list Embedding) :=
  match client with
  | None => Throw "Embeddings service not initialized"
  | Some create =>
      match texts with
      | [] => Throw "Texts must be a non-empty array"
      | _ :: _ =>
          match validTextsOf texts with
          | [] => Throw "No valid texts to embed"
          | _ :: _ => embedBatches create (requestsOf texts) []
          end
      end
  end.

End Batch.

(** *** Fixed-window chunking *)

Module WordChunk.
Record t : Type := mk {
  text : jsstring;
  startIndex : Z;
  endIndex : Z
}.
End WordChunk.

(** [text.split(/\s+/)]: a run of white space separates two words; white
    space at either end of the text leaves an empty word there. *)
Fixpoint splitAux (s cur : jsstring) (inRun : bool) : list jsstring :=
  match s with
  | [] => [cur]
  | c :: s' =>
      if isWhiteSpace c
      then (if inRun then splitAux s' [] true else cur :: splitAux s' [] true)
      else splitAux s' (cur ++ [c]) false
  end.

Definition splitWhitespace (s : jsstring) : list jsstring := splitAux s [] false.

(** The body of the [for] loop of [chunkText] at index [i]. *)
Definition windowAt (words : list jsstring) (chunkSize i : Z)
    (chunks : list WordChunk.t) : list WordChunk.t :=
  let chunk := join (u " ") (slice words i (i + chunkSize)) in
  if isBlank chunk then chunks
  else chunks ++ [WordChunk.mk chunk i
                    (Z.min (i + chunkSize) (Z.of_nat (List.length words)))].

(** [for (let i = 0; i < words.length; i += chunkSize - overlap)]. The
    loop has no bound of its own: [fuel] counts the loop tests, and
    [None] means the loop is still running when the fuel is spent. *)
Fixpoint chunkTextLoop (fuel : nat) (words : list jsstring)
    (chunkSize overlap i : Z) (chunks : list WordChunk.t)
    : option (list WordChunk.t) :=
  match fuel with
  | O => None
  | S fuel' =>
      if (i <? Z.of_nat (List.length words))%Z
      then chunkTextLoop fuel' words chunkSize overlap
             (i + (chunkSize - overlap))%Z (windowAt words chunkSize i chunks)
      else Some chunks
  end.

Definition chunkText (fuel : nat) (text : jsstring) (chunkSize overlap : Z)
    : option (list WordChunk.t) :=
  if isBlank text then Some []
  else chunkTextLoop fuel (splitWhitespace text) chunkSize overlap 0 [].

(** *** Sentence chunking *)

Module SentenceChunk.
Record t : Type := mk {
  text : jsstring;
  chunkIndex : nat
}.
End SentenceChunk.

(** The class [[.!?]]. *)
Definition isTerminator (c : N) : bool :=
  ((c =? 46) || (c =? 33) || (c =? 63))%N.

(** Where the scan of [/[^.!?]+[.!?]+/g] stands: looking for the first
    character of a match, inside the run [[^.!?]+], or inside the run
    [[.!?]+]. *)
Inductive Phase : Type := Skip | Body | Tail.

(** [text.match(/[^.!?]+[.!?]+/g)]: all matches from left to right. Both
    runs are greedy; a run of other characters that reaches the end of
    the text without a terminator matches nothing. [cur] is the match
    under construction. *)
Fixpoint matchSentences (ph : Phase) (cur s : jsstring) : list jsstring :=
  match s with
  | [] =>
      match ph with
      | Tail => [cur]
      | _ => []
      end
  | c :: s' =>
      match ph with
      | Skip =>
          if isTerminator c then matchSentences Skip [] s'
          else matchSentences Body [c] s'
      | Body =>
          if isTerminator c then matchSentences Tail (cur ++ [c]) s'
          else matchSentences Body (cur ++ [c]) s'
      | Tail =>
          if isTerminator c then matchSentences Tail (cur ++ [c]) s'
          else cur :: matchSentences Body [c] s'
      end
  end.

(** [text.match(...) || [text]] *)
Definition sentencesOf (text : jsstring) : list jsstring :=
  match matchSentences Skip [] text with
  | [] => [text]
  | m :: ms => m :: ms
  end.

(** [if (currentChunk) chunks.push(currentChunk)] *)
Definition pushChunk (chunks : list jsstring) (currentChunk : jsstring) : list jsstring :=
  match currentChunk with
  | [] => chunks
  | _ :: _ => chunks ++ [currentChunk]
  end.

(** One iteration of [for (const sentence of sentences)]; the state is
    [(chunks, currentChunk)]. *)
Definition sentenceStep (maxChunkSize : Z) (st : list jsstring * jsstring)
    (sentence : jsstring) : list jsstring * jsstring :=
  let trimmed := trim sentence in
  if (Z.of_nat (List.length (snd st ++ u " " ++ trimmed)) <=? maxChunkSize)%Z
  then (fst st,
        snd st ++ (match snd st with [] => [] | _ :: _ => u " " end) ++ trimmed)
  else (pushChunk (fst st) (snd st), trimmed).

(** The chunk texts before they are numbered. *)
Definition sentenceChunks (sentences : list jsstring) (maxChunkSize : Z) : list jsstring :=
  let st := List.fold_left (sentenceStep maxChunkSize) sentences ([], []) in
  pushChunk (fst st) (snd st).

(** [chunks.map((chunk, index) => ({ text: chunk, chunkIndex: index }))] *)
Definition numbered (chunks : list jsstring) : list SentenceChunk.t :=
  List.map (fun p => SentenceChunk.mk (snd p) (fst p))
    (List.combine (List.seq 0 (List.length chunks)) chunks).

Definition chunkBySentences (text : jsstring) (maxChunkSize : Z) : list SentenceChunk.t :=
  if isBlank text then []
  else numbered (sentenceChunks (sentencesOf text) maxChunkSize).

(** The size bound of the specification: a chunk is within the bound,
    or it is one trimmed sentence of its own that is longer than the
    bound. *)
Definition withinBound (maxChunkSize : Z) (sentences : list jsstring)
    (c : jsstring) : Prop :=
  (Z.of_nat (List.length c) <= maxChunkSize)%Z
  \/ exists s, In s sentences /\ c = trim s
               /\ (maxChunkSize < Z.of_nat (List.length c))%Z.

(** *** Single embedding *)

Section Single.

Variable Embedding : Type.

(** [this.client] for one text: [None] when the API key is missing,
    otherwise [client.embeddings.create({input: text})] followed by
    [response.data[0].embedding]. *)
Variable client : option (jsstring -> Result Embedding).

Definition generateEmbedding (text : jsstring) : Result Embedding :=
  match client with
  | None => Throw "Embeddings service not initialized"
  | Some create =>
      if isBlank text then Throw "Text cannot be empty" else create text
  end.

End Single.

(** *** Cosine similarity and ranking *)

(** An element of the array that [findMostSimilar] sorts. *)
Module Scored.
Record t : Type := mk {
  index : nat;
  similarity : Q
}.
End Scored.

Section Cosine.

(** [Math.sqrt]. Sums and products are those of the rationals. *)
Variable sqrt : Q -> Q.

(** One iteration of the [for] loop of [cosineSimilarity]; the state is
    [(dotProduct, norm1, norm2)]. *)
Definition cosineStep (st : Q * Q * Q) (p : Q * Q) : Q * Q * Q :=
  (fst (fst st) + fst p * snd p,
   snd (fst st) + fst p * fst p,
   snd st + snd p * snd p)%Q.

Definition cosineSimilarity (embedding1 embedding2 : list Q) : Result Q :=
  if negb (List.length embedding1 =? List.length embedding2)
  then Throw "Embeddings must have the same dimension"
  else
    let st := List.fold_left cosineStep (List.combine embedding1 embedding2)
                (0, 0, 0)%Q in
    let norm1 := sqrt (snd (fst st)) in
    let norm2 := sqrt (snd st) in
    if Qeq_bool norm1 0 || Qeq_bool norm2 0 then Ok 0%Q
    else Ok (fst (fst st) / (norm1 * norm2))%Q.

(** [candidateEmbeddings.map((embedding, index) => ({index, similarity:
    this.cosineSimilarity(queryEmbedding, embedding)}))]; the first
    candidate of another dimension makes the whole call throw. *)
Fixpoint scoreFrom (index : nat) (queryEmbedding : list Q)
    (candidateEmbeddings : list (list Q)) : Result (list Scored.t) :=
  match candidateEmbeddings with
  | [] => Ok []
  | embedding :: rest =>
      match cosineSimilarity queryEmbedding embedding with
      | Throw msg => Throw msg
      | Ok s =>
          match scoreFrom (S index) queryEmbedding rest with
          | Throw msg => Throw msg
          | Ok scored => Ok (Scored.mk index s :: scored)
          end
      end
  end.

(** [similarities.sort((a, b) => b.similarity - a.similarity)]: the sort
    of the engine is stable, so among equal similarities the earlier
    element stays first. [insertScored x sorted] puts [x], which comes
    before every element of [sorted] in the array, in its place. *)
Fixpoint insertScored (x : Scored.t) (sorted : list Scored.t) : list Scored.t :=
  match sorted with
  | [] => [x]
  | y :: rest =>
      if Qle_bool (Scored.similarity y) (Scored.similarity x)
      then x :: y :: rest
      else y :: insertScored x rest
  end.

Definition sortScored (similarities : list Scored.t) : list Scored.t :=
  List.fold_right insertScored [] similarities.

(** [findMostSimilar]; [topK] is the number passed to [slice(0, topK)]. *)
Definition findMostSimilar (queryEmbedding : list Q)
    (candidateEmbeddings : list (list Q)) (topK : Z) : Result (list Scored.t) :=
  match scoreFrom 0 queryEmbedding candidateEmbeddings with
  | Throw msg => Throw msg
  | Ok similarities => Ok (slice (sortScored similarities) 0 topK)
  end.

End Cosine.


(** *** Token estimate *)



End Embeddings.

(** ** RAGService *)

Module RAG.

Definition restrictedCategories : list jsstring := [u "confidential"; u "internal"].

Record Validation : Type := mkValidation {
  valid : bool;
  reason : option string
}.

(** [restrictedCategories.some(cat => query.toLowerCase().includes(cat))] *)
Definition mentionsRestricted (toLowerCase : jsstring -> jsstring) (query : jsstring) : bool :=
  existsb (fun cat => includes (toLowerCase query) cat) restrictedCategories.

(** [validateQuery]; [hasHighAccess] is the truth value of
    [userContext.hasHighAccess]. *)
Definition validateQuery (toLowerCase : jsstring -> jsstring) (query : jsstring)
    (hasHighAccess : bool) : Validation :=
  if mentionsRestricted toLowerCase query && negb hasHighAccess
  then mkValidation false (Some "Query contains restricted content"%string)
  else mkValidation true None.

End RAG.

(** ** VectorStoreService (services/rag/vector-store.service.js) *)

Module VectorStore.

Definition Vector : Type := list Q.

(** A [float8] of the database, which reaches JavaScript through
    [parseFloat]: a number, taken as an exact rational, or NaN. *)
Inductive Float8 : Type :=
| NaN
| Number (q : Q).

(** The order of PostgreSQL on [float8], used by [>=] in WHERE and by
    ORDER BY: NaN is equal to itself and greater than every number. *)
Definition pgLe (a b : Float8) : bool :=
  match a, b with
  | _, NaN => true
  | NaN, Number _ => false
  | Number x, Number y => Qle_bool x y
  end.

(** [similarity >= threshold] as JavaScript compares numbers: false for
    NaN. *)
Definition reaches (similarity : Float8) (threshold : Q) : bool :=
  match similarity with
  | NaN => false
  | Number s => Qle_bool threshold s
  end.

(** [1 - x] on [float8]. *)
Definition oneMinus (x : Float8) : Float8 :=
  match x with
  | NaN => NaN
  | Number d => Number (1 - d)
  end.

(** pgvector's [<=>] on two vectors: one minus the cosine similarity
    [a.b / sqrt(|a|^2 * |b|^2)] clamped to [-1, 1]; with a vector of
    norm zero the quotient is 0/0, that is NaN, and so is the distance.
    The search is parametrised by the operator; this is the instance
    used on concrete inputs, over a given square root. *)
Definition dotProduct (a b : Vector) : Q :=
  List.fold_left Qplus (List.map (fun p => (fst p * snd p)%Q) (List.combine a b)) 0%Q.

Definition pgvectorCosineDistance (sqrt : Q -> Q) (a b : Vector) : Float8 :=
  let norms := (dotProduct a a * dotProduct b b)%Q in
  if Qeq_bool norms 0 then NaN
  else Number (1 - Qmax (-1) (Qmin 1 (dotProduct a b / sqrt norms)))%Q.

(** A row of the [documents] table (the columns the search reads). *)
Module Document.
Record t : Type := mk {
  id : nat;
  title : jsstring;
  source : jsstring;
  category : option jsstring;
  department : option jsstring;
  access_level : option jsstring
}.
End Document.

(** A row of the [document_chunks] table. *)
Module ChunkRow.
Record t : Type := mk {
  id : nat;
  document_id : nat;
  chunk_index : Z;
  content : jsstring;
  embedding : Vector;
  metadata : jsstring
}.
End ChunkRow.

(** An element of the array that [searchSimilar] returns. *)
Module Hit.
Record t : Type := mk {
  id : nat;
  documentId : nat;
  chunkIndex : Z;
  content : jsstring;
  title : jsstring;
  source : jsstring;
  category : option jsstring;
  department : option jsstring;
  similarity : Float8;
  metadata : jsstring
}.
End Hit.

(** *** [searchSimilar] *)

Module SearchOptions.
Record t : Type := mk {
  topK : option nat;
  threshold : option Q;
  accessLevel : Optional jsstring;
  category : Optional jsstring;
  department : Optional jsstring
}.
End SearchOptions.

Section Search.

(** pgvector's cosine distance operator [<=>]. *)
Variable cosineDistance : Vector -> Vector -> Float8.

(** [config.rag.topK] and [config.rag.similarityThreshold]. *)
Variable configTopK : nat.
Variable configThreshold : Q.

Variable documents : list Document.t.
Variable document_chunks : list ChunkRow.t.

(** [FROM document_chunks dc JOIN documents d ON dc.document_id = d.id] *)
Definition joined : list (ChunkRow.t * Document.t) :=
  List.flat_map
    (fun dc =>
       List.map (fun d => (dc, d))
         (List.filter (fun d => Document.id d =? ChunkRow.document_id dc) documents))
    document_chunks.

(** [1 - (dc.embedding <=> $1::vector) AS similarity] *)
Definition similarityOf (queryEmbedding : Vector) (row : ChunkRow.t * Document.t)
    : Float8 :=
  oneMinus (cosineDistance (ChunkRow.embedding (fst row)) queryEmbedding).

(** The guards [if (accessLevel)], [if (category)], [if (department)]:
    a filter is added for a non-empty string only. *)
Definition activeFilter (o : Optional jsstring) : option jsstring :=
  match o with
  | Value (c :: s) => Some (c :: s)
  | _ => None
  end.

(** [AND d.column = $n], present only for an active filter; a NULL
    column equals nothing. *)
Definition columnMatches (column : option jsstring) (filter : option jsstring) : bool :=
  match filter with
  | None => true
  | Some wanted =>
      match column with
      | Some value => bool_decide (value = wanted)
      | None => false
      end
  end.

(** [ORDER BY similarity DESC] as an insertion sort in the order of
    the database, which puts NaN before every number. *)
Fixpoint insertDesc (queryEmbedding : Vector) (row : ChunkRow.t * Document.t)
    (sorted : list (ChunkRow.t * Document.t)) : list (ChunkRow.t * Document.t) :=
  match sorted with
  | [] => [row]
  | r :: rest =>
      if pgLe (similarityOf queryEmbedding row) (similarityOf queryEmbedding r)
      then r :: insertDesc queryEmbedding row rest
      else row :: r :: rest
  end.

Definition orderBySimilarityDesc (queryEmbedding : Vector)
    (rows : list (ChunkRow.t * Document.t)) : list (ChunkRow.t * Document.t) :=
  List.fold_right (insertDesc queryEmbedding) [] rows.

(** The destructuring defaults of [searchSimilar]. *)
Definition topKOf (options : SearchOptions.t) : nat :=
  default configTopK (SearchOptions.topK options).

Definition thresholdOf (options : SearchOptions.t) : Q :=
  default configThreshold (SearchOptions.threshold options).

Definition accessLevelOf (options : SearchOptions.t) : Optional jsstring :=
  match SearchOptions.accessLevel options with
  | Undefined => Value (u "public")
  | other => other
  end.

Definition whereClause (queryEmbedding : Vector) (options : SearchOptions.t)
    (row : ChunkRow.t * Document.t) : bool :=
  pgLe (Number (thresholdOf options)) (similarityOf queryEmbedding row)
  && columnMatches (Document.access_level (snd row))
       (activeFilter (accessLevelOf options))
  && columnMatches (Document.category (snd row))
       (activeFilter (SearchOptions.category options))
  && columnMatches (Document.department (snd row))
       (activeFilter (SearchOptions.department options)).

(** [result.rows]: WHERE, ORDER BY, LIMIT. *)
Definition searchRows (queryEmbedding : Vector) (options : SearchOptions.t)
    : list (ChunkRow.t * Document.t) :=
  firstn (topKOf options)
    (orderBySimilarityDesc queryEmbedding
       (List.filter (whereClause queryEmbedding options) joined)).

Definition toHit (queryEmbedding : Vector) (row : ChunkRow.t * Document.t) : Hit.t :=
  Hit.mk (ChunkRow.id (fst row)) (ChunkRow.document_id (fst row))
    (ChunkRow.chunk_index (fst row)) (ChunkRow.content (fst row))
    (Document.title (snd row)) (Document.source (snd row))
    (Document.category (snd row)) (Document.department (snd row))
    (similarityOf queryEmbedding row) (ChunkRow.metadata (fst row)).

Definition searchSimilar (queryEmbedding : Vector) (options : SearchOptions.t)
    : list Hit.t :=
  List.map (toHit queryEmbedding) (searchRows queryEmbedding options).

End Search.

(** *** [insertChunks] *)

(** An element of the array passed to [insertChunks]; a missing
    [embedding] makes [chunk.embedding.join] throw. *)
Module Chunk.
Record t : Type := mk {
  documentId : nat;
  chunkIndex : Z;
  content : jsstring;
  embedding : option Vector;
  metadata : option jsstring
}.
End Chunk.

(** The transaction state of a pooled client. *)
Inductive TxState : Type :=
| Idle
| InTransaction (working : list ChunkRow.t)
| Aborted.

(** A client taken from the pool: the committed [document_chunks] table
    and the state of the client's transaction. *)
Module Client.
Record t : Type := mk {
  table : list ChunkRow.t;
  tx : TxState
}.
End Client.

Section Insert.

(** The checks the database runs on an inserted row against the rows
    visible to the statement (NOT NULL, the foreign key to [documents],
    the dimension of the vector column). *)
Variable accepts : list ChunkRow.t -> ChunkRow.t -> bool.

(** [uuid_generate_v4()], as a function of the rows visible so far. *)
Variable freshId : list ChunkRow.t -> nat.

(** [client.query('BEGIN')] *)
Definition queryBegin (client : Client.t) : Client.t :=
  match Client.tx client with
  | Idle => Client.mk (Client.table client) (InTransaction (Client.table client))
  | _ => client
  end.

(** [client.query('COMMIT')]; committing an aborted transaction rolls it
    back. *)
Definition queryCommit (client : Client.t) : Client.t :=
  match Client.tx client with
  | InTransaction working => Client.mk working Idle
  | _ => Client.mk (Client.table client) Idle
  end.

(** [client.query('ROLLBACK')] *)
Definition queryRollback (client : Client.t) : Client.t :=
  Client.mk (Client.table client) Idle.

(** The row that [INSERT ... VALUES ($1, $2, $3, $4, $5)] builds;
    [JSON.stringify(chunk.metadata || {})] for a missing metadata is
    the text of the empty object. *)
Definition rowOf (visible : list ChunkRow.t) (chunk : Chunk.t) (embedding : Vector)
    : ChunkRow.t :=
  ChunkRow.mk (freshId visible) (Chunk.documentId chunk) (Chunk.chunkIndex chunk)
    (Chunk.content chunk) embedding
    (match Chunk.metadata chunk with
     | Some m => m
     | None => u "{}"
     end).

(** [client.query(INSERT ... RETURNING id, params)] *)
Definition queryInsert (client : Client.t) (chunk : Chunk.t) (embedding : Vector)
    : Client.t * Result nat :=
  match Client.tx client with
  | Idle =>
      let row := rowOf (Client.table client) chunk embedding in
      if accepts (Client.table client) row
      then (Client.mk (Client.table client ++ [row]) Idle, Ok (ChunkRow.id row))
      else (client, Throw "insert rejected")
  | InTransaction working =>
      let row := rowOf working chunk embedding in
      if accepts working row
      then (Client.mk (Client.table client) (InTransaction (working ++ [row])),
            Ok (ChunkRow.id row))
      else (Client.mk (Client.table client) Aborted, Throw "insert rejected")
  | Aborted => (client, Throw "current transaction is aborted")
  end.

(** [for (const chunk of chunks) { ...; insertedIds.push(result.rows[0].id) }] *)
Fixpoint insertLoop (chunks : list Chunk.t) (client : Client.t)
    (insertedIds : list nat) : Client.t * Result (list nat) :=
  match chunks with
  | [] => (client, Ok insertedIds)
  | chunk :: rest =>
      match Chunk.embedding chunk with
      | None => (client, Throw "Cannot read properties of undefined (reading 'join')")
      | Some embedding =>
          match queryInsert client chunk embedding with
          | (client', Ok id) => insertLoop rest client' (insertedIds ++ [id])
          | (client', Throw msg) => (client', Throw msg)
          end
      end
  end.

(** [insertChunks]: BEGIN, the loop, COMMIT; on any error ROLLBACK and
    rethrow. *)
Definition insertChunks (chunks : list Chunk.t) (client : Client.t)
    : Client.t * Result (list nat) :=
  match insertLoop chunks (queryBegin client) [] with
  | (client', Ok insertedIds) => (queryCommit client', Ok insertedIds)
  | (client', Throw msg) => (queryRollback client', Throw msg)
  end.

(** Specification side: the rows that a batch adds to the rows
    [visible], when every item carries an embedding and passes the
    database checks in turn; [None] when some item fails. *)
Fixpoint rowsOfBatch (visible : list ChunkRow.t) (chunks : list Chunk.t)
    : option (list ChunkRow.t) :=
  match chunks with
  | [] => Some []
  | chunk :: rest =>
      match Chunk.embedding chunk with
      | None => None
      | Some embedding =>
          let row := rowOf visible chunk embedding in
          if accepts visible row
          then option_map (cons row) (rowsOfBatch (visible ++ [row]) rest)
          else None
      end
  end.

End Insert.

(** *** The other statements of the service *)

(** A row as [getDocumentChunks] selects it. *)
Module StoredChunk.
Record t : Type := mk {
  id : nat;
  chunk_index : Z;
  content : jsstring;
  metadata : jsstring
}.
End StoredChunk.

Section Statements.

Variable accepts : list ChunkRow.t -> ChunkRow.t -> bool.
Variable freshId : list ChunkRow.t -> nat.

(** The rows that a statement of the client sees: the committed table,
    or the working copy of its open transaction. *)
Definition visibleRows (client : Client.t) : Result (list ChunkRow.t) :=
  match Client.tx client with
  | Idle => Ok (Client.table client)
  | InTransaction working => Ok working
  | Aborted => Throw "current transaction is aborted"
  end.

(** [insertChunk]: one INSERT outside any explicit transaction. *)
Definition insertChunk (chunk : Chunk.t) (client : Client.t) : Client.t * Result nat :=
  match Chunk.embedding chunk with
  | None => (client, Throw "Cannot read properties of undefined (reading 'join')")
  | Some embedding => queryInsert accepts freshId client chunk embedding
  end.

Definition ofDocument (documentId : nat) (row : ChunkRow.t) : bool :=
  ChunkRow.document_id row =? documentId.

(** [deleteDocumentChunks]: [DELETE FROM document_chunks WHERE
    document_id = $1], returning [result.rowCount]. *)
Definition deleteDocumentChunks (documentId : nat) (client : Client.t)
    : Client.t * Result nat :=
  let keep := fun row => negb (ofDocument documentId row) in
  match Client.tx client with
  | Idle =>
      (Client.mk (List.filter keep (Client.table client)) Idle,
       Ok (List.length (List.filter (ofDocument documentId) (Client.table client))))
  | InTransaction working =>
      (Client.mk (Client.table client) (InTransaction (List.filter keep working)),
       Ok (List.length (List.filter (ofDocument documentId) working)))
  | Aborted => (client, Throw "current transaction is aborted")
  end.

(** [ORDER BY chunk_index ASC] as an insertion sort. *)
Fixpoint insertAsc (row : ChunkRow.t) (sorted : list ChunkRow.t) : list ChunkRow.t :=
  match sorted with
  | [] => [row]
  | r :: rest =>
      if (ChunkRow.chunk_index row <=? ChunkRow.chunk_index r)%Z
      then row :: r :: rest
      else r :: insertAsc row rest
  end.

Definition orderByChunkIndex (rows : list ChunkRow.t) : list ChunkRow.t :=
  List.fold_right insertAsc [] rows.

Definition toStoredChunk (row : ChunkRow.t) : StoredChunk.t :=
  StoredChunk.mk (ChunkRow.id row) (ChunkRow.chunk_index row)
    (ChunkRow.content row) (ChunkRow.metadata row).

(** [getDocumentChunks]: [SELECT id, chunk_index, content, metadata ...
    WHERE document_id = $1 ORDER BY chunk_index ASC]. *)
Definition getDocumentChunks (documentId : nat) (client : Client.t)
    : Result (list StoredChunk.t) :=
  match visibleRows client with
  | Throw msg => Throw msg
  | Ok rows =>
      Ok (List.map toStoredChunk
            (orderByChunkIndex (List.filter (ofDocument documentId) rows)))
  end.

(** [getTotalChunkCount]: [SELECT COUNT( * ) FROM document_chunks]. *)
Definition getTotalChunkCount (client : Client.t) : Result nat :=
  match visibleRows client with
  | Throw msg => Throw msg
  | Ok rows => Ok (List.length rows)
  end.

End Statements.

End VectorStore.

(** ** RAGService: retrieval and indexing *)

Module RAGQuery.

(** The [options] argument of [query]. *)
Module QueryOptions.
Record t : Type := mk {
  topK : option nat;
  threshold : option Q;
  accessLevel : Optional jsstring;
  category : Optional jsstring;
  department : Optional jsstring
}.
End QueryOptions.

(** The value that [query] returns. *)
Module QueryResult.
Record t : Type := mk {
  question : jsstring;
  results : list VectorStore.Hit.t;
  context : jsstring;
  hasResults : bool;
  topScore : Q
}.
End QueryResult.

(** An element of the array that [getSources] returns. *)
Module SourceRef.
Record t : Type := mk {
  documentId : nat;
  title : jsstring;
  source : jsstring;
  category : option jsstring;
  department : option jsstring
}.
End SourceRef.

(** A nullable column inside a template literal: [null] prints as the
    text "null". *)
Definition showNullable (v : option jsstring) : jsstring :=
  match v with
  | Some s => s
  | None => u "null"
  end.

(** The template of [formatContext] for the result at [index]. *)
Definition contextPart (index : nat) (result : VectorStore.Hit.t) : jsstring :=
  u "[Source " ++ numberToString (index + 1) ++ u ": "
  ++ VectorStore.Hit.title result ++ u " - "
  ++ showNullable (VectorStore.Hit.category result) ++ u "]" ++ [10%N]
  ++ VectorStore.Hit.content result.

(** [results.map((result, index) => ...)] from a start index. *)
Fixpoint contextParts (index : nat) (results : list VectorStore.Hit.t)
    : list jsstring :=
  match results with
  | [] => []
  | result :: rest => contextPart index result :: contextParts (S index) rest
  end.

(** [formatContext]: the parts joined by a rule between blank lines. *)
Definition formatContext (results : list VectorStore.Hit.t) : jsstring :=
  match results with
  | [] => []
  | _ :: _ => join ([10; 10]%N ++ u "---" ++ [10; 10]%N) (contextParts 0 results)
  end.

Definition toSourceRef (result : VectorStore.Hit.t) : SourceRef.t :=
  SourceRef.mk (VectorStore.Hit.documentId result) (VectorStore.Hit.title result)
    (VectorStore.Hit.source result) (VectorStore.Hit.category result)
    (VectorStore.Hit.department result).

(** [uniqueSources.has(result.documentId)] *)
Definition hasSource (uniqueSources : list SourceRef.t) (documentId : nat) : bool :=
  existsb (fun s => SourceRef.documentId s =? documentId) uniqueSources.

(** One call of the [forEach] callback of [getSources]; the [Map] keeps
    its entries in insertion order. *)
Definition addSource (uniqueSources : list SourceRef.t) (result : VectorStore.Hit.t)
    : list SourceRef.t :=
  if hasSource uniqueSources (VectorStore.Hit.documentId result)
  then uniqueSources
  else uniqueSources ++ [toSourceRef result].

Definition getSources (results : list VectorStore.Hit.t) : list SourceRef.t :=
  List.fold_left addSource results [].

Section Query.

Variable embeddingClient : option (jsstring -> Result VectorStore.Vector).
Variable cosineDistance : VectorStore.Vector -> VectorStore.Vector -> VectorStore.Float8.

(** [config.rag.topK] and [config.rag.similarityThreshold], which are
    also [this.topK] and [this.similarityThreshold]. *)
Variable configTopK : nat.
Variable configThreshold : Q.

Variable documents : list VectorStore.Document.t.
Variable document_chunks : list VectorStore.ChunkRow.t.

(** [options.topK || this.topK]: zero is falsy. *)
Definition topKOrDefault (options : QueryOptions.t) : nat :=
  match QueryOptions.topK options with
  | Some (S k) => S k
  | _ => configTopK
  end.

(** [options.threshold || this.similarityThreshold]: zero is falsy. *)
Definition thresholdOrDefault (options : QueryOptions.t) : Q :=
  match QueryOptions.threshold options with
  | Some t => if Qeq_bool t 0 then configThreshold else t
  | None => configThreshold
  end.

(** [options.accessLevel || 'public']: the empty string is falsy. *)
Definition accessLevelOrPublic (level : Optional jsstring) : jsstring :=
  match level with
  | Value (c :: s) => c :: s
  | _ => u "public"
  end.

Definition searchOptionsOf (options : QueryOptions.t) : VectorStore.SearchOptions.t :=
  VectorStore.SearchOptions.mk
    (Some (topKOrDefault options))
    (Some (thresholdOrDefault options))
    (Value (accessLevelOrPublic (QueryOptions.accessLevel options)))
    (QueryOptions.category options)
    (QueryOptions.department options).

(** [results[0]?.similarity || 0]: NaN and zero are falsy. *)
Definition topScoreOf (results : list VectorStore.Hit.t) : Q :=
  match results with
  | [] => 0
  | first :: _ =>
      match VectorStore.Hit.similarity first with
      | VectorStore.NaN => 0
      | VectorStore.Number s => if Qeq_bool s 0 then 0 else s
      end
  end.

Definition query (question : jsstring) (options : QueryOptions.t)
    : Result QueryResult.t :=
  match Embeddings.generateEmbedding VectorStore.Vector embeddingClient question with
  | Throw msg => Throw msg
  | Ok queryEmbedding =>
      let results :=
        VectorStore.searchSimilar cosineDistance configTopK configThreshold
          documents document_chunks queryEmbedding (searchOptionsOf options) in
      Ok (QueryResult.mk question results (formatContext results)
            (match results with
             | [] => false
             | _ :: _ => true
             end)
            (topScoreOf results))
  end.

End Query.

(** The [document] argument of [indexDocument]. *)
Module DocumentInput.
Record t : Type := mk {
  id : nat;
  title : jsstring;
  content : jsstring
}.
End DocumentInput.

(** The value that [indexDocument] returns. *)
Module IndexResult.
Record t : Type := mk {
  documentId : nat;
  chunksIndexed : nat;
  chunkIds : list nat
}.
End IndexResult.

Section Index.

Variable embeddingsClient :
  option (list jsstring -> Result (list VectorStore.Vector)).
Variable accepts : list VectorStore.ChunkRow.t -> VectorStore.ChunkRow.t -> bool.
Variable freshId : list VectorStore.ChunkRow.t -> nat.

(** [JSON.stringify({...document.metadata, chunkIndex: index,
    totalChunks: chunks.length})] for the document at hand, as a
    function of the two numbers. *)
Variable metadataJson : nat -> nat -> jsstring.

(** [chunks.map((chunk, index) => ({documentId, chunkIndex: index,
    content: chunk.text, embedding: embeddings[index], metadata}))] from
    a start index; [embeddings[index]] is [undefined] past the end of
    the array. *)
Fixpoint chunksToInsert (document : DocumentInput.t) (totalChunks index : nat)
    (chunks : list Embeddings.SentenceChunk.t)
    (embeddings : list VectorStore.Vector) : list VectorStore.Chunk.t :=
  match chunks with
  | [] => []
  | chunk :: rest =>
      VectorStore.Chunk.mk (DocumentInput.id document) (Z.of_nat index)
        (Embeddings.SentenceChunk.text chunk) (nth_error embeddings index)
        (Some (metadataJson index totalChunks))
      :: chunksToInsert document totalChunks (S index) rest embeddings
  end.

Definition indexDocument (document : DocumentInput.t) (client : VectorStore.Client.t)
    : VectorStore.Client.t * Result IndexResult.t :=
  let chunks := Embeddings.chunkBySentences (DocumentInput.content document) 500 in
  let texts := List.map Embeddings.SentenceChunk.text chunks in
  match Embeddings.generateEmbeddings VectorStore.Vector embeddingsClient texts with
  | Throw msg => (client, Throw msg)
  | Ok embeddings =>
      match VectorStore.insertChunks accepts freshId
              (chunksToInsert document (List.length chunks) 0 chunks embeddings)
              client with
      | (client', Throw msg) => (client', Throw msg)
      | (client', Ok insertedIds) =>
          (client',
           Ok (IndexResult.mk (DocumentInput.id document)
                 (List.length insertedIds) insertedIds))
      end
  end.

(** [reindexDocument]: delete the chunks, then index; two statements,
    no transaction around them. *)
Definition reindexDocument (document : DocumentInput.t) (client : VectorStore.Client.t)
    : VectorStore.Client.t * Result IndexResult.t :=
  match VectorStore.deleteDocumentChunks (DocumentInput.id document) client with
  | (client', Throw msg) => (client', Throw msg)
  | (client', Ok _) => indexDocument document client'
  end.

(** [deleteDocument] *)
Definition deleteDocument (documentId : nat) (client : VectorStore.Client.t)
    : VectorStore.Client.t * Result nat :=
  VectorStore.deleteDocumentChunks documentId client.

End Index.

End RAGQuery.

(** ** OrchestratorService: context gathering *)

Module OrchestratorTools.

(** The [context] argument of [processCall] and [gatherContext]. *)
Module CallContext.
Record t : Type := mk {
  accessLevel : Optional jsstring;
  fromNumber : option jsstring
}.
End CallContext.

Section GatherContext.

(** [ragService.query(query, options)] *)
Variable ragQuery :
  jsstring -> RAGQuery.QueryOptions.t -> Result RAGQuery.QueryResult.t.

(** [calendarService.findAvailableSlots(today, 60)]: the number of slots
    it returns, or a thrown error. *)
Variable findAvailableSlots : Result nat.

(** [contactsService.getContactByPhone(number)]: the display name of the
    contact found, [null], or a thrown error. *)
Variable getContactByPhone : jsstring -> Result (option string).

(** A step of the [try] block: the results so far, and whether the
    block goes on ([false] once an error has reached the [catch]). *)
Definition knowledgeStep (intent : Orchestrator.Intent) (query : jsstring)
    (context : CallContext.t) (results : list Orchestrator.ToolResult)
    : list Orchestrator.ToolResult * bool :=
  if String.eqb (Orchestrator.name intent) "agent_request" then (results, true)
  else
    match ragQuery query
            (RAGQuery.QueryOptions.mk (Some 3) None
               (Value (match CallContext.accessLevel context with
                       | Value (c :: s) => c :: s
                       | _ => u "public"
                       end))
               Undefined Undefined) with
    | Throw _ => (results, false)
    | Ok ragResults =>
        if RAGQuery.QueryResult.hasResults ragResults
        then (results
              ++ [Orchestrator.mkToolResult "knowledge_base"
                    ("Found "
                     ++ numberToText
                          (List.length (RAGQuery.QueryResult.results ragResults))
                     ++ " relevant documents")%string],
              true)
        else (results, true)
    end.

Definition calendarStep (intent : Orchestrator.Intent)
    (results : list Orchestrator.ToolResult)
    : list Orchestrator.ToolResult * bool :=
  if String.eqb (Orchestrator.name intent) "appointment"
  then
    match findAvailableSlots with
    | Throw _ => (results, false)
    | Ok slots =>
        (results
         ++ [Orchestrator.mkToolResult "check_calendar"
               (numberToText slots ++ " available time slots today")%string],
         true)
    end
  else (results, true).

(** [context.fromNumber && intent.confidence > 0.5] *)
Definition contactStep (intent : Orchestrator.Intent) (context : CallContext.t)
    (results : list Orchestrator.ToolResult)
    : list Orchestrator.ToolResult * bool :=
  match CallContext.fromNumber context with
  | Some (c :: number) =>
      if negb (Qle_bool (Orchestrator.confidence intent) (1 # 2))
      then
        match getContactByPhone (c :: number) with
        | Throw _ => (results, false)
        | Ok (Some displayName) =>
            (results
             ++ [Orchestrator.mkToolResult "search_contacts"
                   ("Caller identified: " ++ displayName)%string],
             true)
        | Ok None => (results, true)
        end
      else (results, true)
  | _ => (results, true)
  end.

(** [gatherContext]: the three steps inside one [try]; the [catch] logs
    the error and the function returns the results gathered so far. *)
Definition gatherContext (intent : Orchestrator.Intent) (query : jsstring)
    (context : CallContext.t) : list Orchestrator.ToolResult :=
  let s1 := knowledgeStep intent query context [] in
  if snd s1
  then
    let s2 := calendarStep intent (fst s1) in
    if snd s2 then fst (contactStep intent context (fst s2)) else fst s2
  else fst s1.

End GatherContext.

End OrchestratorTools.

(** ** DriveService *)

Module Drive.

Module File.
Record t : Type := mk {
  id : jsstring;
  name : jsstring
}.
End File.

(** An entry of the [errors] array. *)
Module IndexError.
Record t : Type := mk {
  fileId : jsstring;
  fileName : jsstring;
  error : string
}.
End IndexError.

(** The value that [indexFolder] returns. *)
Module Summary.
Record t : Type := mk {
  total : nat;
  indexed : nat;
  errors : list IndexError.t
}.
End Summary.

(** The answers of [listFiles] to the [do ... while (pageToken)] loop: a
    last page without [nextPageToken], a page with one followed by the
    answers to the next requests, or a thrown error. *)
Inductive Listing : Type :=
| LastPage (files : list File.t)
| NextPage (files : list File.t) (next : Listing)
| ListingFailed (msg : string).

(** [allFiles = allFiles.concat(result.files)] over the pages. *)
Fixpoint fetchAll (listing : Listing) (allFiles : list File.t) : Result (list File.t) :=
  match listing with
  | LastPage files => Ok (allFiles ++ files)
  | NextPage files next => fetchAll next (allFiles ++ files)
  | ListingFailed msg => Throw msg
  end.

Section IndexFolder.

(** The state that indexing works on (the vector store). *)
Variable Store : Type.

(** [this.indexFile(file.id, {category, department, accessLevel})]: the
    new store, and whether the call returned or threw. *)
Variable indexFile : jsstring -> Store -> Store * Result unit.

(** One iteration of [for (const file of allFiles)] with its own
    [try]/[catch]; the state is the store and the [errors] array. *)
Definition indexStep (st : Store * list IndexError.t) (file : File.t)
    : Store * list IndexError.t :=
  match indexFile (File.id file) (fst st) with
  | (store', Ok _) => (store', snd st)
  | (store', Throw msg) =>
      (store', snd st ++ [IndexError.mk (File.id file) (File.name file) msg])
  end.

Definition indexFolder (listing : Listing) (store : Store)
    : Store * Result Summary.t :=
  match fetchAll listing [] with
  | Throw msg => (store, Throw msg)
  | Ok allFiles =>
      let st := List.fold_left indexStep allFiles (store, []) in
      (fst st,
       Ok (Summary.mk (List.length allFiles)
             (List.length allFiles - List.length (snd st)) (snd st)))
  end.

(** Specification side: every listed file is attempted in turn on the
    store its predecessors left; the outcome of each attempt. *)
Fixpoint attempts (files : list File.t) (store : Store)
    : list (File.t * Result unit) * Store :=
  match files with
  | [] => ([], store)
  | file :: rest =>
      let r := indexFile (File.id file) store in
      let rs := attempts rest (fst r) in
      ((file, snd r) :: fst rs, snd rs)
  end.

(** The error entries of the attempts that threw. *)
Definition failuresOf (outcomes : list (File.t * Result unit)) : list IndexError.t :=
  List.flat_map
    (fun o => match snd o with
              | Ok _ => []
              | Throw msg => [IndexError.mk (File.id (fst o)) (File.name (fst o)) msg]
              end)
    outcomes.

End IndexFolder.

(** *** [indexFile] *)

(** What [indexFile] reads of the metadata of a file. *)
Module FileMetadata.
Record t : Type := mk {
  name : jsstring;
  mimeType : jsstring
}.
End FileMetadata.

Section IndexFile.

Variable Store : Type.

(** [this.getFileMetadata(fileId)] *)
Variable getFileMetadata : jsstring -> Result FileMetadata.t.

(** [this.downloadFile(fileId, mimeType)]: the text of the file ([None]
    for an answer without data), or a thrown error. *)
Variable downloadFile : jsstring -> jsstring -> Result (option jsstring).

(** [ragService.indexDocument(document)] for the document built from
    the file id, its name and its content. *)
Variable indexDocument : jsstring -> jsstring -> jsstring -> Store -> Store * Result unit.

(** [indexFile]: a file without content is skipped with [return null]. *)
Definition indexFile (fileId : jsstring) (store : Store) : Store * Result unit :=
  match getFileMetadata fileId with
  | Throw msg => (store, Throw msg)
  | Ok metadata =>
      match downloadFile fileId (FileMetadata.mimeType metadata) with
      | Throw msg => (store, Throw msg)
      | Ok None => (store, Ok tt)
      | Ok (Some content) =>
          if isBlank content then (store, Ok tt)
          else indexDocument fileId (FileMetadata.name metadata) content store
      end
  end.

(** Specification side: the files that [indexFile] skips, those whose
    metadata can be read and whose download has no data or nothing but
    white space. *)
Definition withoutContent (file : File.t) : bool :=
  match getFileMetadata (File.id file) with
  | Throw _ => false
  | Ok metadata =>
      match downloadFile (File.id file) (FileMetadata.mimeType metadata) with
      | Throw _ => false
      | Ok None => true
      | Ok (Some content) => isBlank content
      end
  end.

End IndexFile.

End Drive.

(* ===================================================================== *)
(** * Part II. Proofs                                                     *)
(* ===================================================================== *)

(** ** Strings *)

Lemma startsWith_spec (s k : jsstring) :
  startsWith s k = true <-> exists post, s = k ++ post.
Proof.
  revert s. induction k as [|c k IH]; intros s; simpl.
  - split; [intros _; exists s; reflexivity | reflexivity].
  - destruct s as [|d s]; simpl.
    + split; [discriminate | intros [post H]; discriminate].
    + rewrite andb_true_iff, N.eqb_eq, IH. split.
      * intros [-> [post ->]]. exists post. reflexivity.
      * intros [post H]. injection H as -> ->. split; [reflexivity | eauto].
Qed.

(** [includes] is literal substring containment. *)
Lemma includes_spec (s k : jsstring) :
  includes s k = true <-> exists pre post, s = pre ++ k ++ post.
Proof.
  induction s as [|d s IH]; simpl.
  - rewrite orb_false_r, startsWith_spec. split.
    + intros [post H]. exists [], post. exact H.
    + intros [pre [post H]]. destruct pre as [|x pre]; [|discriminate].
      exists post. exact H.
  - rewrite orb_true_iff, startsWith_spec, IH. split.
    + intros [[post H] | [pre [post H]]].
      * exists [], post. exact H.
      * exists (d :: pre), post. simpl. rewrite H. reflexivity.
    + intros [pre [post H]]. destruct pre as [|x pre]; simpl in H.
      * left. exists post. exact H.
      * right. injection H as _ H. exists pre, post. exact H.
Qed.

(** ** Sanity checks of the string helpers on concrete inputs *)

Example splitWhitespace_ex :
  Embeddings.splitWhitespace (u " a  b ") = [[]; u "a"; u "b"; []].
Proof. reflexivity. Qed.

Example sentencesOf_ex :
  Embeddings.sentencesOf (u "..Hi there!  How are you?? fine")
  = [u "Hi there!"; u "  How are you??"].
Proof. reflexivity. Qed.

Example sentencesOf_no_terminator :
  Embeddings.sentencesOf (u "no terminator here") = [u "no terminator here"].
Proof. reflexivity. Qed.

Example chunkBySentences_ex :
  List.map Embeddings.SentenceChunk.text
    (Embeddings.chunkBySentences (u "One. Two. A longer third sentence. Four.") 10)
  = [u "One. Two."; u "A longer third sentence."; u "Four."].
Proof. reflexivity. Qed.

Example chunkText_ex :
  Embeddings.chunkText 10 (u "a b c d e") 3 1
  = Some [Embeddings.WordChunk.mk (u "a b c") 0 3;
          Embeddings.WordChunk.mk (u "c d e") 2 5;
          Embeddings.WordChunk.mk (u "e") 4 5].
Proof. reflexivity. Qed.

Example slice_negative : slice [1; 2; 3; 4; 5] (-2) 1 = @nil nat.
Proof. reflexivity. Qed.

(** ** Intent detection *)

Section DetectIntent.

Variable toLowerCase : jsstring -> jsstring.

Import Orchestrator.

(** What the scan over the entries computes from a start state
    [(d, m0)]: either no entry beats [m0] and the state is unchanged, or
    the state is the first entry, in enumeration order, whose count is
    the strict maximum so far. *)
Lemma detectLoop_first_max (lowerText : jsstring) entries d m0 :
  let count e := countMatches lowerText (snd e) in
  let st := detectLoop lowerText entries (d, m0) in
  (st = (d, m0) /\ (forall e, In e entries -> count e <= m0))
  \/ (exists pre e post,
        entries = pre ++ e :: post /\ st = (fst e, count e) /\ m0 < count e
        /\ (forall e', In e' pre -> count e' < count e)
        /\ (forall e', In e' post -> count e' <= count e)).
Proof.
  intros count. revert d m0.
  induction entries as [|a entries IH]; intros d m0; simpl.
  - left. split; [reflexivity | intros e []].
  - change (detectLoop lowerText (a :: entries) (d, m0))
      with (detectLoop lowerText entries (detectStep lowerText (d, m0) a)).
    unfold detectStep. cbn [fst snd]. fold (count a).
    destruct (Nat.ltb_spec m0 (count a)) as [Hlt | Hge].
    + right. destruct (IH (fst a) (count a)) as [[Hst Hall] | Hex].
      * exists [], a, entries. repeat split; auto. intros e' [].
      * destruct Hex as (pre & e & post & -> & Hst & Hm & Hpre & Hpost).
        exists (a :: pre), e, post. repeat split; auto; [lia |].
        intros e' [<- | Hin]; auto.
    + destruct (IH d m0) as [[Hst Hall] | Hex].
      * left. split; [exact Hst |]. intros e [<- | Hin]; auto.
      * right. destruct Hex as (pre & e & post & -> & Hst & Hm & Hpre & Hpost).
        exists (a :: pre), e, post. repeat split; auto.
        intros e' [<- | Hin]; [lia | auto].
Qed.

Lemma confidenceOf_zero : (confidenceOf 0 == 0)%Q.
Proof. reflexivity. Qed.

(** From one match on, the confidence is at least 0.3. *)
Lemma confidenceOf_pos (m : nat) : 0 < m -> (3 # 10 <= confidenceOf m)%Q.
Proof.
  intros Hm. unfold confidenceOf. apply Q.min_glb.
  - unfold Qle, Qmult, inject_Z. simpl. lia.
  - unfold Qle. simpl. lia.
Qed.

Lemma lowConfidence_confidenceOf (n : string) (m : nat) kws :
  lowConfidence (mkIntent n (confidenceOf m) kws) = true <-> m = 0.
Proof.
  unfold lowConfidence. simpl. rewrite negb_true_iff. split.
  - intros H. destruct m as [|m]; [reflexivity |].
    assert (Hp : (3 # 10 <= confidenceOf (S m))%Q) by (apply confidenceOf_pos; lia).
    apply Qle_bool_iff in Hp. congruence.
  - intros ->. reflexivity.
Qed.

(** No intent has more than seven keywords, so the count stays below
    eight. *)
Lemma detectLoop_count_bound (lowerText : jsstring) :
  snd (detectLoop lowerText intents ("general_inquiry"%string, 0)) <= 7.
Proof.
  destruct (detectLoop_first_max lowerText intents "general_inquiry"%string 0)
    as [[-> _] | (pre & e & post & Hin & -> & _)]; cbn [snd]; [lia |].
  assert (He : In e intents) by (rewrite Hin; apply in_or_app; right; left; reflexivity).
  assert (Hk : List.length (snd e) <= 7).
  { cbn in He. repeat (destruct He as [<- | He]; [cbn; lia |]). destruct He. }
  unfold countMatches.
  pose proof (List.filter_length_le
                (fun keyword => includes lowerText keyword) (snd e)). lia.
Qed.

(** On the counts that can occur, the binary64 test [confidence < 0.3]
    and the test on the rationals agree. *)
Lemma lowConfidence_binary64_agrees (n : string) (m : nat) kws :
  m <= 7 ->
  lowConfidence_binary64 m = lowConfidence (mkIntent n (confidenceOf m) kws).
Proof.
  intros Hm.
  do 8 (destruct m as [|m]; [vm_compute; reflexivity |]). lia.
Qed.

(** The detected name is the default or one of the eight declared ones. *)
Lemma detectIntent_name_cases (text : jsstring) :
  In (name (detectIntent toLowerCase text))
     ("general_inquiry"%string :: List.map fst intents).
Proof.
  unfold detectIntent. cbn [name].
  destruct (detectLoop_first_max (toLowerCase text) intents
              "general_inquiry"%string 0) as [[Hst _] | Hex].
  - rewrite Hst. left. reflexivity.
  - destruct Hex as (pre & e & post & Hin & Hst & _). rewrite Hst. right.
    cbn [fst]. rewrite Hin, List.map_app. apply in_or_app. right. left. reflexivity.
Qed.

End DetectIntent.

(** "hours" and "open" both occur: two matches, confidence 0.6. *)
Example detectIntent_opening_hours :
  let intent :=
    Orchestrator.detectIntent toLowerCase_ascii (u "What are your opening HOURS") in
  Orchestrator.name intent = "business_hours"%string
  /\ (Orchestrator.confidence intent == 6 # 10)%Q.
Proof. split; reflexivity. Qed.

Example detectIntent_no_match :
  let intent := Orchestrator.detectIntent toLowerCase_ascii (u "Bonjour") in
  Orchestrator.name intent = "general_inquiry"%string
  /\ (Orchestrator.confidence intent == 0)%Q.
Proof. split; reflexivity. Qed.

(** C3, the claim as stated fails: on the utterance "agent hours" the
    intents business_hours and agent_request both count one keyword,
    agent_request comes first alphabetically, and the code returns
    business_hours, the one written first in the object literal. *)
Lemma detectIntent_tie_not_alphabetical :
  let text := u "agent hours" in
  let lowerText := toLowerCase_ascii text in
  Orchestrator.countMatches lowerText
    (Orchestrator.lookupKeywords Orchestrator.intents "business_hours") = 1
  /\ Orchestrator.countMatches lowerText
    (Orchestrator.lookupKeywords Orchestrator.intents "agent_request") = 1
  /\ Orchestrator.maxCount lowerText Orchestrator.intents = 1
  /\ String.ltb "agent_request" "business_hours" = true
  /\ Orchestrator.classify_alphabetical toLowerCase_ascii text = "agent_request"%string
  /\ Orchestrator.name (Orchestrator.detectIntent toLowerCase_ascii text)
     = "business_hours"%string
  /\ Orchestrator.name (Orchestrator.detectIntent toLowerCase_ascii text)
     <> Orchestrator.classify_alphabetical toLowerCase_ascii text.
Proof.
  cbv zeta. repeat split; try reflexivity.
  vm_compute. discriminate.
Qed.

(** C3, as amended: [detectIntent] lower-cases the utterance and counts,
    per intent, the keywords that occur in it as substrings. With no
    keyword found it returns "general_inquiry" with confidence 0.
    Otherwise it returns the intent with the highest count, the first
    one in declaration order among equals (every earlier intent counts
    strictly less, every later one no more), with confidence
    min(count * 0.3, 0.95). *)
Theorem detectIntent_first_declared_max
    (toLowerCase : jsstring -> jsstring) (text : jsstring) :
  let lowerText := toLowerCase text in
  let count e := Orchestrator.countMatches lowerText (snd e) in
  let i := Orchestrator.detectIntent toLowerCase text in
  ((forall e, In e Orchestrator.intents -> count e = 0)
   /\ Orchestrator.name i = "general_inquiry"%string
   /\ (Orchestrator.confidence i == 0)%Q)
  \/ (exists pre e post,
        Orchestrator.intents = pre ++ e :: post
        /\ Orchestrator.name i = fst e
        /\ 0 < count e
        /\ (forall e', In e' pre -> count e' < count e)
        /\ (forall e', In e' post -> count e' <= count e)
        /\ Orchestrator.confidence i
           = Qmin (inject_Z (Z.of_nat (count e)) * (3 # 10)) (95 # 100)).
Proof.
  intros lowerText count i.
  destruct (detectLoop_first_max lowerText Orchestrator.intents
              "general_inquiry"%string 0) as [[Hst Hall] | Hex].
  - left. subst i. unfold Orchestrator.detectIntent. fold lowerText.
    rewrite Hst. cbn [Orchestrator.name Orchestrator.confidence fst snd].
    repeat split.
    intros e He. specialize (Hall e He). unfold count. simpl in Hall |- *. lia.
  - right. destruct Hex as (pre & e & post & Hin & Hst & Hm & Hpre & Hpost).
    exists pre, e, post. subst i. unfold Orchestrator.detectIntent.
    fold lowerText. rewrite Hst.
    cbn [Orchestrator.name Orchestrator.confidence fst snd].
    repeat split; auto.
Qed.

(** ** Handoff policy *)

Section Handoff.

Import Orchestrator.

(** [shouldHandoff] answers [true] exactly when one of its four rules
    fires. *)
Lemma shouldHandoff_firedRule intent toolResults isBusinessHours :
  shouldHandoff intent toolResults isBusinessHours
  = match firedRule intent toolResults isBusinessHours with
    | Some _ => true
    | None => false
    end.
Proof.
  unfold shouldHandoff, firedRule.
  repeat match goal with |- context [if ?b then _ else _] => destruct b end;
    reflexivity.
Qed.

(** The rules are tried in source order: a rule fires only when every
    rule before it did not apply. *)
Lemma firedRule_priority intent toolResults isBusinessHours r :
  firedRule intent toolResults isBusinessHours = Some r ->
  match r with
  | ExplicitRequest => name intent = "agent_request"%string
  | LowConfidence =>
      name intent <> "agent_request"%string /\ lowConfidence intent = true
  | SpecialistRequired =>
      name intent <> "agent_request"%string /\ lowConfidence intent = false
      /\ name intent = "technical_support"%string /\ isBusinessHours = true
  | NoKnowledge =>
      name intent <> "agent_request"%string /\ lowConfidence intent = false
      /\ (name intent = "technical_support"%string -> isBusinessHours = false)
      /\ hasKnowledge toolResults = false
      /\ name intent <> "general_inquiry"%string
  end.
Proof.
  unfold firedRule.
  destruct (String.eqb_spec (name intent) "agent_request") as [Ha | Ha].
  { intros [= <-]. exact Ha. }
  destruct (lowConfidence intent) eqn:Hl.
  { intros [= <-]. split; [exact Ha | reflexivity]. }
  destruct (String.eqb_spec (name intent) "technical_support") as [Ht | Ht];
    destruct isBusinessHours; cbn [andb].
  1: { intros [= <-]. repeat split; auto. }
  all: destruct (hasKnowledge toolResults); cbn [negb andb];
    try discriminate;
    destruct (String.eqb_spec (name intent) "general_inquiry") as [Hg | Hg];
    cbn [negb]; try discriminate; intros [= <-]; repeat split; auto;
    try (intros; congruence).
Qed.

Lemma getHandoffReason_outside_table intent :
  ~ In (name intent) (List.map fst reasons) ->
  getHandoffReason intent = "Customer needs personalized assistance"%string.
Proof.
  unfold getHandoffReason, reasons. cbn [List.map fst In lookupReason].
  intros H.
  repeat match goal with
  | |- context [String.eqb ?a ?b] =>
      destruct (String.eqb_spec a b) as [? | ?]; [exfalso; apply H; tauto |]
  end.
  reflexivity.
Qed.

End Handoff.

(** C2: when the detected intent is "agent_request" the call is handed
    off, the rule that fires is the explicit-request rule, and the reason
    is that of the explicit request, whatever the confidence (so also
    below 0.3), tool results and time of day; in particular the reason is
    never the low-confidence one. *)
Theorem agent_request_explicit_reason
    (intent : Orchestrator.Intent)
    (toolResults : list Orchestrator.ToolResult) (isBusinessHours : bool) :
  Orchestrator.name intent = "agent_request"%string ->
  Orchestrator.shouldHandoff intent toolResults isBusinessHours = true
  /\ Orchestrator.firedRule intent toolResults isBusinessHours
     = Some Orchestrator.ExplicitRequest
  /\ Orchestrator.getHandoffReason intent = "Customer requested human agent"%string
  /\ Orchestrator.getHandoffReason intent
     <> "Unable to understand request clearly"%string.
Proof.
  intros Hname.
  unfold Orchestrator.shouldHandoff, Orchestrator.firedRule,
    Orchestrator.getHandoffReason.
  rewrite Hname. cbn. repeat split. discriminate.
Qed.

(** An "agent_request" intent whose confidence 0.1 also meets the
    low-confidence rule. *)
Lemma agent_request_explicit_reason_witness :
  let intent := Orchestrator.mkIntent "agent_request" (1 # 10) [] in
  Orchestrator.lowConfidence intent = true
  /\ Orchestrator.shouldHandoff intent [] false = true
  /\ Orchestrator.firedRule intent [] false = Some Orchestrator.ExplicitRequest
  /\ Orchestrator.getHandoffReason intent = "Customer requested human agent"%string
  /\ Orchestrator.getHandoffReason intent
     <> "Unable to understand request clearly"%string.
Proof.
  split; [reflexivity |].
  apply (agent_request_explicit_reason
           (Orchestrator.mkIntent "agent_request" (1 # 10) []) [] false).
  reflexivity.
Defined.

(** C10: the reason depends on the intent name alone; when the
    low-confidence or the no-knowledge rule fires for an intent whose
    name has no entry in the table, the reason is the generic fallback;
    and on no utterance does a turn report the table's low_confidence or
    no_knowledge text, a turn handed off for low confidence reporting the
    fallback. *)
Theorem handoff_reason_from_intent_name :
  (forall i1 i2 : Orchestrator.Intent,
      Orchestrator.name i1 = Orchestrator.name i2 ->
      Orchestrator.getHandoffReason i1 = Orchestrator.getHandoffReason i2)
  /\ (forall intent toolResults isBusinessHours,
        (Orchestrator.firedRule intent toolResults isBusinessHours
           = Some Orchestrator.LowConfidence
         \/ Orchestrator.firedRule intent toolResults isBusinessHours
           = Some Orchestrator.NoKnowledge) ->
        ~ In (Orchestrator.name intent) (List.map fst Orchestrator.reasons) ->
        Orchestrator.getHandoffReason intent
        = "Customer needs personalized assistance"%string)
  /\ (forall toLowerCase text,
        let intent := Orchestrator.detectIntent toLowerCase text in
        Orchestrator.getHandoffReason intent
          <> "Unable to understand request clearly"%string
        /\ Orchestrator.getHandoffReason intent
          <> "Information not available in knowledge base"%string
        /\ (forall toolResults isBusinessHours,
              Orchestrator.firedRule intent toolResults isBusinessHours
                = Some Orchestrator.LowConfidence ->
              Orchestrator.getHandoffReason intent
              = "Customer needs personalized assistance"%string)).
Proof.
  split; [| split].
  - intros i1 i2 H. unfold Orchestrator.getHandoffReason. rewrite H. reflexivity.
  - intros intent toolResults isBusinessHours _ Hout.
    apply getHandoffReason_outside_table. exact Hout.
  - intros toLowerCase text intent.
    assert (Hcases := detectIntent_name_cases toLowerCase text).
    fold intent in Hcases.
    assert (Hreason : forall i,
      In (Orchestrator.name i)
         ("general_inquiry"%string :: List.map fst Orchestrator.intents) ->
      Orchestrator.getHandoffReason i
        <> "Unable to understand request clearly"%string
      /\ Orchestrator.getHandoffReason i
        <> "Information not available in knowledge base"%string).
    { intros i Hi. unfold Orchestrator.getHandoffReason.
      cbn in Hi.
      repeat (destruct Hi as [Hi | Hi]; [rewrite <- Hi; cbn; split; discriminate |]).
      destruct Hi. }
    destruct (Hreason intent Hcases) as [H1 H2].
    split; [exact H1 | split; [exact H2 |]].
    intros toolResults isBusinessHours Hfired.
    apply firedRule_priority in Hfired. destruct Hfired as [_ Hlow].
    unfold intent, Orchestrator.detectIntent in Hlow.
    apply lowConfidence_confidenceOf in Hlow.
    destruct (detectLoop_first_max (toLowerCase text) Orchestrator.intents
                "general_inquiry"%string 0) as [[Hst _] | Hex].
    + unfold intent, Orchestrator.detectIntent. rewrite Hst. reflexivity.
    + destruct Hex as (pre & e & post & _ & Hst & Hm & _).
      rewrite Hst in Hlow. cbn [snd] in Hlow. simpl in Hm. lia.
Qed.

(** A pricing question without knowledge-base hit: the no-knowledge rule
    fires and the reason is the fallback. *)
Lemma handoff_reason_from_intent_name_witness :
  let intent := Orchestrator.mkIntent "pricing" (3 # 10) [] in
  Orchestrator.firedRule intent [] true = Some Orchestrator.NoKnowledge
  /\ Orchestrator.getHandoffReason intent
     = "Customer needs personalized assistance"%string.
Proof.
  split; [reflexivity |].
  apply (proj1 (proj2 handoff_reason_from_intent_name)
           (Orchestrator.mkIntent "pricing" (3 # 10) []) [] true).
  - right. reflexivity.
  - cbn. intros H. repeat (destruct H as [H | H]; [discriminate H |]). exact H.
Defined.

(** ** Query validation *)

(** C8: [validateQuery] rejects a query exactly when the lower-cased
    text contains one of the restricted terms as a literal substring and
    the caller has no elevated access; with elevated access, or without
    a restricted term, the query is valid. *)
Theorem validateQuery_rejects_iff
    (toLowerCase : jsstring -> jsstring) (query : jsstring) (hasHighAccess : bool) :
  let restricted :=
    exists term pre post,
      In term RAG.restrictedCategories
      /\ toLowerCase query = pre ++ term ++ post in
  (RAG.valid (RAG.validateQuery toLowerCase query hasHighAccess) = false
   <-> restricted /\ hasHighAccess = false)
  /\ (RAG.valid (RAG.validateQuery toLowerCase query hasHighAccess) = true
      <-> hasHighAccess = true \/ ~ restricted).
Proof.
  intros restricted.
  assert (Hm : RAG.mentionsRestricted toLowerCase query = true <-> restricted).
  { unfold RAG.mentionsRestricted, restricted. rewrite existsb_exists. split.
    - intros [term [Hin Hinc]]. apply includes_spec in Hinc.
      destruct Hinc as [pre [post Heq]]. exists term, pre, post. auto.
    - intros (term & pre & post & Hin & Heq). exists term. split; [exact Hin |].
      apply includes_spec. eauto. }
  unfold RAG.validateQuery.
  destruct (RAG.mentionsRestricted toLowerCase query) eqn:Hr;
    destruct hasHighAccess; cbn [andb negb RAG.valid].
  - split; split; try discriminate; auto. intros [_ H]. discriminate H.
  - assert (Hres : restricted) by (apply Hm; reflexivity).
    split; split; try discriminate; auto.
    intros [H | H]; [discriminate H | contradiction].
  - split; split; try discriminate; auto. intros [_ H]. discriminate H.
  - assert (Hres : ~ restricted) by (intros H; apply Hm in H; discriminate H).
    split; split; try discriminate; auto. intros [H _]. contradiction.
Qed.

Example validateQuery_rejects :
  RAG.validateQuery toLowerCase_ascii (u "Show me the INTERNAL wiki") false
  = RAG.mkValidation false (Some "Query contains restricted content"%string).
Proof. reflexivity. Qed.

Example validateQuery_high_access :
  RAG.validateQuery toLowerCase_ascii (u "Show me the INTERNAL wiki") true
  = RAG.mkValidation true None.
Proof. reflexivity. Qed.

(** Substring matching is literal: "internally" is rejected as well. *)
Example validateQuery_literal :
  RAG.valid (RAG.validateQuery toLowerCase_ascii (u "internally consistent") false)
  = false.
Proof. reflexivity. Qed.

(** ** Batch embeddings *)

Section BatchEmbeddings.

Import Embeddings.

Variable Embedding : Type.

Lemma sliceBatches_concat (fuel size : nat) (texts : list jsstring) :
  0 < size -> List.length texts <= fuel ->
  concat (sliceBatches fuel size texts) = texts.
Proof.
  intros Hsize. revert texts.
  induction fuel as [|fuel IH]; intros texts Hlen.
  - destruct texts; [reflexivity | simpl in Hlen; lia].
  - destruct texts as [|t texts]; [reflexivity |].
    cbn [sliceBatches concat]. rewrite IH.
    + apply List.firstn_skipn.
    + rewrite List.length_skipn. simpl in Hlen |- *. lia.
Qed.

(** Every batch is non-empty and within the provider's limit. *)
Lemma sliceBatches_sizes (fuel size : nat) (texts : list jsstring) :
  0 < size ->
  Forall (fun batch => batch <> [] /\ List.length batch <= size)
         (sliceBatches fuel size texts).
Proof.
  intros Hsize. revert texts.
  induction fuel as [|fuel IH]; intros texts; [constructor |].
  destruct texts as [|t texts]; [constructor |].
  cbn [sliceBatches]. constructor; [| apply IH]. split.
  - destruct size; [lia | discriminate].
  - rewrite List.length_firstn. lia.
Qed.

Lemma Forall_concat_inv {A : Type} (P : A -> Prop) (ls : list (list A)) :
  Forall P (concat ls) -> Forall (Forall P) ls.
Proof.
  induction ls as [|l ls IH]; simpl; intros H; [constructor |].
  apply List.Forall_app in H. destruct H as [H1 H2]. constructor; auto.
Qed.

Lemma validTextsOf_nonblank (texts : list jsstring) :
  Forall (fun text => isBlank text = false) (validTextsOf texts).
Proof.
  unfold validTextsOf. apply List.Forall_forall. intros t Ht.
  apply List.filter_In in Ht. destruct Ht as [_ Ht].
  apply negb_true_iff in Ht. exact Ht.
Qed.

Lemma requestsOf_concat (texts : list jsstring) :
  concat (requestsOf texts) = validTextsOf texts.
Proof.
  unfold requestsOf, batchesOf. apply sliceBatches_concat.
  - unfold batchSize. lia.
  - lia.
Qed.

(** With a provider that answers every request it is sent, the loop
    returns the answers in request order. *)
Lemma embedBatches_ok (create : list jsstring -> Result (list Embedding))
    (embed : jsstring -> Embedding) (batches : list (list jsstring))
    (acc : list Embedding) :
  Forall (fun batch => create batch = Ok (List.map embed batch)) batches ->
  embedBatches Embedding create batches acc
  = Ok (acc ++ List.map embed (concat batches)).
Proof.
  revert acc. induction batches as [|b batches IH]; intros acc H.
  - simpl. rewrite app_nil_r. reflexivity.
  - inversion H as [|? ? Hb Hrest]; subst. cbn [embedBatches concat].
    rewrite Hb, IH by exact Hrest.
    rewrite List.map_app, app_assoc. reflexivity.
Qed.

Lemma validTextsOf_shorter (texts : list jsstring) :
  Exists (fun text => isBlank text = true) texts ->
  List.length (validTextsOf texts) < List.length texts.
Proof.
  unfold validTextsOf.
  induction 1 as [t texts Hb | t texts _ IH]; simpl.
  - rewrite Hb. simpl.
    pose proof (List.filter_length_le (fun text => negb (isBlank text)) texts). lia.
  - destruct (negb (isBlank t)); simpl; [lia |].
    pose proof (List.filter_length_le (fun text => negb (isBlank text)) texts). lia.
Qed.

End BatchEmbeddings.

(** C1, the claim as stated fails: for the batch ["a", " ", "bb"], with
    a provider that answers each text by its length, the result has two
    entries for three inputs, and the vector of "bb" (input index 2)
    sits at index 1; index 2 does not exist in the result. *)
Lemma generateEmbeddings_not_realigned :
  let create := fun batch : list jsstring => Ok (List.map (@List.length N) batch) in
  let texts := [u "a"; u " "; u "bb"] in
  Exists (fun text => isBlank text = true) texts
  /\ Exists (fun text => isBlank text = false) texts
  /\ Embeddings.requestsOf texts = [[u "a"; u "bb"]]
  /\ Embeddings.generateEmbeddings nat (Some create) texts = Ok [1; 2]
  /\ List.length [1; 2] <> List.length texts
  /\ nth_error texts 2 = Some (u "bb")
  /\ nth_error [1; 2] 2 = None
  /\ nth_error [1; 2] 1 = Some (List.length (u "bb")).
Proof.
  cbv zeta. repeat split; try reflexivity.
  - apply List.Exists_cons_tl, List.Exists_cons_hd. reflexivity.
  - apply List.Exists_cons_hd. reflexivity.
  - discriminate.
Qed.

(** C1, as amended: for a batch with at least one blank and one
    non-blank entry, and a provider that returns one vector per text of
    a request, blank entries are left out of the provider requests and
    the returned array is compacted: it holds the vectors of the
    non-blank entries only, in input order, so it is shorter than the
    input and the k-th vector belongs to the k-th non-blank text. *)
Theorem generateEmbeddings_compacted
    (Embedding : Type) (embed : jsstring -> Embedding)
    (create : list jsstring -> Result (list Embedding))
    (texts : list jsstring) :
  (forall batch, batch <> [] ->
     List.length batch <= Embeddings.batchSize ->
     Forall (fun text => isBlank text = false) batch ->
     create batch = Ok (List.map embed batch)) ->
  Exists (fun text => isBlank text = true) texts ->
  Exists (fun text => isBlank text = false) texts ->
  concat (Embeddings.requestsOf texts) = Embeddings.validTextsOf texts
  /\ Forall (Forall (fun text => isBlank text = false)) (Embeddings.requestsOf texts)
  /\ Embeddings.generateEmbeddings Embedding (Some create) texts
     = Ok (List.map embed (Embeddings.validTextsOf texts))
  /\ List.length (List.map embed (Embeddings.validTextsOf texts)) < List.length texts.
Proof.
  intros Hcreate Hblank Hvalid.
  assert (Hreq : Forall (Forall (fun text => isBlank text = false))
                   (Embeddings.requestsOf texts)).
  { apply Forall_concat_inv. rewrite requestsOf_concat.
    apply validTextsOf_nonblank. }
  split; [apply requestsOf_concat | split; [exact Hreq | split]].
  - unfold Embeddings.generateEmbeddings.
    destruct texts as [|t texts]; [inversion Hblank |].
    destruct (Embeddings.validTextsOf (t :: texts)) as [|v vs] eqn:Hv.
    + exfalso. apply List.Exists_exists in Hvalid. destruct Hvalid as [x [Hin Hx]].
      assert (Hf : In x (Embeddings.validTextsOf (t :: texts))).
      { unfold Embeddings.validTextsOf. apply List.filter_In. split; [exact Hin |].
        rewrite Hx. reflexivity. }
      rewrite Hv in Hf. destruct Hf.
    + rewrite <- Hv.
      rewrite (embedBatches_ok Embedding create embed).
      * rewrite requestsOf_concat. reflexivity.
      * pose proof (sliceBatches_sizes
                      (List.length (Embeddings.validTextsOf (t :: texts)))
                      Embeddings.batchSize
                      (Embeddings.validTextsOf (t :: texts))) as Hs.
        fold (Embeddings.batchesOf Embeddings.batchSize
                (Embeddings.validTextsOf (t :: texts))) in Hs.
        fold (Embeddings.requestsOf (t :: texts)) in Hs.
        assert (H0 : 0 < Embeddings.batchSize) by (unfold Embeddings.batchSize; lia).
        specialize (Hs H0).
        rewrite List.Forall_forall in Hs, Hreq |- *.
        intros b Hb. destruct (Hs b Hb) as [Hne Hlen].
        apply Hcreate; auto.
  - rewrite List.length_map. apply validTextsOf_shorter. exact Hblank.
Qed.

Lemma generateEmbeddings_compacted_witness :
  let create := fun batch : list jsstring => Ok (List.map (@List.length N) batch) in
  let texts := [u "a"; u " "; u "bb"] in
  concat (Embeddings.requestsOf texts) = Embeddings.validTextsOf texts
  /\ Forall (Forall (fun text => isBlank text = false)) (Embeddings.requestsOf texts)
  /\ Embeddings.generateEmbeddings nat (Some create) texts
     = Ok (List.map (@List.length N) (Embeddings.validTextsOf texts))
  /\ List.length (List.map (@List.length N) (Embeddings.validTextsOf texts))
     < List.length texts.
Proof.
  apply (generateEmbeddings_compacted nat (@List.length N)
           (fun batch => Ok (List.map (@List.length N) batch))
           [u "a"; u " "; u "bb"]).
  - intros batch _ _ _. reflexivity.
  - apply List.Exists_cons_tl, List.Exists_cons_hd. reflexivity.
  - apply List.Exists_cons_hd. reflexivity.
Defined.

(** ** Fixed-window chunking *)

Section ChunkText.

Import Embeddings.

Lemma splitAux_nonempty (s cur : jsstring) (inRun : bool) :
  0 < List.length (splitAux s cur inRun).
Proof.
  revert cur inRun. induction s as [|c s IH]; intros cur inRun; simpl.
  - lia.
  - destruct (isWhiteSpace c); [destruct inRun |]; simpl; auto; lia.
Qed.

(** The window advances by [chunkSize - overlap]: one more loop test
    moves the index by exactly that amount. *)
Lemma chunkTextLoop_step (fuel : nat) words chunkSize overlap i chunks :
  (i < Z.of_nat (List.length words))%Z ->
  chunkTextLoop (S fuel) words chunkSize overlap i chunks
  = chunkTextLoop fuel words chunkSize overlap
      (i + (chunkSize - overlap))%Z (windowAt words chunkSize i chunks).
Proof.
  intros Hi. cbn [chunkTextLoop].
  destruct (Z.ltb_spec i (Z.of_nat (List.length words))); [reflexivity | lia].
Qed.

(** With [overlap >= chunkSize] the index never moves forward, and the
    loop test stays true for ever. *)
Lemma chunkTextLoop_diverges (fuel : nat) words chunkSize overlap i chunks :
  (chunkSize <= overlap)%Z ->
  (i < Z.of_nat (List.length words))%Z ->
  chunkTextLoop fuel words chunkSize overlap i chunks = None.
Proof.
  intros Hov. revert i chunks.
  induction fuel as [|fuel IH]; intros i chunks Hi; [reflexivity |].
  rewrite chunkTextLoop_step by exact Hi. apply IH. lia.
Qed.

(** With [overlap < chunkSize] the loop ends after at most one test per
    word and a last one. *)
Lemma chunkTextLoop_terminates (fuel : nat) words chunkSize overlap i chunks :
  (overlap < chunkSize)%Z ->
  0 < fuel ->
  (Z.of_nat (List.length words) - i < Z.of_nat fuel)%Z ->
  exists result,
    chunkTextLoop fuel words chunkSize overlap i chunks = Some result.
Proof.
  intros Hov. revert i chunks.
  induction fuel as [|fuel IH]; intros i chunks Hpos Hfuel; [lia |].
  cbn [chunkTextLoop].
  destruct (Z.ltb_spec i (Z.of_nat (List.length words))) as [Hi | Hi].
  - apply IH; lia.
  - eexists. reflexivity.
Qed.

Lemma chunkText_diverges (fuel : nat) text chunkSize overlap :
  isBlank text = false ->
  (chunkSize <= overlap)%Z ->
  chunkText fuel text chunkSize overlap = None.
Proof.
  intros Hb Hov. unfold chunkText. rewrite Hb.
  apply chunkTextLoop_diverges; [exact Hov |].
  pose proof (splitAux_nonempty text [] false). unfold splitWhitespace. lia.
Qed.

Lemma chunkText_terminates text chunkSize overlap :
  (overlap < chunkSize)%Z ->
  exists result,
    chunkText (S (List.length (splitWhitespace text))) text chunkSize overlap
    = Some result.
Proof.
  intros Hov. unfold chunkText. destruct (isBlank text).
  - eexists. reflexivity.
  - apply chunkTextLoop_terminates; [exact Hov | lia | lia].
Qed.

Lemma chunkText_blank (fuel : nat) text chunkSize overlap :
  isBlank text = true -> chunkText fuel text chunkSize overlap = Some [].
Proof. intros Hb. unfold chunkText. rewrite Hb. reflexivity. Qed.

End ChunkText.

(** C6, fixed-window part: on the text "a b" with chunk size 2 and
    overlap 2 the loop of [chunkText] is still running after any number
    of loop tests; it neither returns nor reports an error. *)
Theorem chunkText_overlap_equal_size_never_returns :
  forall fuel : nat, Embeddings.chunkText fuel (u "a b") 2 2 = None.
Proof.
  intros fuel. apply chunkText_diverges; [reflexivity | lia].
Qed.

(** ** Sentence chunking *)

Section ChunkBySentences.

Import Embeddings.

Variable maxChunkSize : Z.

Lemma chunkBySentences_blank (text : jsstring) :
  isBlank text = true -> chunkBySentences text maxChunkSize = [].
Proof. intros Hb. unfold chunkBySentences. rewrite Hb. reflexivity. Qed.

Lemma combine_seq_snd {A : Type} (l : list A) (start : nat) :
  List.map snd (List.combine (List.seq start (List.length l)) l) = l.
Proof.
  revert start. induction l as [|x l IH]; intros start; simpl; [reflexivity |].
  rewrite IH. reflexivity.
Qed.

(** Numbering keeps the chunk texts and their order. *)
Lemma numbered_texts (chunks : list jsstring) :
  List.map SentenceChunk.text (numbered chunks) = chunks.
Proof.
  unfold numbered. rewrite List.map_map. simpl.
  apply combine_seq_snd.
Qed.

(** *** Size bound *)

Local Abbreviation bounded := (withinBound maxChunkSize).

Lemma pushChunk_bounded all chunks cur :
  Forall (bounded all) chunks -> cur = [] \/ bounded all cur ->
  Forall (bounded all) (pushChunk chunks cur).
Proof.
  intros Hc Hcur. unfold pushChunk. destruct cur as [|x cur]; [exact Hc |].
  apply List.Forall_app. split; [exact Hc |].
  constructor; [| constructor]. destruct Hcur as [H | H]; [discriminate | exact H].
Qed.

Lemma sentenceLoop_bounded all sentences (st0 : list jsstring * jsstring) :
  incl sentences all ->
  Forall (bounded all) (fst st0) -> snd st0 = [] \/ bounded all (snd st0) ->
  let st := List.fold_left (sentenceStep maxChunkSize) sentences st0 in
  Forall (bounded all) (fst st) /\ (snd st = [] \/ bounded all (snd st)).
Proof.
  revert st0.
  induction sentences as [|s sentences IH]; intros [chunks cur] Hincl Hc Hcur;
    cbn [fst snd] in Hc, Hcur.
  - simpl. auto.
  - cbn [List.fold_left]. apply IH.
    + intros x Hx. apply Hincl. right. exact Hx.
    + unfold sentenceStep. cbn [fst snd].
      destruct (Z.leb_spec
                  (Z.of_nat (List.length (cur ++ u " " ++ trim s))) maxChunkSize);
        cbn [fst]; [exact Hc | apply pushChunk_bounded; assumption].
    + unfold sentenceStep. cbn [fst snd].
      destruct (Z.leb_spec
                  (Z.of_nat (List.length (cur ++ u " " ++ trim s))) maxChunkSize)
        as [Hfit | Hover]; cbn [snd].
      * right. left.
        rewrite !List.length_app in Hfit |- *.
        destruct cur; simpl in Hfit |- *; lia.
      * destruct (Z.leb_spec (Z.of_nat (List.length (trim s))) maxChunkSize)
          as [Hle | Hgt].
        -- right. left. exact Hle.
        -- right. right. exists s. split; [apply Hincl; left; reflexivity |].
           split; [reflexivity | exact Hgt].
Qed.

Lemma sentenceChunks_bounded (sentences : list jsstring) :
  Forall (bounded sentences) (sentenceChunks sentences maxChunkSize).
Proof.
  unfold sentenceChunks.
  destruct (sentenceLoop_bounded sentences sentences ([], []))
    as [H1 H2]; cbn [fst snd]; auto using incl_refl.
  apply pushChunk_bounded; assumption.
Qed.

(** *** Whole sentences *)

Lemma join_snoc (sep : jsstring) (g : list jsstring) (t : jsstring) :
  join sep (g ++ [t])
  = match g with
    | [] => t
    | _ :: _ => join sep g ++ sep ++ t
    end.
Proof.
  induction g as [|a g IH]; [reflexivity |].
  destruct g as [|b g]; [reflexivity |].
  change (join sep ((a :: b :: g) ++ [t]))
    with (a ++ sep ++ join sep ((b :: g) ++ [t])).
  rewrite IH.
  change (join sep (a :: b :: g)) with (a ++ sep ++ join sep (b :: g)).
  rewrite <- !app_assoc. reflexivity.
Qed.

Lemma join_nil (sep : jsstring) (g : list jsstring) :
  Forall (fun p => p <> []) g -> join sep g = [] -> g = [].
Proof.
  intros Hg Hj. destruct g as [|a g]; [reflexivity |].
  inversion Hg as [|? ? Ha _]; subst. exfalso.
  destruct g as [|b g]; simpl in Hj.
  - contradiction.
  - destruct a; [contradiction | discriminate].
Qed.

(** The loop invariant: the pushed chunks and the current chunk are the
    joins of consecutive groups of the trimmed sentences seen so far. *)
Lemma sentenceLoop_groups sentences processed
    (st0 : list jsstring * jsstring) groups g :
  Forall (fun s => trim s <> []) (processed ++ sentences) ->
  fst st0 = List.map (join (u " ")) groups ->
  snd st0 = join (u " ") g ->
  concat groups ++ g = List.map trim processed ->
  Forall (fun gr => gr <> []) groups ->
  let st := List.fold_left (sentenceStep maxChunkSize) sentences st0 in
  exists groups' g',
    fst st = List.map (join (u " ")) groups'
    /\ snd st = join (u " ") g'
    /\ concat groups' ++ g' = List.map trim (processed ++ sentences)
    /\ Forall (fun gr => gr <> []) groups'.
Proof.
  revert processed st0 groups g.
  induction sentences as [|s sentences IH];
    intros processed [chunks cur] groups g Hne Hchunks Hcur Hcat Hgroups;
    cbn [fst snd] in Hchunks, Hcur.
  - simpl. exists groups, g. rewrite app_nil_r. auto.
  - cbn [List.fold_left].
    assert (Hg : Forall (fun p => p <> []) g).
    { apply List.Forall_forall. intros p Hp.
      assert (Hin : In p (List.map trim processed)).
      { rewrite <- Hcat. apply in_or_app. right. exact Hp. }
      apply List.in_map_iff in Hin. destruct Hin as [s0 [<- Hs0]].
      rewrite List.Forall_forall in Hne. apply Hne.
      apply in_or_app. left. exact Hs0. }
    replace (processed ++ s :: sentences) with ((processed ++ [s]) ++ sentences)
      in Hne |- * by (rewrite <- app_assoc; reflexivity).
    set (st1 := sentenceStep maxChunkSize (chunks, cur) s).
    assert (Hstep : exists groups1 g1,
               fst st1 = List.map (join (u " ")) groups1
               /\ snd st1 = join (u " ") g1
               /\ concat groups1 ++ g1 = List.map trim (processed ++ [s])
               /\ Forall (fun gr => gr <> []) groups1).
    { unfold st1, sentenceStep. cbn [fst snd].
      destruct (Z.leb_spec
                  (Z.of_nat (List.length (cur ++ u " " ++ trim s))) maxChunkSize);
        cbn [fst snd].
      - exists groups, (g ++ [trim s]). repeat split; auto.
        + rewrite join_snoc. subst cur. destruct g as [|a g']; [reflexivity |].
          destruct (join (u " ") (a :: g')) eqn:Hj; [| reflexivity].
          apply join_nil in Hj; [discriminate | exact Hg].
        + rewrite app_assoc, Hcat, List.map_app. reflexivity.
      - destruct cur as [|x cur'] eqn:Hcur'.
        + assert (g = []) by (apply (join_nil (u " ")); auto). subst g.
          exists groups, [trim s]. repeat split; auto.
          rewrite app_nil_r in Hcat. rewrite Hcat, List.map_app. reflexivity.
        + exists (groups ++ [g]), [trim s]. repeat split.
          * unfold pushChunk. rewrite List.map_app, Hchunks, Hcur. reflexivity.
          * rewrite concat_app. simpl. rewrite app_nil_r, Hcat, List.map_app.
            reflexivity.
          * apply List.Forall_app. split; [exact Hgroups |].
            constructor; [| constructor]. intros ->. discriminate. }
    destruct Hstep as (groups1 & g1 & H1 & H2 & H3 & H4).
    apply (IH (processed ++ [s]) st1 groups1 g1); auto.
Qed.

Lemma sentenceChunks_groups (sentences : list jsstring) :
  Forall (fun s => trim s <> []) sentences ->
  exists groups,
    sentenceChunks sentences maxChunkSize = List.map (join (u " ")) groups
    /\ concat groups = List.map trim sentences
    /\ Forall (fun gr => gr <> []) groups.
Proof.
  intros Hne. unfold sentenceChunks.
  destruct (sentenceLoop_groups sentences [] ([], []) [] []) as
    (groups & g & Hfst & Hsnd & Hcat & Hgr); auto.
  simpl in Hcat.
  set (st := List.fold_left (sentenceStep maxChunkSize) sentences ([], [])) in *.
  assert (Hg : Forall (fun p => p <> []) g).
  { apply List.Forall_forall. intros p Hp.
    assert (Hin : In p (List.map trim sentences)).
    { rewrite <- Hcat. apply in_or_app. right. exact Hp. }
    apply List.in_map_iff in Hin. destruct Hin as [s0 [<- Hs0]].
    rewrite List.Forall_forall in Hne. apply Hne. exact Hs0. }
  unfold pushChunk. destruct (snd st) as [|x cur] eqn:Hcur.
  - symmetry in Hsnd. apply join_nil in Hsnd; [| exact Hg]. subst g.
    exists groups. rewrite app_nil_r in Hcat. auto.
  - exists (groups ++ [g]). repeat split.
    + rewrite List.map_app, Hfst, Hsnd. reflexivity.
    + rewrite concat_app. simpl. rewrite app_nil_r. exact Hcat.
    + apply List.Forall_app. split; [exact Hgr |].
      constructor; [| constructor]. intros ->. discriminate.
Qed.

End ChunkBySentences.

(** ** Sentences are never blank *)

Section Sentences.

Import Embeddings.

Lemma terminator_not_whitespace (c : N) :
  isTerminator c = true -> isWhiteSpace c = false.
Proof.
  unfold isTerminator. rewrite !orb_true_iff, !N.eqb_eq.
  intros [[-> | ->] | ->]; reflexivity.
Qed.

Lemma trimStart_keeps (s : jsstring) :
  Exists (fun c => isWhiteSpace c = false) s ->
  Exists (fun c => isWhiteSpace c = false) (trimStart s).
Proof.
  induction s as [|c s IH]; intros H; [exact H |].
  simpl. destruct (isWhiteSpace c) eqn:Hc; [| exact H].
  inversion H as [? ? Hhd | ? ? Htl]; subst; [congruence | auto].
Qed.

Lemma Exists_rev_intro {A : Type} (P : A -> Prop) (l : list A) :
  Exists P l -> Exists P (rev l).
Proof.
  rewrite !List.Exists_exists. intros [x [Hin Hx]]. exists x.
  split; [apply in_rev; rewrite rev_involutive; exact Hin | exact Hx].
Qed.

Lemma trim_nonblank (s : jsstring) :
  Exists (fun c => isWhiteSpace c = false) s -> trim s <> [].
Proof.
  intros H. unfold trim, trimEnd.
  apply trimStart_keeps, Exists_rev_intro, trimStart_keeps, Exists_rev_intro in H.
  intros E. rewrite E in H. inversion H.
Qed.

(** Every match of the sentence pattern ends in a terminator. *)
Lemma matchSentences_terminated (s : jsstring) (ph : Phase) (cur : jsstring) :
  (ph = Tail -> Exists (fun c => isTerminator c = true) cur) ->
  Forall (Exists (fun c => isTerminator c = true)) (matchSentences ph cur s).
Proof.
  revert ph cur. induction s as [|c s IH]; intros ph cur Hcur.
  - destruct ph; simpl; auto.
  - destruct ph; simpl; destruct (isTerminator c) eqn:Hc.
    + apply IH. discriminate.
    + apply IH. discriminate.
    + apply IH. intros _. apply List.Exists_app. right. constructor. exact Hc.
    + apply IH. discriminate.
    + apply IH. intros _. apply List.Exists_app. left. auto.
    + constructor; [auto | apply IH; discriminate].
Qed.

Lemma sentencesOf_nonblank (text : jsstring) :
  isBlank text = false ->
  Forall (fun s => trim s <> []) (sentencesOf text).
Proof.
  intros Hb. unfold sentencesOf.
  pose proof (matchSentences_terminated text Skip []) as Hm.
  destruct (matchSentences Skip [] text) as [|m ms].
  - constructor; [| constructor]. unfold isBlank in Hb.
    destruct (trim text); [discriminate | discriminate].
  - eapply List.Forall_impl; [| apply Hm; discriminate].
    intros s Hs. apply trim_nonblank.
    apply List.Exists_exists in Hs. destruct Hs as [c [Hin Hc]].
    apply List.Exists_exists. exists c. split; [exact Hin |].
    apply terminator_not_whitespace. exact Hc.
Qed.

End Sentences.

(** C6, sentence part: blank input gives no chunk; every chunk is within
    the bound or is one trimmed sentence on its own; and the chunk texts
    are the joins, with one space, of consecutive groups of whole
    trimmed sentences, in order and without loss. *)
Theorem chunkBySentences_whole_and_bounded (text : jsstring) (maxChunkSize : Z) :
  (isBlank text = true -> Embeddings.chunkBySentences text maxChunkSize = [])
  /\ (forall c, In c (Embeddings.chunkBySentences text maxChunkSize) ->
        Embeddings.withinBound maxChunkSize (Embeddings.sentencesOf text)
          (Embeddings.SentenceChunk.text c))
  /\ (isBlank text = false ->
      exists groups,
        List.map Embeddings.SentenceChunk.text
          (Embeddings.chunkBySentences text maxChunkSize)
        = List.map (join (u " ")) groups
        /\ concat groups = List.map trim (Embeddings.sentencesOf text)
        /\ Forall (fun gr => gr <> []) groups).
Proof.
  split; [apply chunkBySentences_blank | split].
  - intros c Hc. unfold Embeddings.chunkBySentences in Hc.
    destruct (isBlank text); [destruct Hc |].
    pose proof (sentenceChunks_bounded maxChunkSize (Embeddings.sentencesOf text)) as Hb.
    rewrite List.Forall_forall in Hb. apply Hb.
    rewrite <- (numbered_texts
                  (Embeddings.sentenceChunks (Embeddings.sentencesOf text) maxChunkSize)).
    apply List.in_map. exact Hc.
  - intros Hb. unfold Embeddings.chunkBySentences. rewrite Hb.
    rewrite numbered_texts.
    apply sentenceChunks_groups, sentencesOf_nonblank. exact Hb.
Qed.

(** ** Conversation history *)

Section Conversation.

Import Orchestrator.

Variable systemPrompt : jsstring.
Variable toLowerCase : jsstring -> jsstring.
Variable gatherContext : Intent -> jsstring -> list ToolResult.
Variable generateResponse : list Message -> jsstring -> Intent -> Result jsstring.
Variable isOpen : bool.

Local Abbreviation turn :=
  (processCall systemPrompt toLowerCase gatherContext generateResponse isOpen).

(** The history that a turn starts from: the stored one, or a fresh one
    that holds the system prompt. *)
Lemma processCall_start (callId : jsstring) (h : gmap (list N) (list Message)) :
  default [] (match h !! callId with
              | Some _ => h
              | None => <[callId := [mkMessage "system" systemPrompt]]> h
              end !! callId)
  = default [mkMessage "system" systemPrompt] (h !! callId).
Proof.
  destruct (h !! callId) as [messages |] eqn:Hl.
  - rewrite Hl. reflexivity.
  - rewrite lookup_insert_eq. reflexivity.
Qed.

(** A turn, completed or not, leaves every other call's history as it
    was. *)
Lemma processCall_other (callId userInput other : jsstring)
    (h : gmap (list N) (list Message)) :
  other <> callId ->
  fst (turn callId userInput h) !! other = h !! other.
Proof.
  intros Hne. unfold processCall.
  destruct (generateResponse _ _ _); cbn [fst];
    rewrite ?lookup_insert_ne by congruence;
    destruct (h !! callId); rewrite ?lookup_insert_ne by congruence; reflexivity.
Qed.

(** A completed turn appends the user message and the assistant reply,
    and nothing else, to the history of its call. *)
Lemma processCall_completed (callId userInput : jsstring)
    (h : gmap (list N) (list Message)) (result : Turn.t) :
  snd (turn callId userInput h) = Ok result ->
  fst (turn callId userInput h) !! callId
  = Some (default [mkMessage "system" systemPrompt] (h !! callId)
          ++ [mkMessage "user" userInput;
              mkMessage "assistant" (Turn.response result)]).
Proof.
  unfold processCall. rewrite processCall_start.
  destruct (generateResponse _ _ _) as [reply | msg]; cbn [fst snd];
    [| discriminate].
  intros [= <-]. cbn [Turn.response].
  rewrite lookup_insert_eq, <- app_assoc. reflexivity.
Qed.

(** A turn whose language-model call throws leaves the user message in
    the history without a reply. *)
Lemma processCall_failed (callId userInput : jsstring)
    (h : gmap (list N) (list Message)) (msg : string) :
  snd (turn callId userInput h) = Throw msg ->
  fst (turn callId userInput h) !! callId
  = Some (default [mkMessage "system" systemPrompt] (h !! callId)
          ++ [mkMessage "user" userInput]).
Proof.
  unfold processCall. rewrite processCall_start.
  destruct (generateResponse _ _ _) as [reply | msg']; cbn [fst snd];
    [discriminate |].
  intros _. rewrite lookup_insert_eq. reflexivity.
Qed.

End Conversation.

(** Against C9 as it is written: a turn whose response generation
    throws appends the user message and no assistant message. On a new
    call with a model that throws, the history afterwards is the system
    prompt and the user message. *)
Lemma processCall_failed_turn_appends_no_reply :
  let r := Orchestrator.processCall (u "prompt") toLowerCase_ascii
             (fun _ _ => []) (fun _ _ _ => Throw "timeout") true
             (u "call-1") (u "hello") ∅ in
  snd r = Throw "timeout"
  /\ fst r !! u "call-1"
     = Some [Orchestrator.mkMessage "system" (u "prompt");
             Orchestrator.mkMessage "user" (u "hello")]
  /\ List.filter (fun m => String.eqb (Orchestrator.role m) "assistant")
       (default [] (fst r !! u "call-1")) = [].
Proof. vm_compute. repeat split. Qed.

(** C9, amended: the histories are keyed by call id and do not leak. A
    turn starts from the stored history of its call or, on the first
    turn, from a fresh one that holds the system prompt; it hands this
    history with the user message appended to the response generation.
    When the generation returns, the turn returns its reply and the
    history of the call is the one handed over followed by the reply as
    assistant message; when it throws, the turn rethrows and the history
    of the call is the one handed over, the user message without a
    reply. In both cases the history of every other call id is what it
    was; and [clearHistory] removes the history of its call id and no
    other. *)
Theorem conversation_state_isolated
    (systemPrompt : jsstring) (toLowerCase : jsstring -> jsstring)
    (gatherContext : Orchestrator.Intent -> jsstring -> list Orchestrator.ToolResult)
    (generateResponse :
       list Orchestrator.Message -> jsstring -> Orchestrator.Intent -> Result jsstring)
    (isOpen : bool)
    (h : gmap (list N) (list Orchestrator.Message)) (callId userInput : jsstring) :
  let r := Orchestrator.processCall systemPrompt toLowerCase gatherContext
             generateResponse isOpen callId userInput h in
  let before :=
    match h !! callId with
    | Some messages => messages
    | None => [Orchestrator.mkMessage "system" systemPrompt]
    end in
  let handed := before ++ [Orchestrator.mkMessage "user" userInput] in
  let intent := Orchestrator.detectIntent toLowerCase userInput in
  let prompt :=
    Orchestrator.enhancedPromptOf isOpen userInput (gatherContext intent userInput) in
  (forall other : jsstring, other <> callId -> fst r !! other = h !! other)
  /\ match generateResponse handed prompt intent with
     | Ok reply =>
         fst r !! callId
         = Some (handed ++ [Orchestrator.mkMessage "assistant" reply])
         /\ exists result,
              snd r = Ok result /\ Orchestrator.Turn.response result = reply
     | Throw msg =>
         fst r !! callId = Some handed /\ snd r = Throw msg
     end
  /\ Orchestrator.clearHistory callId h !! callId = None
  /\ (forall other : jsstring, other <> callId ->
        Orchestrator.clearHistory callId h !! other = h !! other).
Proof.
  intros r before handed intent prompt. split; [| split; [| split]].
  - intros other Hne. apply processCall_other. exact Hne.
  - assert (Hbefore :
      before = default [Orchestrator.mkMessage "system" systemPrompt] (h !! callId)).
    { unfold before. destruct (h !! callId); reflexivity. }
    subst r. unfold Orchestrator.processCall. rewrite processCall_start.
    cbv zeta. rewrite <- Hbefore. fold handed. fold intent. fold prompt.
    destruct (generateResponse handed prompt intent) as [reply | msg];
      cbn [fst snd].
    + split; [apply lookup_insert_eq |].
      eexists. split; reflexivity.
    + split; [apply lookup_insert_eq | reflexivity].
  - apply lookup_delete_eq.
  - intros other Hne. apply lookup_delete_ne. congruence.
Qed.

(** Two calls in turn, with a model that always answers "ok": each call
    keeps its own history, and clearing the first leaves the second. *)
Example processCall_two_calls :
  let step := Orchestrator.processCall (u "prompt") toLowerCase_ascii
                (fun _ _ => []) (fun _ _ _ => Ok (u "ok")) true in
  let h1 := fst (step (u "call-1") (u "hello") ∅) in
  let h2 := fst (step (u "call-2") (u "agent please") h1) in
  let h3 := fst (step (u "call-1") (u "bye") h2) in
  h3 !! u "call-1"
  = Some [Orchestrator.mkMessage "system" (u "prompt");
          Orchestrator.mkMessage "user" (u "hello");
          Orchestrator.mkMessage "assistant" (u "ok");
          Orchestrator.mkMessage "user" (u "bye");
          Orchestrator.mkMessage "assistant" (u "ok")]
  /\ h3 !! u "call-2"
     = Some [Orchestrator.mkMessage "system" (u "prompt");
             Orchestrator.mkMessage "user" (u "agent please");
             Orchestrator.mkMessage "assistant" (u "ok")]
  /\ Orchestrator.clearHistory (u "call-1") h3 !! u "call-1" = None
  /\ Orchestrator.clearHistory (u "call-1") h3 !! u "call-2" = h3 !! u "call-2".
Proof. vm_compute. repeat split. Qed.

(** ** Lists *)

Lemma firstn_incl {A : Type} (n : nat) (l : list A) (x : A) :
  In x (firstn n l) -> In x l.
Proof.
  revert l. induction n as [|n IH]; intros [|y l]; simpl; try tauto.
  intros [H | H]; auto.
Qed.

Lemma firstn_StronglySorted {A : Type} (R : A -> A -> Prop) (n : nat) (l : list A) :
  StronglySorted R l -> StronglySorted R (firstn n l).
Proof.
  intros Hs. revert n.
  induction Hs as [|a l Hs IH Hall]; intros [|n]; simpl; try constructor.
  - apply IH.
  - rewrite List.Forall_forall in Hall |- *. intros x Hx. apply Hall.
    eapply firstn_incl. exact Hx.
Qed.

Lemma map_StronglySorted {A B : Type} (f : A -> B) (R : B -> B -> Prop) (l : list A) :
  StronglySorted (fun a b => R (f a) (f b)) l -> StronglySorted R (List.map f l).
Proof.
  induction 1 as [|a l Hs IH Hall]; simpl; constructor; [exact IH |].
  rewrite List.Forall_forall in Hall |- *. intros y Hy.
  apply List.in_map_iff in Hy. destruct Hy as [x [<- Hx]]. auto.
Qed.

(** ** Similarity search *)

Section Float8Order.

Import VectorStore.

Lemma pgLe_refl (a : Float8) : pgLe a a = true.
Proof. destruct a as [|x]; [reflexivity |]. apply Qle_bool_iff, Qle_refl. Qed.

Lemma pgLe_trans (a b c : Float8) :
  pgLe a b = true -> pgLe b c = true -> pgLe a c = true.
Proof.
  destruct a as [|x], b as [|y], c as [|z]; simpl; try congruence.
  rewrite !Qle_bool_iff. apply Qle_trans.
Qed.

Lemma pgLe_total (a b : Float8) : pgLe a b = false -> pgLe b a = true.
Proof.
  destruct a as [|x], b as [|y]; simpl; try congruence.
  intros Hf. apply Qle_bool_iff, Qlt_le_weak, Qnot_le_lt.
  intros Hc. apply Qle_bool_iff in Hc. congruence.
Qed.

(** Above a number in the order of the database: NaN, or a number that
    is at least as large. *)
Lemma pgLe_Number (t : Q) (s : Float8) :
  pgLe (Number t) s = true
  <-> s = NaN \/ exists q, s = Number q /\ (t <= q)%Q.
Proof.
  destruct s as [|q]; simpl.
  - split; auto.
  - rewrite Qle_bool_iff. split.
    + intros H. right. exists q. auto.
    + intros [H | (q' & [= <-] & H)]; [discriminate | exact H].
Qed.

(** Nothing but NaN is above NaN. *)
Lemma pgLe_NaN (s : Float8) : pgLe NaN s = true -> s = NaN.
Proof. destruct s; [reflexivity | discriminate]. Qed.

End Float8Order.

Section SearchSimilar.

Import VectorStore.

Variable cosineDistance : Vector -> Vector -> Float8.
Variable queryEmbedding : Vector.

Local Abbreviation sim := (similarityOf cosineDistance queryEmbedding).

(** Descending order on the rows, as the database orders [float8]. *)
Local Abbreviation desc :=
  (fun a b : ChunkRow.t * Document.t => pgLe (sim b) (sim a) = true).

Lemma insertDesc_In row rows x :
  In x (insertDesc cosineDistance queryEmbedding row rows) <-> x = row \/ In x rows.
Proof.
  induction rows as [|r rows IH]; simpl.
  - split; intros [H | H]; auto.
  - destruct (pgLe (sim row) (sim r)); simpl; intuition (subst; auto).
Qed.

Lemma insertDesc_length row rows :
  List.length (insertDesc cosineDistance queryEmbedding row rows)
  = S (List.length rows).
Proof.
  induction rows as [|r rows IH]; simpl; [reflexivity |].
  destruct (pgLe (sim row) (sim r)); simpl; [rewrite IH |]; reflexivity.
Qed.

Lemma insertDesc_HdRel a row rows :
  HdRel desc a rows -> pgLe (sim row) (sim a) = true ->
  HdRel desc a (insertDesc cosineDistance queryEmbedding row rows).
Proof.
  intros Hhd Hrow. destruct rows as [|r rows]; simpl.
  - constructor. exact Hrow.
  - destruct (pgLe (sim row) (sim r)); constructor;
      [inversion Hhd; assumption | exact Hrow].
Qed.

Lemma insertDesc_Sorted row rows :
  Sorted desc rows -> Sorted desc (insertDesc cosineDistance queryEmbedding row rows).
Proof.
  induction 1 as [|r rows Hs IH Hhd]; simpl.
  - repeat constructor.
  - destruct (pgLe (sim row) (sim r)) eqn:Hle.
    + constructor; [exact IH |].
      apply insertDesc_HdRel; [exact Hhd | exact Hle].
    + constructor; [constructor; assumption |]. constructor.
      apply pgLe_total. exact Hle.
Qed.

Lemma orderBySimilarityDesc_In rows x :
  In x (orderBySimilarityDesc cosineDistance queryEmbedding rows) <-> In x rows.
Proof.
  induction rows as [|r rows IH]; simpl; [tauto |].
  rewrite insertDesc_In, IH. split; intros [H | H]; auto.
Qed.

Lemma orderBySimilarityDesc_length rows :
  List.length (orderBySimilarityDesc cosineDistance queryEmbedding rows)
  = List.length rows.
Proof.
  induction rows as [|r rows IH]; simpl; [reflexivity |].
  rewrite insertDesc_length, IH. reflexivity.
Qed.

Lemma orderBySimilarityDesc_Sorted rows :
  StronglySorted desc (orderBySimilarityDesc cosineDistance queryEmbedding rows).
Proof.
  apply Sorted_StronglySorted.
  - intros a b c Hab Hbc. eapply pgLe_trans; eassumption.
  - induction rows as [|r rows IH]; simpl; [constructor |].
    apply insertDesc_Sorted. exact IH.
Qed.

Lemma columnMatches_Some column wanted :
  columnMatches column (Some wanted) = true -> column = Some wanted.
Proof.
  unfold columnMatches. destruct column as [value |]; [| discriminate].
  intros H. apply bool_decide_eq_true in H. congruence.
Qed.

Variable configTopK : nat.
Variable configThreshold : Q.
Variable documents : list Document.t.
Variable document_chunks : list ChunkRow.t.
Variable options : SearchOptions.t.

(** Every returned row is a row of the join that passed the WHERE
    clause. *)
Lemma searchRows_where row :
  In row (searchRows cosineDistance configTopK configThreshold documents
            document_chunks queryEmbedding options) ->
  In row (joined documents document_chunks)
  /\ whereClause cosineDistance configThreshold queryEmbedding options row = true.
Proof.
  unfold searchRows. intros H.
  apply firstn_incl, orderBySimilarityDesc_In, List.filter_In in H. exact H.
Qed.

End SearchSimilar.

(** C4 does not hold of the code at a vector of norm zero. With the
    query [3, 4], a threshold of 7/10 and three public chunks, the chunk
    whose embedding is [0, 0] has the similarity NaN: it passes the
    WHERE clause, is ordered first, and is returned with a similarity
    that does not reach the threshold, ahead of the chunk of similarity
    1; the chunk of similarity 0 is left out. With the query [0, 0]
    every chunk has the similarity NaN and all three are returned. *)
Theorem searchSimilar_zero_vector_row_is_returned :
  let documents :=
    [VectorStore.Document.mk 1 (u "Hours") (u "drive") (Some (u "faq")) None
       (Some (u "public"))] in
  let chunks :=
    [VectorStore.ChunkRow.mk 10 1 0 (u "a") [3; 4]%Q (u "{}");
     VectorStore.ChunkRow.mk 11 1 1 (u "b") [0; 0]%Q (u "{}");
     VectorStore.ChunkRow.mk 12 1 2 (u "c") [4; -3]%Q (u "{}")] in
  let search := fun queryEmbedding =>
    VectorStore.searchSimilar (VectorStore.pgvectorCosineDistance sqrtFloor)
      5 (5 # 10) documents chunks queryEmbedding
      (VectorStore.SearchOptions.mk (Some 5) (Some (7 # 10)) Undefined Undefined
         Undefined) in
  List.map VectorStore.Hit.id (search [3; 4]%Q) = [11; 10]
  /\ List.map VectorStore.Hit.similarity (search [3; 4]%Q)
     = [VectorStore.NaN; VectorStore.Number 1]
  /\ List.map (fun hit => VectorStore.reaches (VectorStore.Hit.similarity hit) (7 # 10))
       (search [3; 4]%Q)
     = [false; true]
  /\ List.map VectorStore.Hit.similarity (search [0; 0]%Q)
     = [VectorStore.NaN; VectorStore.NaN; VectorStore.NaN].
Proof. vm_compute. repeat split. Qed.

(** A store of two documents and four chunks: the public threshold
    search returns the two public chunks that are similar enough, best
    first. *)
Example searchSimilar_ex :
  let distance := fun (v _ : VectorStore.Vector) =>
                    match v with
                    | d :: _ => VectorStore.Number d
                    | [] => VectorStore.Number 1
                    end in
  let documents :=
    [VectorStore.Document.mk 1 (u "Hours") (u "drive") (Some (u "faq")) None
       (Some (u "public"));
     VectorStore.Document.mk 2 (u "Salaries") (u "drive") (Some (u "hr")) None
       (Some (u "confidential"))] in
  let chunks :=
    [VectorStore.ChunkRow.mk 10 1 0 (u "a") [2 # 10] (u "{}");
     VectorStore.ChunkRow.mk 11 1 1 (u "b") [1 # 10] (u "{}");
     VectorStore.ChunkRow.mk 12 1 2 (u "c") [6 # 10] (u "{}");
     VectorStore.ChunkRow.mk 13 2 0 (u "d") [0 # 10] (u "{}")] in
  List.map VectorStore.Hit.id
    (VectorStore.searchSimilar distance 5 (7 # 10) documents chunks []
       (VectorStore.SearchOptions.mk None None Undefined Undefined Undefined))
  = [11; 10].
Proof. reflexivity. Qed.

(** ** Batch insert *)

Section InsertChunks.

Import VectorStore.

Variable accepts : list ChunkRow.t -> ChunkRow.t -> bool.
Variable freshId : list ChunkRow.t -> nat.

(** Inside a transaction the loop either inserts every row into the
    working copy or stops with an error; the committed table is not
    written either way. *)
Lemma insertLoop_in_transaction chunks table working insertedIds :
  match rowsOfBatch accepts freshId working chunks with
  | Some rows =>
      insertLoop accepts freshId chunks
        (Client.mk table (InTransaction working)) insertedIds
      = (Client.mk table (InTransaction (working ++ rows)),
         Ok (insertedIds ++ List.map ChunkRow.id rows))
  | None =>
      exists client' msg,
        insertLoop accepts freshId chunks
          (Client.mk table (InTransaction working)) insertedIds
        = (client', Throw msg)
        /\ Client.table client' = table
  end.
Proof.
  revert working insertedIds.
  induction chunks as [|chunk chunks IH]; intros working insertedIds.
  - simpl. rewrite !app_nil_r. reflexivity.
  - cbn [rowsOfBatch insertLoop].
    destruct (Chunk.embedding chunk) as [embedding |].
    + unfold queryInsert. cbn [Client.tx Client.table].
      destruct (accepts working (rowOf freshId working chunk embedding)) eqn:Hacc.
      * specialize (IH (working ++ [rowOf freshId working chunk embedding])
                      (insertedIds ++ [ChunkRow.id (rowOf freshId working chunk embedding)])).
        destruct (rowsOfBatch accepts freshId
                    (working ++ [rowOf freshId working chunk embedding]) chunks)
          as [rows |]; cbn [option_map].
        -- rewrite IH. cbn [List.map]. rewrite <- !app_assoc. reflexivity.
        -- exact IH.
      * eexists _, _. split; reflexivity.
    + eexists _, _. split; reflexivity.
Qed.

Lemma rowsOfBatch_rows visible chunks rows :
  rowsOfBatch accepts freshId visible chunks = Some rows ->
  List.length rows = List.length chunks
  /\ List.map ChunkRow.content rows = List.map Chunk.content chunks
  /\ List.map ChunkRow.document_id rows = List.map Chunk.documentId chunks
  /\ List.map ChunkRow.chunk_index rows = List.map Chunk.chunkIndex chunks
  /\ Forall (fun chunk => Chunk.embedding chunk <> None) chunks.
Proof.
  revert visible rows.
  induction chunks as [|chunk chunks IH]; intros visible rows; cbn [rowsOfBatch].
  - intros [= <-]. repeat split. constructor.
  - destruct (Chunk.embedding chunk) as [embedding |] eqn:He; [| discriminate].
    destruct (accepts visible (rowOf freshId visible chunk embedding));
      [| discriminate].
    destruct (rowsOfBatch accepts freshId
                (visible ++ [rowOf freshId visible chunk embedding]) chunks)
      as [rest |] eqn:Hrest; [| discriminate].
    cbn [option_map]. intros [= <-].
    destruct (IH _ _ Hrest) as (H1 & H2 & H3 & H4 & H5).
    cbn [List.length List.map rowOf ChunkRow.content ChunkRow.document_id
           ChunkRow.chunk_index].
    rewrite H1, H2, H3, H4. repeat split.
    constructor; [congruence | exact H5].
Qed.

(** An item without embedding anywhere in the batch makes the batch
    fail. *)
Lemma rowsOfBatch_malformed visible chunks :
  Exists (fun chunk => Chunk.embedding chunk = None) chunks ->
  rowsOfBatch accepts freshId visible chunks = None.
Proof.
  intros Hex. destruct (rowsOfBatch accepts freshId visible chunks) as [rows |] eqn:Hr;
    [| reflexivity].
  apply rowsOfBatch_rows in Hr. destruct Hr as (_ & _ & _ & _ & Hall).
  apply List.Exists_exists in Hex. destruct Hex as [chunk [Hin Hnone]].
  rewrite List.Forall_forall in Hall. exfalso. exact (Hall chunk Hin Hnone).
Qed.

End InsertChunks.

(** C5: on a client taken idle from the pool, [insertChunks] is all or
    nothing. If every item inserts, the committed table gains one row
    per item, in order, and the ids are returned; if any item fails
    (a missing embedding, or a row that the database rejects) the
    committed table is what it was before and the error is rethrown.
    The client is left outside any transaction in both cases. *)
Theorem insertChunks_atomic
    (accepts : list VectorStore.ChunkRow.t -> VectorStore.ChunkRow.t -> bool)
    (freshId : list VectorStore.ChunkRow.t -> nat)
    (chunks : list VectorStore.Chunk.t) (client : VectorStore.Client.t) :
  VectorStore.Client.tx client = VectorStore.Idle ->
  let r := VectorStore.insertChunks accepts freshId chunks client in
  VectorStore.Client.tx (fst r) = VectorStore.Idle
  /\ match VectorStore.rowsOfBatch accepts freshId
             (VectorStore.Client.table client) chunks with
     | Some rows =>
         VectorStore.Client.table (fst r) = VectorStore.Client.table client ++ rows
         /\ snd r = Ok (List.map VectorStore.ChunkRow.id rows)
         /\ List.length rows = List.length chunks
         /\ List.map VectorStore.ChunkRow.content rows
            = List.map VectorStore.Chunk.content chunks
     | None =>
         VectorStore.Client.table (fst r) = VectorStore.Client.table client
         /\ exists msg, snd r = Throw msg
     end
  /\ (Exists (fun chunk => VectorStore.Chunk.embedding chunk = None) chunks ->
      VectorStore.Client.table (fst r) = VectorStore.Client.table client
      /\ exists msg, snd r = Throw msg).
Proof.
  intros Hidle r.
  assert (Hmain :
    VectorStore.Client.tx (fst r) = VectorStore.Idle
    /\ match VectorStore.rowsOfBatch accepts freshId
               (VectorStore.Client.table client) chunks with
       | Some rows =>
           VectorStore.Client.table (fst r) = VectorStore.Client.table client ++ rows
           /\ snd r = Ok (List.map VectorStore.ChunkRow.id rows)
           /\ List.length rows = List.length chunks
           /\ List.map VectorStore.ChunkRow.content rows
              = List.map VectorStore.Chunk.content chunks
       | None =>
           VectorStore.Client.table (fst r) = VectorStore.Client.table client
           /\ exists msg, snd r = Throw msg
       end).
  { subst r. unfold VectorStore.insertChunks, VectorStore.queryBegin.
    rewrite Hidle.
    pose proof (insertLoop_in_transaction accepts freshId chunks
                  (VectorStore.Client.table client)
                  (VectorStore.Client.table client) []) as Hloop.
    destruct (VectorStore.rowsOfBatch accepts freshId
                (VectorStore.Client.table client) chunks) as [rows |] eqn:Hrows.
    - rewrite Hloop. cbn. split; [reflexivity |].
      destruct (rowsOfBatch_rows accepts freshId _ _ _ Hrows) as (H1 & H2 & _).
      auto.
    - destruct Hloop as (client' & msg & -> & Htable). cbn.
      split; [reflexivity |]. split; [exact Htable | eauto]. }
  destruct Hmain as [Htx Hrows]. split; [exact Htx | split; [exact Hrows |]].
  intros Hex.
  rewrite (rowsOfBatch_malformed accepts freshId _ _ Hex) in Hrows. exact Hrows.
Qed.

(** A batch of five items whose third has no embedding, on a table that
    already holds a row: nothing of the batch is persisted. *)
Lemma insertChunks_atomic_witness :
  let accepts := fun (_ : list VectorStore.ChunkRow.t) (row : VectorStore.ChunkRow.t) =>
                   List.length (VectorStore.ChunkRow.embedding row) =? 2 in
  let freshId := fun visible : list VectorStore.ChunkRow.t => List.length visible in
  let good := fun i => VectorStore.Chunk.mk 7 i (u "text") (Some [1; 0]%Q) None in
  let bad := VectorStore.Chunk.mk 7 2 (u "text") None None in
  let table := [VectorStore.ChunkRow.mk 0 6 0 (u "old") [0; 1]%Q (u "{}")] in
  let client := VectorStore.Client.mk table VectorStore.Idle in
  let r := VectorStore.insertChunks accepts freshId
             [good 0%Z; good 1%Z; bad; good 3%Z; good 4%Z] client in
  VectorStore.Client.table (fst r) = table /\ exists msg, snd r = Throw msg.
Proof.
  intros accepts freshId good bad table client r.
  refine (proj2 (proj2 (insertChunks_atomic accepts freshId
                          [good 0%Z; good 1%Z; bad; good 3%Z; good 4%Z]
                          client eq_refl)) _).
  do 2 apply List.Exists_cons_tl. apply List.Exists_cons_hd. reflexivity.
Defined.

Example insertChunks_all_inserted :
  let accepts := fun (_ : list VectorStore.ChunkRow.t) (row : VectorStore.ChunkRow.t) =>
                   List.length (VectorStore.ChunkRow.embedding row) =? 2 in
  let freshId := fun visible : list VectorStore.ChunkRow.t => List.length visible in
  let good := fun i => VectorStore.Chunk.mk 7 i (u "text") (Some [1; 0]%Q) None in
  let r := VectorStore.insertChunks accepts freshId [good 0%Z; good 1%Z]
             (VectorStore.Client.mk [] VectorStore.Idle) in
  List.map VectorStore.ChunkRow.id (VectorStore.Client.table (fst r)) = [0; 1]
  /\ snd r = Ok [0; 1].
Proof. split; reflexivity. Qed.

(** A row that the database rejects in the middle of the batch. *)
Example insertChunks_rejected_row :
  let accepts := fun (_ : list VectorStore.ChunkRow.t) (row : VectorStore.ChunkRow.t) =>
                   List.length (VectorStore.ChunkRow.embedding row) =? 2 in
  let freshId := fun visible : list VectorStore.ChunkRow.t => List.length visible in
  let good := fun i => VectorStore.Chunk.mk 7 i (u "text") (Some [1; 0]%Q) None in
  let short := VectorStore.Chunk.mk 7 1 (u "text") (Some [1]%Q) None in
  VectorStore.insertChunks accepts freshId [good 0%Z; short; good 2%Z]
    (VectorStore.Client.mk [] VectorStore.Idle)
  = (VectorStore.Client.mk [] VectorStore.Idle, Throw "insert rejected").
Proof. reflexivity. Qed.

(** ** Folder indexing *)

Section IndexFolder.

Import Drive.

Variable Store : Type.
Variable indexFile : jsstring -> Store -> Store * Result unit.

(** The loop with its error list is the run of all attempts: a throw
    adds an entry and the loop goes on with the next file. *)
Lemma indexLoop_attempts (files : list File.t) (st : Store * list IndexError.t) :
  List.fold_left (indexStep Store indexFile) files st
  = (snd (attempts Store indexFile files (fst st)),
     snd st ++ failuresOf (fst (attempts Store indexFile files (fst st)))).
Proof.
  revert st. induction files as [|file files IH]; intros [store errors].
  - simpl. rewrite app_nil_r. reflexivity.
  - cbn [List.fold_left]. rewrite IH.
    unfold indexStep. cbn [attempts fst snd failuresOf List.flat_map].
    destruct (indexFile (File.id file) store) as [store' [[] | msg]];
      cbn [fst snd]; [reflexivity |].
    rewrite <- app_assoc. reflexivity.
Qed.

Lemma attempts_files (files : list File.t) (store : Store) :
  List.map fst (fst (attempts Store indexFile files store)) = files.
Proof.
  revert store. induction files as [|file files IH]; intros store;
    [reflexivity |].
  cbn [attempts fst List.map]. rewrite IH. reflexivity.
Qed.

(** One error entry per attempt that threw. *)
Lemma failuresOf_length (outcomes : list (File.t * Result unit)) :
  List.length (failuresOf outcomes)
  = List.length (List.filter
                   (fun o => match snd o with
                             | Ok _ => false
                             | Throw _ => true
                             end) outcomes).
Proof.
  induction outcomes as [|[file [[] | msg]] outcomes IH]; simpl; auto.
Qed.

Lemma failuresOf_ids (outcomes : list (File.t * Result unit)) :
  List.map IndexError.fileId (failuresOf outcomes)
  = List.map (fun o => File.id (fst o))
      (List.filter (fun o => match snd o with
                             | Ok _ => false
                             | Throw _ => true
                             end) outcomes).
Proof.
  induction outcomes as [|[file [[] | msg]] outcomes IH]; simpl;
    [reflexivity | exact IH | rewrite IH; reflexivity].
Qed.

Lemma failuresOf_le (outcomes : list (File.t * Result unit)) :
  List.length (failuresOf outcomes) <= List.length outcomes.
Proof.
  rewrite failuresOf_length. apply List.filter_length_le.
Qed.

End IndexFolder.

(** C7: over the n listed files, [indexFolder] attempts every file in
    turn, whatever happened to the files before it; each attempt that
    throws adds one entry to the error list; and the value returned is
    {total: n, indexed: n - f, errors} where f, the number of attempts
    that threw, is the length of errors. *)
Theorem indexFolder_fault_isolation
    (Store : Type) (indexFile : jsstring -> Store -> Store * Result unit)
    (listing : Drive.Listing) (store : Store) (allFiles : list Drive.File.t) :
  Drive.fetchAll listing [] = Ok allFiles ->
  let run := Drive.attempts Store indexFile allFiles store in
  let failed := List.filter
                  (fun o => match snd o with
                            | Ok _ => false
                            | Throw _ => true
                            end) (fst run) in
  let errors := Drive.failuresOf (fst run) in
  let n := List.length allFiles in
  let f := List.length failed in
  Drive.indexFolder Store indexFile listing store
  = (snd run, Ok (Drive.Summary.mk n (n - f) errors))
  /\ List.map fst (fst run) = allFiles
  /\ List.length errors = f
  /\ List.map Drive.IndexError.fileId errors
     = List.map (fun o => Drive.File.id (fst o)) failed
  /\ f <= n.
Proof.
  intros Hfetch run failed errors n f.
  assert (Hlen : List.length errors = f) by apply failuresOf_length.
  split; [| split; [| split; [| split]]].
  - unfold Drive.indexFolder. rewrite Hfetch, indexLoop_attempts.
    cbn [fst snd app]. fold run. fold errors. rewrite Hlen. reflexivity.
  - apply attempts_files.
  - exact Hlen.
  - apply failuresOf_ids.
  - subst f n. rewrite <- Hlen.
    pose proof (failuresOf_le (fst run)) as Hle. fold errors in Hle.
    pose proof (f_equal (@List.length _)
                  (attempts_files Store indexFile allFiles store)) as Hn.
    rewrite List.length_map in Hn. fold run in Hn. lia.
Qed.

(** Ten files on two pages, the files "d" and "h" failing: total 10,
    indexed 8, two errors, and the files after a failure are indexed
    (the store, here the list of indexed ids, holds all eight). *)
Lemma indexFolder_fault_isolation_witness :
  let file := fun s => Drive.File.mk (u s) (u s) in
  let page1 := [file "a"; file "b"; file "c"; file "d"; file "e"; file "f"] in
  let page2 := [file "g"; file "h"; file "i"; file "j"] in
  let indexFile := fun (id : jsstring) (store : list jsstring) =>
                     if bool_decide (id = u "d") || bool_decide (id = u "h")
                     then (store, Throw "download failed")
                     else (store ++ [id], Ok tt) in
  Drive.indexFolder (list jsstring) indexFile
    (Drive.NextPage page1 (Drive.LastPage page2)) []
  = (List.map u ["a"; "b"; "c"; "e"; "f"; "g"; "i"; "j"]%string,
     Ok (Drive.Summary.mk 10 8
           [Drive.IndexError.mk (u "d") (u "d") "download failed";
            Drive.IndexError.mk (u "h") (u "h") "download failed"])).
Proof.
  intros file page1 page2 indexFile.
  exact (proj1 (indexFolder_fault_isolation (list jsstring) indexFile
                  (Drive.NextPage page1 (Drive.LastPage page2)) []
                  (page1 ++ page2) eq_refl)).
Defined.

(* ===================================================================== *)
(** * Part III. Further properties of the services                        *)
(* ===================================================================== *)

(** ** Batch embeddings: requests and answers *)

Section BatchAnswers.

Import Embeddings.

Variable Embedding : Type.
Variable create : list jsstring -> Result (list Embedding).

(** The loop returns the provider's answers, concatenated in request
    order, and only if every request was answered. *)
Lemma embedBatches_answers (batches : list (list jsstring))
    (acc vectors : list Embedding) :
  embedBatches Embedding create batches acc = Ok vectors
  <-> exists answers,
        Forall2 (fun batch answer => create batch = Ok answer) batches answers
        /\ vectors = acc ++ concat answers.
Proof.
  revert acc. induction batches as [|b batches IH]; intros acc; cbn [embedBatches].
  - split.
    + intros [= <-]. exists []. split; [constructor | simpl; rewrite app_nil_r; reflexivity].
    + intros (answers & HF & ->). inversion HF; subst. simpl.
      rewrite app_nil_r. reflexivity.
  - destruct (create b) as [e | msg] eqn:Hb.
    + rewrite IH. split.
      * intros (answers & HF & ->). exists (e :: answers). split.
        -- constructor; assumption.
        -- simpl. rewrite app_assoc. reflexivity.
      * intros (answers & HF & ->). inversion HF as [|? a ? rest Ha Hrest]; subst.
        rewrite Hb in Ha. injection Ha as <-.
        exists rest. split; [exact Hrest |]. simpl. rewrite app_assoc. reflexivity.
    + split; [discriminate |].
      intros (answers & HF & _). inversion HF as [|? a ? rest Ha Hrest]; subst.
      rewrite Hb in Ha. discriminate.
Qed.

Lemma validTextsOf_all (texts : list jsstring) :
  Forall (fun text => isBlank text = false) texts -> validTextsOf texts = texts.
Proof.
  unfold validTextsOf. induction 1 as [|t texts Ht _ IH]; simpl; [reflexivity |].
  rewrite Ht, IH. reflexivity.
Qed.

End BatchAnswers.

Lemma generateEmbeddings_ok_iff
    (Embedding : Type) (create : list jsstring -> Result (list Embedding))
    (texts : list jsstring) (vectors : list Embedding) :
  Embeddings.validTextsOf texts <> [] ->
  Embeddings.generateEmbeddings Embedding (Some create) texts = Ok vectors
  <-> exists answers,
        Forall2 (fun batch answer => create batch = Ok answer)
          (Embeddings.requestsOf texts) answers
        /\ vectors = concat answers.
Proof.
  intros Hvalid. unfold Embeddings.generateEmbeddings.
  destruct texts as [|t texts]; [contradiction |].
  destruct (Embeddings.validTextsOf (t :: texts)) eqn:Hv; [contradiction |].
  apply (embedBatches_answers Embedding create _ [] vectors).
Qed.

Lemma requestsOf_sizes (texts : list jsstring) :
  Forall (fun batch =>
            1 <= List.length batch <= 2048
            /\ Forall (fun text => isBlank text = false) batch)
         (Embeddings.requestsOf texts).
Proof.
  pose proof (sliceBatches_sizes
                (List.length (Embeddings.validTextsOf texts))
                Embeddings.batchSize (Embeddings.validTextsOf texts)) as Hs.
  assert (H0 : 0 < Embeddings.batchSize) by (unfold Embeddings.batchSize; lia).
  specialize (Hs H0).
  assert (Hnb : Forall (Forall (fun text => isBlank text = false))
                  (Embeddings.requestsOf texts)).
  { apply Forall_concat_inv. rewrite requestsOf_concat.
    apply validTextsOf_nonblank. }
  unfold Embeddings.requestsOf, Embeddings.batchesOf in *.
  rewrite List.Forall_forall in Hs, Hnb |- *. intros b Hb.
  destruct (Hs b Hb) as [Hne Hlen]. split; [| apply Hnb; exact Hb].
  unfold Embeddings.batchSize in Hlen. split; [| exact Hlen].
  destruct b; [contradiction | simpl; lia].
Qed.

(** Without a client, with an empty array and with nothing but blank
    texts the call throws, in this order of precedence, and the provider
    is not called. Otherwise the result is exactly the provider's
    answers to the requests, concatenated in request order; a single
    request that throws makes the whole call throw, with no partial
    result. *)
Theorem generateEmbeddings_answers
    (Embedding : Type) (create : list jsstring -> Result (list Embedding))
    (texts : list jsstring) :
  Embeddings.generateEmbeddings Embedding None texts
    = Throw "Embeddings service not initialized"
  /\ Embeddings.generateEmbeddings Embedding (Some create) []
     = Throw "Texts must be a non-empty array"
  /\ (texts <> [] -> Embeddings.validTextsOf texts = [] ->
      Embeddings.generateEmbeddings Embedding (Some create) texts
      = Throw "No valid texts to embed")
  /\ (Embeddings.validTextsOf texts <> [] ->
      forall vectors,
        Embeddings.generateEmbeddings Embedding (Some create) texts = Ok vectors
        <-> exists answers,
              Forall2 (fun batch answer => create batch = Ok answer)
                (Embeddings.requestsOf texts) answers
              /\ vectors = concat answers).
Proof.
  split; [reflexivity | split; [reflexivity | split]].
  - intros Hne Hvalid. unfold Embeddings.generateEmbeddings.
    destruct texts; [contradiction |]. rewrite Hvalid. reflexivity.
  - intros Hvalid vectors. apply generateEmbeddings_ok_iff. exact Hvalid.
Qed.

(** Every request to the provider holds between 1 and 2048 texts, none
    of them blank, and the requests put end to end are the non-blank
    texts in input order. *)
Theorem requests_within_provider_limit (texts : list jsstring) :
  Forall (fun batch =>
            1 <= List.length batch <= 2048
            /\ Forall (fun text => isBlank text = false) batch)
         (Embeddings.requestsOf texts)
  /\ concat (Embeddings.requestsOf texts)
     = List.filter (fun text => negb (isBlank text)) texts.
Proof.
  split; [apply requestsOf_sizes | apply requestsOf_concat].
Qed.

(** A provider that answers every request with one vector per text
    gives, for texts none of which is blank, the vectors of the texts
    in order. *)
Lemma generateEmbeddings_per_text
    (Embedding : Type) (embed : jsstring -> Embedding)
    (create : list jsstring -> Result (list Embedding))
    (texts : list jsstring) :
  (forall batch, batch <> [] ->
     List.length batch <= Embeddings.batchSize ->
     create batch = Ok (List.map embed batch)) ->
  texts <> [] ->
  Forall (fun text => isBlank text = false) texts ->
  Embeddings.generateEmbeddings Embedding (Some create) texts
    = Ok (List.map embed texts).
Proof.
  intros Hcreate Hne Hall.
  apply generateEmbeddings_ok_iff.
  - rewrite validTextsOf_all by exact Hall. exact Hne.
  - exists (List.map (List.map embed) (Embeddings.requestsOf texts)). split.
    + pose proof (requestsOf_sizes texts) as Hreq.
      induction Hreq as [|b bs [[Hb1 Hb2] _] _ IH]; simpl; constructor; auto.
      apply Hcreate; [destruct b; [simpl in Hb1; lia | discriminate] |].
      unfold Embeddings.batchSize. exact Hb2.
    + rewrite <- List.concat_map, requestsOf_concat, validTextsOf_all by exact Hall.
      reflexivity.
Qed.

(** For a non-empty batch without blank entries, and a provider that
    returns one vector per text of a request, the result has one vector
    per input text, at the position of its text. *)
Theorem generateEmbeddings_aligned
    (Embedding : Type) (embed : jsstring -> Embedding)
    (create : list jsstring -> Result (list Embedding))
    (texts : list jsstring) :
  (forall batch, batch <> [] ->
     List.length batch <= Embeddings.batchSize ->
     create batch = Ok (List.map embed batch)) ->
  texts <> [] ->
  Forall (fun text => isBlank text = false) texts ->
  Embeddings.generateEmbeddings Embedding (Some create) texts
    = Ok (List.map embed texts)
  /\ forall i text, nth_error texts i = Some text ->
       nth_error (List.map embed texts) i = Some (embed text).
Proof.
  intros Hcreate Hne Hall. split.
  - apply generateEmbeddings_per_text; assumption.
  - intros i text Hi. rewrite List.nth_error_map, Hi. reflexivity.
Qed.

Lemma generateEmbeddings_aligned_witness :
  let create := fun batch : list jsstring => Ok (List.map (@List.length N) batch) in
  Embeddings.generateEmbeddings nat (Some create) [u "a"; u "bb"; u "ccc"]
  = Ok [1; 2; 3].
Proof.
  intros create.
  refine (proj1 (generateEmbeddings_aligned nat (@List.length N) create
                   [u "a"; u "bb"; u "ccc"] _ _ _)).
  - intros batch _ _. reflexivity.
  - discriminate.
  - repeat constructor.
Defined.

(** ** Cosine similarity and ranking *)

Section CosineSimilarity.

Import Embeddings.

Variable sqrt : Q -> Q.

Lemma Qmult_comm_eq (x y : Q) : (x * y)%Q = (y * x)%Q.
Proof.
  unfold Qmult. f_equal; [apply Z.mul_comm | apply Pos.mul_comm].
Qed.

(** Swapping the two vectors swaps the two norms and keeps the dot
    product. *)
Lemma cosineLoop_swap (a b : list Q) (d n1 n2 : Q) :
  List.fold_left cosineStep (List.combine b a) (d, n2, n1)
  = (let st := List.fold_left cosineStep (List.combine a b) (d, n1, n2) in
     (fst (fst st), snd st, snd (fst st))).
Proof.
  revert b d n1 n2. induction a as [|x a IH]; intros [|y b] d n1 n2;
    try reflexivity.
  cbn [List.combine List.fold_left]. unfold cosineStep at 2 4. cbn [fst snd].
  rewrite (Qmult_comm_eq y x). apply IH.
Qed.

Lemma cosineSimilarity_sym (a b : list Q) :
  cosineSimilarity sqrt a b = cosineSimilarity sqrt b a.
Proof.
  unfold cosineSimilarity. rewrite (Nat.eqb_sym (List.length b)).
  destruct (List.length a =? List.length b); cbn [negb]; [| reflexivity].
  rewrite (cosineLoop_swap a b 0 0 0). cbv zeta. cbn [fst snd].
  rewrite orb_comm, (Qmult_comm_eq (sqrt (snd (List.fold_left cosineStep (List.combine a b) (0, 0, 0)%Q)))).
  reflexivity.
Qed.

(** A vector of zeros contributes nothing to its norm. *)
Lemma cosineLoop_zero_norm (a b : list Q) (d n1 n2 : Q) :
  Forall (fun x => x == 0)%Q a ->
  (snd (fst (List.fold_left cosineStep (List.combine a b) (d, n1, n2))) == n1)%Q.
Proof.
  intros Ha. revert b d n1 n2.
  induction Ha as [|x a Hx _ IH]; intros [|y b] d n1 n2; try reflexivity.
  cbn [List.combine List.fold_left]. unfold cosineStep at 2. cbn [fst snd].
  rewrite IH, Hx. ring.
Qed.

Lemma cosineSimilarity_dimension (a b : list Q) :
  List.length a <> List.length b ->
  cosineSimilarity sqrt a b = Throw "Embeddings must have the same dimension".
Proof.
  intros Hne. unfold cosineSimilarity.
  destruct (Nat.eqb_spec (List.length a) (List.length b)); [contradiction |].
  reflexivity.
Qed.

Lemma cosineSimilarity_defined (a b : list Q) :
  List.length a = List.length b -> exists s, cosineSimilarity sqrt a b = Ok s.
Proof.
  intros He. unfold cosineSimilarity. rewrite He, Nat.eqb_refl. cbn [negb].
  destruct (_ || _); eexists; reflexivity.
Qed.

(** *** Ranking *)








Lemma scoreFrom_mismatch (q : list Q) (candidates : list (list Q)) (i : nat) :
  Exists (fun c => List.length c <> List.length q) candidates ->
  scoreFrom sqrt i q candidates = Throw "Embeddings must have the same dimension".
Proof.
  intros Hex. revert i. induction candidates as [|c candidates IH]; intros i;
    [inversion Hex |].
  cbn [scoreFrom].
  destruct (Nat.eq_dec (List.length q) (List.length c)) as [He | Hne].
  - destruct (cosineSimilarity_defined q c He) as [s ->].
    inversion Hex as [? ? Hc | ? ? Hrest]; subst; [congruence |].
    rewrite (IH Hrest). reflexivity.
  - rewrite (cosineSimilarity_dimension q c Hne). reflexivity.
Qed.




End CosineSimilarity.

Lemma StronglySorted_app_inv {A : Type} (R : A -> A -> Prop) (l1 l2 : list A) :
  StronglySorted R (l1 ++ l2) ->
  forall x y, In x l1 -> In y l2 -> R x y.
Proof.
  induction l1 as [|a l1 IH]; simpl; intros Hs x y Hx Hy; [destruct Hx |].
  inversion Hs as [|? ? Hs' Hall]; subst.
  destruct Hx as [<- | Hx].
  - rewrite List.Forall_forall in Hall. apply Hall, in_or_app. right. exact Hy.
  - apply IH; assumption.
Qed.


(** [cosineSimilarity] is defined exactly on vectors of equal dimension,
    throws on the others, and does not depend on the order of its two
    arguments, whatever the square root function. *)
Theorem cosineSimilarity_symmetric (sqrt : Q -> Q) (a b : list Q) :
  Embeddings.cosineSimilarity sqrt a b = Embeddings.cosineSimilarity sqrt b a
  /\ (List.length a <> List.length b ->
      Embeddings.cosineSimilarity sqrt a b
      = Throw "Embeddings must have the same dimension")
  /\ (List.length a = List.length b ->
      exists s, Embeddings.cosineSimilarity sqrt a b = Ok s).
Proof.
  split; [apply cosineSimilarity_sym |].
  split; [apply cosineSimilarity_dimension | apply cosineSimilarity_defined].
Qed.

(** With a square root that is zero at zero, the similarity of a vector
    of zeros with any vector of the same dimension is 0, on either side:
    the guard on the norms keeps the division by zero away. *)
Theorem cosineSimilarity_zero_vector (sqrt : Q -> Q) (a b : list Q) :
  (forall x, (x == 0)%Q -> (sqrt x == 0)%Q) ->
  Forall (fun x => x == 0)%Q a ->
  List.length a = List.length b ->
  Embeddings.cosineSimilarity sqrt a b = Ok 0%Q
  /\ Embeddings.cosineSimilarity sqrt b a = Ok 0%Q.
Proof.
  intros Hsqrt Hzero Hlen.
  assert (H : Embeddings.cosineSimilarity sqrt a b = Ok 0%Q).
  { unfold Embeddings.cosineSimilarity. rewrite Hlen, Nat.eqb_refl. cbn [negb].
    cbv zeta.
    assert (Hn : Qeq_bool
                   (sqrt (snd (fst (List.fold_left Embeddings.cosineStep
                                      (List.combine a b) (0, 0, 0)%Q)))) 0 = true).
    { apply Qeq_bool_iff, Hsqrt. rewrite cosineLoop_zero_norm by exact Hzero.
      reflexivity. }
    rewrite Hn. reflexivity. }
  split; [exact H | rewrite <- cosineSimilarity_sym; exact H].
Qed.

Lemma cosineSimilarity_zero_vector_witness :
  Embeddings.cosineSimilarity sqrtFloor [0; 0]%Q [3; 4]%Q = Ok 0%Q
  /\ Embeddings.cosineSimilarity sqrtFloor [3; 4]%Q [0; 0]%Q = Ok 0%Q.
Proof.
  apply (cosineSimilarity_zero_vector sqrtFloor [0; 0]%Q [3; 4]%Q).
  - intros [n d] Hx. unfold Qeq in Hx. simpl in Hx.
    assert (n = 0%Z) by lia. subst n. reflexivity.
  - repeat constructor; reflexivity.
  - reflexivity.
Defined.



(** The query [3, 4] against four candidates: the two parallel ones tie
    at similarity 1 and keep their order, then comes [0, 5]. *)
Example findMostSimilar_ex :
  match Embeddings.findMostSimilar sqrtFloor [3; 4]%Q
          [[0; 5]; [3; 4]; [5; 0]; [6; 8]]%Q 3 with
  | Ok result => List.map Embeddings.Scored.index result = [1; 3; 0]
  | Throw _ => False
  end.
Proof. vm_compute. reflexivity. Qed.

(** One candidate of another dimension than the query makes
    [findMostSimilar] throw; no partial ranking is returned. *)
Theorem findMostSimilar_dimension_error
    (sqrt : Q -> Q) (q : list Q) (candidates : list (list Q)) (topK : Z) :
  Exists (fun c => List.length c <> List.length q) candidates ->
  Embeddings.findMostSimilar sqrt q candidates topK
  = Throw "Embeddings must have the same dimension".
Proof.
  intros Hex. unfold Embeddings.findMostSimilar.
  rewrite (scoreFrom_mismatch sqrt q candidates 0 Hex). reflexivity.
Qed.

Lemma findMostSimilar_dimension_error_witness :
  Embeddings.findMostSimilar sqrtFloor [3; 4]%Q [[3; 4]; [1; 2; 3]]%Q 5
  = Throw "Embeddings must have the same dimension".
Proof.
  apply findMostSimilar_dimension_error.
  apply List.Exists_cons_tl, List.Exists_cons_hd. simpl. lia.
Defined.

(** ** Token estimate *)



(** ** Fixed-window chunking: what the windows hold *)

Section ChunkTextWindows.

Import Embeddings.

Lemma trimStart_head (s : jsstring) (c : N) (r : jsstring) :
  trimStart s = c :: r -> isWhiteSpace c = false /\ In c s.
Proof.
  induction s as [|d s IH]; simpl; [discriminate |].
  destruct (isWhiteSpace d) eqn:Hd.
  - intros H. destruct (IH H) as [H1 H2]. auto.
  - intros [= <- <-]. auto.
Qed.

Lemma trimStart_incl (s : jsstring) (c : N) : In c (trimStart s) -> In c s.
Proof.
  induction s as [|d s IH]; simpl; [tauto |].
  destruct (isWhiteSpace d); [auto | simpl; tauto].
Qed.

(** A text is blank exactly when it has nothing but white space. *)
Lemma isBlank_false_iff (s : jsstring) :
  isBlank s = false <-> Exists (fun c => isWhiteSpace c = false) s.
Proof.
  split.
  - unfold isBlank, trim, trimEnd. intros Hb.
    destruct (trimStart (rev (trimStart s))) as [|c r] eqn:Ht;
      [simpl in Hb; discriminate |].
    destruct (trimStart_head _ _ _ Ht) as [Hc Hin].
    apply List.Exists_exists. exists c. split; [| exact Hc].
    apply trimStart_incl, in_rev. exact Hin.
  - intros Hex. unfold isBlank.
    pose proof (trim_nonblank s Hex). destruct (trim s); [contradiction | reflexivity].
Qed.

Lemma join_In_split (sep : jsstring) (parts : list jsstring) (w : jsstring) :
  In w parts -> exists pre post, join sep parts = pre ++ w ++ post.
Proof.
  induction parts as [|p parts IH]; [intros [] |].
  intros [<- | Hin].
  - destruct parts as [|p' parts'].
    + exists [], []. simpl. rewrite app_nil_r. reflexivity.
    + exists [], (sep ++ join sep (p' :: parts')). reflexivity.
  - destruct (IH Hin) as (pre & post & Heq).
    destruct parts as [|p' parts']; [destruct Hin |].
    exists (p ++ sep ++ pre), post.
    change (join sep (p :: p' :: parts')) with (p ++ sep ++ join sep (p' :: parts')).
    rewrite Heq, <- !app_assoc. reflexivity.
Qed.

Lemma join_nonblank (sep : jsstring) (parts : list jsstring) (w : jsstring) :
  In w parts -> isBlank w = false -> isBlank (join sep parts) = false.
Proof.
  intros Hin Hw. apply isBlank_false_iff in Hw. apply isBlank_false_iff.
  destruct (join_In_split sep parts w Hin) as (pre & post & ->).
  apply List.Exists_app. right. apply List.Exists_app. left. exact Hw.
Qed.

(** The word at a position inside the window is in the slice. *)
Lemma slice_window_In {A : Type} (l : list A) (i size : Z) (p : nat) (w : A) :
  (0 <= i)%Z -> (i <= Z.of_nat p < i + size)%Z ->
  nth_error l p = Some w ->
  In w (slice l i (i + size)).
Proof.
  intros Hi Hp Hnth.
  assert (Hlen : p < List.length l) by (apply List.nth_error_Some; congruence).
  unfold slice, clampIndex.
  destruct (Z.ltb_spec i 0); [lia |].
  destruct (Z.ltb_spec (i + size) 0); [lia |].
  apply (List.nth_error_In _ (p - Z.to_nat (Z.min i (Z.of_nat (List.length l))))).
  rewrite List.nth_error_firstn.
  destruct (Nat.ltb_spec
              (p - Z.to_nat (Z.min i (Z.of_nat (List.length l))))
              (Z.to_nat (Z.min (i + size) (Z.of_nat (List.length l))
                         - Z.min i (Z.of_nat (List.length l))))) as [_ | Hge];
    [| lia].
  rewrite List.nth_error_skipn.
  replace (Z.to_nat (Z.min i (Z.of_nat (List.length l)))
           + (p - Z.to_nat (Z.min i (Z.of_nat (List.length l))))) with p by lia.
  exact Hnth.
Qed.

Variable words : list jsstring.
Variable chunkSize overlap : Z.

Hypothesis overlap_nonneg : (0 <= overlap)%Z.
Hypothesis overlap_below_size : (overlap < chunkSize)%Z.

(** What holds of a chunk pushed by a loop that starts at index [i]. *)
Local Abbreviation window := (fun (i : Z) (c : WordChunk.t) =>
  (exists k : nat,
      WordChunk.startIndex c = (i + Z.of_nat k * (chunkSize - overlap))%Z)
  /\ (0 <= WordChunk.startIndex c < Z.of_nat (List.length words))%Z
  /\ WordChunk.endIndex c
     = Z.min (WordChunk.startIndex c + chunkSize) (Z.of_nat (List.length words))
  /\ WordChunk.text c
     = join (u " ") (slice words (WordChunk.startIndex c)
                       (WordChunk.startIndex c + chunkSize))
  /\ isBlank (WordChunk.text c) = false).

Lemma chunkTextLoop_windows (fuel : nat) (i : Z) (chunks result : list WordChunk.t) :
  (0 <= i)%Z ->
  chunkTextLoop fuel words chunkSize overlap i chunks = Some result ->
  exists new,
    result = chunks ++ new
    /\ Forall (window i) new
    /\ (forall p w, (i <= Z.of_nat p)%Z -> nth_error words p = Some w ->
          isBlank w = false ->
          exists c, In c new
                    /\ (WordChunk.startIndex c <= Z.of_nat p
                        < WordChunk.endIndex c)%Z).
Proof.
  revert i chunks. induction fuel as [|fuel IH]; intros i chunks Hi; [discriminate |].
  cbn [chunkTextLoop].
  destruct (Z.ltb_spec i (Z.of_nat (List.length words))) as [Hlt | Hge].
  - intros Hloop. apply IH in Hloop; [| lia].
    destruct Hloop as (new' & -> & Hall & Hcover).
    set (chunk := join (u " ") (slice words i (i + chunkSize))).
    assert (Hshift : Forall (window i) new').
    { eapply List.Forall_impl; [| exact Hall].
      intros c ([k Hk] & Hrest). split; [| exact Hrest].
      exists (S k). rewrite Hk. lia. }
    unfold windowAt. fold chunk.
    destruct (isBlank chunk) eqn:Hblank.
    + exists new'. split; [reflexivity |]. split; [exact Hshift |].
      intros p w Hp Hnth Hw.
      destruct (Z.lt_ge_cases (Z.of_nat p) (i + (chunkSize - overlap))) as [Hin | Hout].
      * exfalso.
        assert (Hw' : In w (slice words i (i + chunkSize)))
          by (apply (slice_window_In words i chunkSize p w); [lia | lia | exact Hnth]).
        pose proof (join_nonblank (u " ") _ w Hw' Hw) as Hnb.
        fold chunk in Hnb. congruence.
      * apply (Hcover p w); assumption.
    + exists (WordChunk.mk chunk i
                (Z.min (i + chunkSize) (Z.of_nat (List.length words))) :: new').
      split; [rewrite <- app_assoc; reflexivity |].
      split.
      * constructor; [| exact Hshift].
        split; [exists 0; cbn; lia |]. cbn [WordChunk.startIndex WordChunk.endIndex
                                             WordChunk.text].
        repeat split; auto; lia.
      * intros p w Hp Hnth Hw.
        destruct (Z.lt_ge_cases (Z.of_nat p) (i + (chunkSize - overlap))) as [Hin | Hout].
        -- eexists. split; [left; reflexivity |].
           cbn [WordChunk.startIndex WordChunk.endIndex].
           assert (p < List.length words) by (apply List.nth_error_Some; congruence).
           lia.
        -- destruct (Hcover p w Hout Hnth Hw) as (c & Hc & Hpc).
           exists c. split; [right; exact Hc | exact Hpc].
  - intros [= <-]. exists []. split; [rewrite app_nil_r; reflexivity |].
    split; [constructor |].
    intros p w Hp Hnth _.
    assert (p < List.length words) by (apply List.nth_error_Some; congruence). lia.
Qed.

(** More fuel does not change the result of a loop that has ended. *)
Lemma chunkTextLoop_more_fuel (fuel fuel' : nat) (i : Z) chunks result :
  fuel <= fuel' ->
  chunkTextLoop fuel words chunkSize overlap i chunks = Some result ->
  chunkTextLoop fuel' words chunkSize overlap i chunks = Some result.
Proof.
  revert fuel' i chunks. induction fuel as [|fuel IH]; intros fuel' i chunks Hle;
    [discriminate |].
  destruct fuel' as [|fuel']; [lia |]. cbn [chunkTextLoop].
  destruct (i <? Z.of_nat (List.length words))%Z; [| auto].
  apply IH. lia.
Qed.

End ChunkTextWindows.

(** With [0 <= overlap < chunkSize], [chunkText] on a text that is not
    blank ends after at most one loop test per word and one more. Every
    chunk starts at a multiple of [chunkSize - overlap], holds the words
    from its start index up to its end index joined by one space, at
    most [chunkSize] of them, and is not blank; and every non-blank word
    of the text lies inside some chunk, so no word is lost. *)
Theorem chunkText_windows_cover (text : jsstring) (chunkSize overlap : Z) :
  (0 <= overlap < chunkSize)%Z ->
  isBlank text = false ->
  let words := Embeddings.splitWhitespace text in
  exists chunks,
    (forall fuel, List.length words < fuel ->
       Embeddings.chunkText fuel text chunkSize overlap = Some chunks)
    /\ Forall (fun c =>
         (exists k : nat,
             Embeddings.WordChunk.startIndex c
             = (Z.of_nat k * (chunkSize - overlap))%Z)
         /\ (0 <= Embeddings.WordChunk.startIndex c < Z.of_nat (List.length words))%Z
         /\ Embeddings.WordChunk.endIndex c
            = Z.min (Embeddings.WordChunk.startIndex c + chunkSize)
                (Z.of_nat (List.length words))
         /\ Embeddings.WordChunk.text c
            = join (u " ")
                (slice words (Embeddings.WordChunk.startIndex c)
                   (Embeddings.WordChunk.startIndex c + chunkSize))
         /\ isBlank (Embeddings.WordChunk.text c) = false) chunks
    /\ (forall p w, nth_error words p = Some w -> isBlank w = false ->
          exists c, In c chunks
                    /\ (Embeddings.WordChunk.startIndex c <= Z.of_nat p
                        < Embeddings.WordChunk.endIndex c)%Z).
Proof.
  intros [Hov1 Hov2] Hblank words.
  destruct (chunkTextLoop_terminates (S (List.length words)) words chunkSize
              overlap 0 [] Hov2 ltac:(lia) ltac:(lia)) as [chunks Hloop].
  exists chunks. split.
  - intros fuel Hfuel. unfold Embeddings.chunkText. rewrite Hblank.
    fold words. eapply chunkTextLoop_more_fuel; [| exact Hloop]. lia.
  - destruct (chunkTextLoop_windows words chunkSize overlap Hov1 Hov2
                (S (List.length words)) 0 [] chunks ltac:(lia) Hloop)
      as (new & Hnew & Hall & Hcover).
    simpl in Hnew. subst new. split.
    + eapply List.Forall_impl; [| exact Hall].
      intros c ([k Hk] & Hrest). split; [exists k; lia | exact Hrest].
    + intros p w Hnth Hw. apply (Hcover p w); [lia | exact Hnth | exact Hw].
Qed.

Lemma chunkText_windows_cover_witness :
  exists chunks,
    Embeddings.chunkText 10 (u "a b c d e") 3 1 = Some chunks
    /\ List.map Embeddings.WordChunk.startIndex chunks = [0; 2; 4]%Z.
Proof.
  destruct (chunkText_windows_cover (u "a b c d e") 3 1 ltac:(lia) eq_refl)
    as (chunks & Hfuel & _).
  exists chunks. split; [apply Hfuel; simpl; lia |].
  specialize (Hfuel 10 ltac:(simpl; lia)).
  vm_compute in Hfuel. injection Hfuel as <-. reflexivity.
Defined.

(** ** Sentence chunking: text after the last terminator *)

Section TrailingText.

Import Embeddings.

Lemma matchSentences_no_terminator (t : jsstring) (ph : Phase) (cur : jsstring) :
  Forall (fun c => isTerminator c = false) t ->
  matchSentences ph cur t = match ph with
                            | Tail => [cur]
                            | _ => []
                            end.
Proof.
  intros Ht. revert ph cur. induction Ht as [|c t Hc _ IH]; intros ph cur.
  - destruct ph; reflexivity.
  - destruct ph; cbn [matchSentences]; rewrite Hc, IH; reflexivity.
Qed.

(** A tail without terminator adds no match and changes none. *)
Lemma matchSentences_app_tail (s t : jsstring) (ph : Phase) (cur : jsstring) :
  Forall (fun c => isTerminator c = false) t ->
  matchSentences ph cur (s ++ t) = matchSentences ph cur s.
Proof.
  intros Ht. revert ph cur. induction s as [|c s IH]; intros ph cur.
  - simpl. rewrite matchSentences_no_terminator by exact Ht.
    destruct ph; reflexivity.
  - destruct ph; cbn [matchSentences app]; destruct (isTerminator c);
      rewrite ?IH; reflexivity.
Qed.

Lemma matched_text_nonblank (s : jsstring) :
  matchSentences Skip [] s <> [] -> isBlank s = false.
Proof.
  intros Hm. apply isBlank_false_iff.
  destruct (List.Forall_Exists_dec (fun c => isTerminator c = false)
              (fun c => bool_dec (isTerminator c) false) s) as [Hall | Hex].
  - rewrite matchSentences_no_terminator in Hm by exact Hall. contradiction.
  - apply List.Exists_exists in Hex. destruct Hex as [c [Hin Hc]].
    apply List.Exists_exists. exists c. split; [exact Hin |].
    apply terminator_not_whitespace. destruct (isTerminator c); congruence.
Qed.

End TrailingText.

(** When a text holds at least one sentence that ends in ".", "!" or
    "?", whatever follows its last terminator is left out: appending
    text without terminator changes neither the sentences nor the
    chunks. *)
Theorem chunkBySentences_drops_trailing_text
    (s t : jsstring) (maxChunkSize : Z) :
  Embeddings.matchSentences Embeddings.Skip [] s <> [] ->
  Forall (fun c => Embeddings.isTerminator c = false) t ->
  Embeddings.sentencesOf (s ++ t) = Embeddings.sentencesOf s
  /\ Embeddings.chunkBySentences (s ++ t) maxChunkSize
     = Embeddings.chunkBySentences s maxChunkSize.
Proof.
  intros Hm Ht.
  assert (Hs : Embeddings.sentencesOf (s ++ t) = Embeddings.sentencesOf s).
  { unfold Embeddings.sentencesOf. rewrite matchSentences_app_tail by exact Ht.
    destruct (Embeddings.matchSentences Embeddings.Skip [] s);
      [contradiction | reflexivity]. }
  split; [exact Hs |].
  unfold Embeddings.chunkBySentences. rewrite Hs.
  rewrite (matched_text_nonblank s Hm).
  rewrite (matched_text_nonblank (s ++ t)); [reflexivity |].
  rewrite matchSentences_app_tail by exact Ht. exact Hm.
Qed.

Lemma chunkBySentences_drops_trailing_text_witness :
  Embeddings.sentencesOf (u "Call us. " ++ u "Opening hours on request")
  = [u "Call us."]
  /\ Embeddings.chunkBySentences (u "Call us. " ++ u "Opening hours on request") 500
     = [Embeddings.SentenceChunk.mk (u "Call us.") 0].
Proof.
  destruct (chunkBySentences_drops_trailing_text (u "Call us. ")
              (u "Opening hours on request") 500) as [H1 H2].
  - discriminate.
  - repeat constructor.
  - rewrite H1, H2. split; reflexivity.
Defined.

(** ** A turn from utterance to handoff decision *)

Section TurnOutcome.

Import Orchestrator.

Variable toLowerCase : jsstring -> jsstring.

Lemma declared_names_not_default (e : string * list jsstring) :
  In e intents ->
  fst e <> "general_inquiry"%string
  /\ In (fst e) (List.map fst intents).
Proof.
  intros He. split; [| apply List.in_map; exact He].
  cbn in He. repeat (destruct He as [<- | He]; [discriminate |]). destruct He.
Qed.

(** Either no keyword occurs and the intent is the default with low
    confidence, or some keyword occurs and the intent is a declared one
    with confidence of at least 0.3. *)
Lemma detectIntent_cases (text : jsstring) :
  let count e := countMatches (toLowerCase text) (snd e) in
  let i := detectIntent toLowerCase text in
  ((forall e, In e intents -> count e = 0)
   /\ name i = "general_inquiry"%string /\ lowConfidence i = true)
  \/ ((exists e, In e intents /\ 0 < count e)
      /\ name i <> "general_inquiry"%string /\ lowConfidence i = false).
Proof.
  intros count i. subst i. unfold detectIntent.
  destruct (detectLoop_first_max (toLowerCase text) intents
              "general_inquiry"%string 0) as [[Hst Hall] | Hex].
  - left. rewrite Hst. cbn [fst snd]. split; [| split; reflexivity].
    intros e He. specialize (Hall e He). simpl in Hall. unfold count. lia.
  - right. destruct Hex as (pre & e & post & Hin & Hst & Hm & _).
    rewrite Hst. cbn [fst snd name].
    assert (He : In e intents)
      by (rewrite Hin; apply in_or_app; right; left; reflexivity).
    split; [exists e; split; [exact He | exact Hm] |].
    split; [apply declared_names_not_default; exact He |].
    destruct (lowConfidence _) eqn:Hl; [| reflexivity].
    apply lowConfidence_confidenceOf in Hl. simpl in Hm. lia.
Qed.

Lemma hasKnowledge_iff (toolResults : list ToolResult) :
  hasKnowledge toolResults = true
  <-> In "knowledge_base"%string (List.map tool toolResults).
Proof.
  unfold hasKnowledge. rewrite existsb_exists, List.in_map_iff. split.
  - intros [t [Hin Ht]]. apply String.eqb_eq in Ht. eauto.
  - intros [t [Ht Hin]]. exists t. split; [exact Hin |]. apply String.eqb_eq. exact Ht.
Qed.

(** The confidence is 0 unless some keyword occurs. *)
Lemma detectIntent_confidence_zero (text : jsstring) :
  (confidence (detectIntent toLowerCase text) == 0)%Q
  \/ exists e, In e intents /\ 0 < countMatches (toLowerCase text) (snd e).
Proof.
  unfold detectIntent.
  destruct (detectLoop_first_max (toLowerCase text) intents
              "general_inquiry"%string 0) as [[Hst _] | Hex].
  - left. rewrite Hst. reflexivity.
  - right. destruct Hex as (pre & e & post & Hin & _ & Hm & _).
    exists e. split; [| exact Hm].
    rewrite Hin. apply in_or_app. right. left. reflexivity.
Qed.

End TurnOutcome.

(** An utterance in which no keyword occurs is always handed off: a
    completed turn reports the intent "general_inquiry" with confidence
    0, [needsHandoff] true and the generic reason, whatever the tools
    found and whatever the time of day. *)
Theorem unmatched_utterance_is_handed_off
    (systemPrompt : jsstring) (toLowerCase : jsstring -> jsstring)
    (gatherContext : Orchestrator.Intent -> jsstring -> list Orchestrator.ToolResult)
    (generateResponse :
       list Orchestrator.Message -> jsstring -> Orchestrator.Intent -> Result jsstring)
    (isOpen : bool)
    (h : gmap (list N) (list Orchestrator.Message)) (callId userInput : jsstring)
    (result : Orchestrator.Turn.t) :
  (forall e, In e Orchestrator.intents ->
     Orchestrator.countMatches (toLowerCase userInput) (snd e) = 0) ->
  snd (Orchestrator.processCall systemPrompt toLowerCase gatherContext
         generateResponse isOpen callId userInput h) = Ok result ->
  Orchestrator.Turn.intent result = "general_inquiry"%string
  /\ (Orchestrator.Turn.confidence result == 0)%Q
  /\ Orchestrator.Turn.needsHandoff result = true
  /\ Orchestrator.Turn.handoffReason result
     = Some "Customer needs personalized assistance"%string.
Proof.
  intros Hnone. unfold Orchestrator.processCall.
  destruct (generateResponse _ _ _) as [reply | msg]; cbn [snd]; [| discriminate].
  intros [= <-]. cbn.
  destruct (detectIntent_cases toLowerCase userInput)
    as [(_ & Hname & Hlow) | ((e & He & Hpos) & _)].
  - assert (Hconf : (Orchestrator.confidence
                       (Orchestrator.detectIntent toLowerCase userInput) == 0)%Q).
    { destruct (detectIntent_confidence_zero toLowerCase userInput)
        as [Hc | Hc]; [exact Hc |].
      destruct Hc as (e & He & Hpos). rewrite (Hnone e He) in Hpos. lia. }
    unfold Orchestrator.shouldHandoff, Orchestrator.getHandoffReason.
    rewrite Hname, Hlow. cbn. auto.
  - rewrite (Hnone e He) in Hpos. lia.
Qed.

Lemma unmatched_utterance_is_handed_off_witness :
  exists result,
    snd (Orchestrator.processCall (u "prompt") toLowerCase_ascii
           (fun _ _ => []) (fun _ _ _ => Ok (u "ok")) true
           (u "call-1") (u "Bonjour") ∅) = Ok result
    /\ Orchestrator.Turn.intent result = "general_inquiry"%string
    /\ (Orchestrator.Turn.confidence result == 0)%Q
    /\ Orchestrator.Turn.needsHandoff result = true
    /\ Orchestrator.Turn.handoffReason result
       = Some "Customer needs personalized assistance"%string.
Proof.
  eexists. split; [vm_compute; reflexivity |].
  apply (unmatched_utterance_is_handed_off (u "prompt") toLowerCase_ascii
           (fun _ _ => []) (fun _ _ _ => Ok (u "ok")) true ∅
           (u "call-1") (u "Bonjour")).
  - intros e He. cbn in He.
    repeat (destruct He as [<- | He]; [reflexivity |]). destruct He.
  - vm_compute. reflexivity.
Defined.

(** A completed turn is answered without handoff exactly when some
    keyword occurs in the utterance, the intent is not "agent_request",
    it is not "technical_support" during business hours, and the
    knowledge base is among the tools used; and the handoff reason is
    absent exactly in that case. *)
Theorem turn_without_handoff_iff
    (systemPrompt : jsstring) (toLowerCase : jsstring -> jsstring)
    (gatherContext : Orchestrator.Intent -> jsstring -> list Orchestrator.ToolResult)
    (generateResponse :
       list Orchestrator.Message -> jsstring -> Orchestrator.Intent -> Result jsstring)
    (isOpen : bool)
    (h : gmap (list N) (list Orchestrator.Message)) (callId userInput : jsstring)
    (result : Orchestrator.Turn.t) :
  snd (Orchestrator.processCall systemPrompt toLowerCase gatherContext
         generateResponse isOpen callId userInput h) = Ok result ->
  (Orchestrator.Turn.needsHandoff result = false
   <-> (exists e, In e Orchestrator.intents
                  /\ 0 < Orchestrator.countMatches (toLowerCase userInput) (snd e))
       /\ Orchestrator.Turn.intent result <> "agent_request"%string
       /\ (Orchestrator.Turn.intent result = "technical_support"%string ->
           isOpen = false)
       /\ In "knowledge_base"%string (Orchestrator.Turn.toolsUsed result))
  /\ (Orchestrator.Turn.handoffReason result = None
      <-> Orchestrator.Turn.needsHandoff result = false).
Proof.
  unfold Orchestrator.processCall.
  destruct (generateResponse _ _ _) as [reply | msg]; cbn [snd]; [| discriminate].
  intros [= <-].
  cbn [Orchestrator.Turn.needsHandoff Orchestrator.Turn.intent
         Orchestrator.Turn.toolsUsed Orchestrator.Turn.handoffReason].
  set (intent := Orchestrator.detectIntent toLowerCase userInput).
  set (tools := gatherContext intent userInput).
  split.
  - rewrite <- hasKnowledge_iff. unfold Orchestrator.shouldHandoff.
    destruct (detectIntent_cases toLowerCase userInput)
      as [(Hall & Hname & Hlow) | (Hex & Hname & Hlow)];
      fold intent in Hname, Hlow.
    + rewrite Hname, Hlow. cbn. split; [discriminate |].
      intros [(e & He & Hpos) _]. rewrite (Hall e He) in Hpos. lia.
    + rewrite Hlow.
      destruct (String.eqb_spec (Orchestrator.name intent) "agent_request")
        as [Ha | Ha].
      { split; [discriminate | intros (_ & H & _); contradiction]. }
      destruct (String.eqb_spec (Orchestrator.name intent) "technical_support")
        as [Ht | Ht]; destruct isOpen; cbn [andb].
      { split; [discriminate |]. intros (_ & _ & H & _). specialize (H Ht).
        discriminate. }
      all: destruct (Orchestrator.hasKnowledge tools); cbn [negb andb];
        destruct (String.eqb_spec (Orchestrator.name intent) "general_inquiry");
        try contradiction; cbn [negb].
      all: split;
        [ intros H;
          first [ discriminate H
                | split; [exact Hex |]; split; [exact Ha |];
                  split; [intros; try reflexivity; try contradiction | reflexivity] ]
        | intros (_ & _ & _ & H); first [discriminate H | reflexivity] ].
  - destruct (Orchestrator.shouldHandoff intent tools isOpen);
      split; congruence.
Qed.

Lemma turn_without_handoff_iff_witness :
  let gatherContext := fun (_ : Orchestrator.Intent) (_ : jsstring) =>
                         [Orchestrator.mkToolResult "knowledge_base"
                            "Found 2 relevant documents"] in
  exists result,
    snd (Orchestrator.processCall (u "prompt") toLowerCase_ascii gatherContext
           (fun _ _ _ => Ok (u "ok")) true (u "call-1")
           (u "What is the price of a repair?") ∅) = Ok result
    /\ Orchestrator.Turn.needsHandoff result = false.
Proof.
  intros gatherContext. eexists. split; [vm_compute; reflexivity |].
  refine (proj2 (proj1 (turn_without_handoff_iff (u "prompt") toLowerCase_ascii
                          gatherContext (fun _ _ _ => Ok (u "ok")) true ∅
                          (u "call-1") (u "What is the price of a repair?")
                          _ _)) _).
  - vm_compute. reflexivity.
  - split; [| split; [| split]].
    + eexists. split; [cbn; right; left; reflexivity |]. vm_compute. lia.
    + discriminate.
    + discriminate.
    + left. reflexivity.
Defined.

(** ** Conversation summary and turn counter *)

Section Summary.

Import Orchestrator.

Variable systemPrompt : jsstring.

Lemma transcript_snoc (turns : list (jsstring * jsstring)) (input reply : jsstring) :
  transcript systemPrompt (turns ++ [(input, reply)])
  = transcript systemPrompt turns
    ++ [mkMessage "user" input; mkMessage "assistant" reply].
Proof.
  unfold transcript. rewrite List.flat_map_app. reflexivity.
Qed.

Lemma transcript_users (turns : list (jsstring * jsstring)) (extra : list Message) :
  List.filter (fun m => String.eqb (role m) "user")
    (transcript systemPrompt turns ++ extra)
  = List.map (fun t => mkMessage "user" (fst t)) turns
    ++ List.filter (fun m => String.eqb (role m) "user") extra.
Proof.
  unfold transcript. cbn [app List.filter role String.eqb Ascii.eqb Bool.eqb].
  induction turns as [|t turns IH]; simpl; [reflexivity |].
  rewrite IH. reflexivity.
Qed.

Lemma transcript_assistants (turns : list (jsstring * jsstring)) (extra : list Message) :
  List.filter (fun m => String.eqb (role m) "assistant")
    (transcript systemPrompt turns ++ extra)
  = List.map (fun t => mkMessage "assistant" (snd t)) turns
    ++ List.filter (fun m => String.eqb (role m) "assistant") extra.
Proof.
  unfold transcript. cbn [app List.filter role String.eqb Ascii.eqb Bool.eqb].
  induction turns as [|t turns IH]; simpl; [reflexivity |].
  rewrite IH. reflexivity.
Qed.

Lemma transcript_not_system (turns : list (jsstring * jsstring)) (extra : list Message) :
  List.length
    (List.filter (fun m => negb (String.eqb (role m) "system"))
       (transcript systemPrompt turns ++ extra))
  = 2 * List.length turns
    + List.length (List.filter (fun m => negb (String.eqb (role m) "system")) extra).
Proof.
  unfold transcript.
  cbn [app List.filter role String.eqb Ascii.eqb Bool.eqb negb].
  induction turns as [|t turns IH]; simpl; [reflexivity |].
  rewrite IH. lia.
Qed.

Lemma half_of_nat (n k : nat) :
  (inject_Z (Z.of_nat (2 * n + k)) / 2 == inject_Z (Z.of_nat n) + inject_Z (Z.of_nat k) / 2)%Q.
Proof.
  unfold Qeq, Qdiv, Qmult, Qplus, Qinv, inject_Z. simpl. lia.
Qed.

End Summary.

(** On a call whose earlier turns all completed (or that has no history
    yet), a completed turn leaves the history in the same shape with one
    more exchange; the turn reports the number of exchanges as
    [conversationTurns]; and [getConversationSummary] then gives that
    number of turns, the user inputs in order and the replies in
    order. *)
Theorem completed_turns_are_counted
    (systemPrompt : jsstring) (toLowerCase : jsstring -> jsstring)
    (gatherContext : Orchestrator.Intent -> jsstring -> list Orchestrator.ToolResult)
    (generateResponse :
       list Orchestrator.Message -> jsstring -> Orchestrator.Intent -> Result jsstring)
    (isOpen : bool)
    (h : gmap (list N) (list Orchestrator.Message)) (callId userInput : jsstring)
    (turns : list (jsstring * jsstring)) (result : Orchestrator.Turn.t) :
  (h !! callId = None /\ turns = []
   \/ h !! callId = Some (Orchestrator.transcript systemPrompt turns)) ->
  let r := Orchestrator.processCall systemPrompt toLowerCase gatherContext
             generateResponse isOpen callId userInput h in
  snd r = Ok result ->
  let turns' := turns ++ [(userInput, Orchestrator.Turn.response result)] in
  fst r !! callId = Some (Orchestrator.transcript systemPrompt turns')
  /\ (Orchestrator.Turn.conversationTurns result
      == inject_Z (Z.of_nat (List.length turns')))%Q
  /\ Orchestrator.getConversationSummary callId (fst r)
     = Some (Orchestrator.ConversationSummary.mk (List.length turns')
               (List.map fst turns') (List.map snd turns')).
Proof.
  intros Hh r Hres turns'.
  assert (Hstart : default [Orchestrator.mkMessage "system" systemPrompt] (h !! callId)
                   = Orchestrator.transcript systemPrompt turns).
  { destruct Hh as [[-> ->] | ->]; reflexivity. }
  pose proof (processCall_completed systemPrompt toLowerCase gatherContext
                generateResponse isOpen callId userInput h result Hres) as Hhist.
  fold r in Hhist. rewrite Hstart, <- transcript_snoc in Hhist. fold turns' in Hhist.
  split; [exact Hhist |]. split.
  - subst r. unfold Orchestrator.processCall in Hres.
    rewrite processCall_start, Hstart in Hres.
    remember (Orchestrator.transcript systemPrompt turns) as T eqn:HT in Hres.
    destruct (generateResponse _ _ _) as [reply | msg]; cbn [snd] in Hres;
      [| discriminate].
    injection Hres as <-. cbn [Orchestrator.Turn.conversationTurns].
    unfold Orchestrator.conversationTurnsOf. subst T.
    rewrite <- app_assoc, transcript_not_system. cbn [app List.filter List.length
      Orchestrator.role String.eqb Ascii.eqb Bool.eqb negb].
    rewrite half_of_nat. subst turns'. rewrite List.length_app. cbn [List.length].
    rewrite Nat2Z.inj_add. unfold Qeq, Qdiv, Qmult, Qplus, Qinv, inject_Z. simpl. lia.
  - unfold Orchestrator.getConversationSummary. rewrite Hhist.
    rewrite <- (app_nil_r (Orchestrator.transcript systemPrompt turns')).
    rewrite transcript_users, transcript_assistants. cbn [List.filter].
    rewrite !app_nil_r, !List.length_map, !List.map_map. reflexivity.
Qed.

Lemma completed_turns_are_counted_witness :
  let r := Orchestrator.processCall (u "prompt") toLowerCase_ascii
             (fun _ _ => []) (fun _ _ _ => Ok (u "ok")) true
             (u "call-1") (u "bye")
             {[ u "call-1" := Orchestrator.transcript (u "prompt")
                                [(u "hello", u "hi")] ]} in
  Orchestrator.getConversationSummary (u "call-1") (fst r)
  = Some (Orchestrator.ConversationSummary.mk 2 [u "hello"; u "bye"]
            [u "hi"; u "ok"]).
Proof.
  intros r. destruct (snd r) as [result | msg] eqn:Hres;
    [| vm_compute in Hres; discriminate Hres].
  unfold r in Hres.
  destruct (completed_turns_are_counted (u "prompt") toLowerCase_ascii
              (fun _ _ => []) (fun _ _ _ => Ok (u "ok")) true
              {[ u "call-1" := Orchestrator.transcript (u "prompt")
                                 [(u "hello", u "hi")] ]}
              (u "call-1") (u "bye") [(u "hello", u "hi")] result
              (or_intror (lookup_singleton_eq _ _)) Hres) as (_ & _ & Hsum).
  assert (Hresp : Orchestrator.Turn.response result = u "ok")
    by (vm_compute in Hres; injection Hres as <-; reflexivity).
  unfold r. rewrite Hsum, Hresp. reflexivity.
Defined.

(** When the language-model call of a turn throws, the user message
    stays in the history without a reply: the summary then counts one
    turn more than there are replies, and the next completed turn
    reports a [conversationTurns] that is not a whole number. *)
Theorem failed_turn_is_half_counted
    (systemPrompt : jsstring) (toLowerCase : jsstring -> jsstring)
    (gatherContext : Orchestrator.Intent -> jsstring -> list Orchestrator.ToolResult)
    (generateResponse :
       list Orchestrator.Message -> jsstring -> Orchestrator.Intent -> Result jsstring)
    (isOpen : bool)
    (h : gmap (list N) (list Orchestrator.Message))
    (callId input1 input2 : jsstring)
    (turns : list (jsstring * jsstring)) (msg : string)
    (result : Orchestrator.Turn.t) :
  h !! callId = Some (Orchestrator.transcript systemPrompt turns) ->
  let r1 := Orchestrator.processCall systemPrompt toLowerCase gatherContext
              generateResponse isOpen callId input1 h in
  let r2 := Orchestrator.processCall systemPrompt toLowerCase gatherContext
              generateResponse isOpen callId input2 (fst r1) in
  snd r1 = Throw msg ->
  Orchestrator.getConversationSummary callId (fst r1)
    = Some (Orchestrator.ConversationSummary.mk (S (List.length turns))
              (List.map fst turns ++ [input1]) (List.map snd turns))
  /\ (snd r2 = Ok result ->
      (Orchestrator.Turn.conversationTurns result
       == inject_Z (Z.of_nat (List.length turns)) + (3 # 2))%Q).
Proof.
  intros Hh r1 r2 Hfail.
  pose proof (processCall_failed systemPrompt toLowerCase gatherContext
                generateResponse isOpen callId input1 h msg Hfail) as Hhist.
  fold r1 in Hhist. rewrite Hh in Hhist. cbn [from_option id] in Hhist.
  split.
  - unfold Orchestrator.getConversationSummary. rewrite Hhist.
    cbv beta iota zeta.
    rewrite transcript_users, transcript_assistants.
    cbn [List.filter Orchestrator.role String.eqb Ascii.eqb Bool.eqb].
    rewrite !List.length_app, !List.map_app, !List.length_map, !List.map_map,
      app_nil_r.
    cbn [List.length List.map Orchestrator.content]. f_equal. f_equal. lia.
  - intros Hres. subst r2. unfold Orchestrator.processCall in Hres.
    rewrite processCall_start, Hhist in Hres. cbn [from_option id] in Hres.
    remember (Orchestrator.transcript systemPrompt turns) as T eqn:HT in Hres.
    destruct (generateResponse _ _ _) as [reply | msg']; cbn [snd] in Hres;
      [| discriminate].
    injection Hres as <-. cbn [Orchestrator.Turn.conversationTurns].
    unfold Orchestrator.conversationTurnsOf. subst T.
    rewrite <- !app_assoc, transcript_not_system.
    cbn [app List.filter List.length Orchestrator.role String.eqb Ascii.eqb
           Bool.eqb negb].
    rewrite half_of_nat. unfold Qeq, Qdiv, Qmult, Qplus, Qinv, inject_Z. simpl. lia.
Qed.

Lemma failed_turn_is_half_counted_witness :
  let generateResponse :=
    fun (messages : list Orchestrator.Message) (_ : jsstring)
        (_ : Orchestrator.Intent) =>
      if List.length messages =? 2 then Throw "timeout" else Ok (u "ok") in
  let h : gmap (list N) (list Orchestrator.Message) :=
    {[ u "call-1" := Orchestrator.transcript (u "prompt") [] ]} in
  let r1 := Orchestrator.processCall (u "prompt") toLowerCase_ascii
              (fun _ _ => []) generateResponse true (u "call-1") (u "hello") h in
  Orchestrator.getConversationSummary (u "call-1") (fst r1)
  = Some (Orchestrator.ConversationSummary.mk 1 [u "hello"] []).
Proof.
  intros generateResponse h r1.
  refine (proj1 (failed_turn_is_half_counted (u "prompt") toLowerCase_ascii
                   (fun _ _ => []) generateResponse true h (u "call-1")
                   (u "hello") (u "again") [] "timeout"
                   (Orchestrator.Turn.mk [] "" 0 [] false None [] false 0) _ _)).
  - apply lookup_singleton_eq.
  - vm_compute. reflexivity.
Defined.

(** ** Context gathering *)

Section GatherContext.

Import Orchestrator OrchestratorTools.

Variable ragQuery :
  jsstring -> RAGQuery.QueryOptions.t -> Result RAGQuery.QueryResult.t.
Variable findAvailableSlots : Result nat.
Variable getContactByPhone : jsstring -> Result (option string).

(** The options that [gatherContext] passes to the knowledge base. *)
Local Abbreviation knowledgeOptions := (fun context : CallContext.t =>
  RAGQuery.QueryOptions.mk (Some 3) None
    (Value (match CallContext.accessLevel context with
            | Value (c :: s) => c :: s
            | _ => u "public"
            end))
    Undefined Undefined).

Lemma calendarStep_tools intent results :
  List.map tool (fst (calendarStep findAvailableSlots intent results))
  = List.map tool results
    ++ (if snd (calendarStep findAvailableSlots intent results)
        then (if String.eqb (name intent) "appointment"
              then ["check_calendar"%string] else [])
        else []).
Proof.
  unfold calendarStep.
  destruct (String.eqb (name intent) "appointment");
    [destruct findAvailableSlots |]; cbn [fst snd];
    rewrite ?List.map_app, ?app_nil_r; reflexivity.
Qed.

Lemma contactStep_tools intent context results :
  exists extra,
    List.map tool (fst (contactStep getContactByPhone intent context results))
    = List.map tool results ++ extra
    /\ (extra = [] \/ extra = ["search_contacts"%string]).
Proof.
  unfold contactStep.
  destruct (CallContext.fromNumber context) as [[|c number] |];
    try (exists []; rewrite app_nil_r; auto; fail).
  destruct (negb _); [| exists []; rewrite app_nil_r; auto].
  destruct (getContactByPhone (c :: number)) as [[displayName |] | msg];
    cbn [fst]; try (exists []; rewrite app_nil_r; auto; fail).
  exists ["search_contacts"%string]. rewrite List.map_app. auto.
Qed.

(** The tools of [gatherContext]: what the knowledge step found,
    followed by tools other than the knowledge base. *)
Lemma gatherContext_tools intent query context :
  exists later,
    List.map tool
      (gatherContext ragQuery findAvailableSlots getContactByPhone
         intent query context)
    = List.map tool (fst (knowledgeStep ragQuery intent query context [])) ++ later
    /\ ~ In "knowledge_base"%string later
    /\ (snd (knowledgeStep ragQuery intent query context []) = false -> later = []).
Proof.
  unfold gatherContext.
  destruct (snd (knowledgeStep ragQuery intent query context [])).
  - destruct (snd (calendarStep findAvailableSlots intent _)) eqn:Hc.
    + destruct (contactStep_tools intent context
                  (fst (calendarStep findAvailableSlots intent
                          (fst (knowledgeStep ragQuery intent query context [])))))
        as (extra & -> & Hextra).
      rewrite calendarStep_tools, Hc, <- app_assoc. eexists. split; [reflexivity |].
      split; [| discriminate].
      intros Hin. apply in_app_or in Hin. destruct Hin as [Hin | Hin].
      * destruct (String.eqb (name intent) "appointment"); simpl in Hin;
          intuition discriminate.
      * destruct Hextra as [-> | ->]; simpl in Hin; intuition discriminate.
    + rewrite calendarStep_tools, Hc. exists []. split; [reflexivity |].
      split; [intros [] | discriminate].
  - exists []. rewrite app_nil_r. split; [reflexivity |]. split; [intros [] | auto].
Qed.

Lemma knowledgeStep_tools intent query context :
  In "knowledge_base"%string
     (List.map tool (fst (knowledgeStep ragQuery intent query context [])))
  <-> name intent <> "agent_request"%string
      /\ exists answer,
           ragQuery query (knowledgeOptions context) = Ok answer
           /\ RAGQuery.QueryResult.hasResults answer = true.
Proof.
  unfold knowledgeStep.
  destruct (String.eqb_spec (name intent) "agent_request") as [Ha | Ha].
  - cbn. split; [intros [] | intros [H _]; contradiction].
  - destruct (ragQuery query _) as [answer | msg] eqn:Hq.
    + destruct (RAGQuery.QueryResult.hasResults answer) eqn:Hh; cbn.
      * split; [intros _; split; [exact Ha | eauto] | auto].
      * split; [intros [] |]. intros [_ (a & [= <-] & Ha')]. congruence.
    + cbn. split; [intros [] |]. intros [_ (a & Hq' & _)]. discriminate.
Qed.

Lemma gatherContext_knowledge intent query context :
  In "knowledge_base"%string
     (List.map tool
        (gatherContext ragQuery findAvailableSlots getContactByPhone
           intent query context))
  <-> name intent <> "agent_request"%string
      /\ exists answer,
           ragQuery query (knowledgeOptions context) = Ok answer
           /\ RAGQuery.QueryResult.hasResults answer = true.
Proof.
  destruct (gatherContext_tools intent query context) as (later & -> & Hlater & _).
  rewrite <- knowledgeStep_tools. split.
  - intros Hin. apply in_app_or in Hin. destruct Hin; [assumption | contradiction].
  - intros Hin. apply in_or_app. left. exact Hin.
Qed.

Lemma gatherContext_knowledge_error intent query context msg :
  name intent <> "agent_request"%string ->
  ragQuery query (knowledgeOptions context) = Throw msg ->
  gatherContext ragQuery findAvailableSlots getContactByPhone intent query context
  = [].
Proof.
  intros Ha Hq. unfold gatherContext, knowledgeStep.
  destruct (String.eqb_spec (name intent) "agent_request"); [contradiction |].
  rewrite Hq. reflexivity.
Qed.

End GatherContext.

(** The knowledge base is among the tools that [gatherContext] returns
    exactly when the intent is not "agent_request" and the knowledge
    base query, made with topK 3 and the caller's access level (or
    "public"), returned with results; errors of the calendar or of the
    contacts lookup, which come later, do not remove it. *)
Theorem gatherContext_knowledge_base_iff
    (ragQuery : jsstring -> RAGQuery.QueryOptions.t -> Result RAGQuery.QueryResult.t)
    (findAvailableSlots : Result nat)
    (getContactByPhone : jsstring -> Result (option string))
    (intent : Orchestrator.Intent) (query : jsstring)
    (context : OrchestratorTools.CallContext.t) :
  let options :=
    RAGQuery.QueryOptions.mk (Some 3) None
      (Value (match OrchestratorTools.CallContext.accessLevel context with
              | Value (c :: s) => c :: s
              | _ => u "public"
              end))
      Undefined Undefined in
  In "knowledge_base"%string
     (List.map Orchestrator.tool
        (OrchestratorTools.gatherContext ragQuery findAvailableSlots
           getContactByPhone intent query context))
  <-> Orchestrator.name intent <> "agent_request"%string
      /\ exists answer,
           ragQuery query options = Ok answer
           /\ RAGQuery.QueryResult.hasResults answer = true.
Proof.
  intros options. apply gatherContext_knowledge.
Qed.

(** The three lookups share one [try] block: when the knowledge base
    query throws, [gatherContext] returns no tool result at all,
    whatever the calendar and the contacts lookup would answer, even for
    an appointment request of a known caller. *)
Theorem gatherContext_error_skips_later_tools
    (ragQuery : jsstring -> RAGQuery.QueryOptions.t -> Result RAGQuery.QueryResult.t)
    (findAvailableSlots : Result nat)
    (getContactByPhone : jsstring -> Result (option string))
    (intent : Orchestrator.Intent) (query : jsstring)
    (context : OrchestratorTools.CallContext.t) (msg : string) :
  Orchestrator.name intent <> "agent_request"%string ->
  ragQuery query
    (RAGQuery.QueryOptions.mk (Some 3) None
       (Value (match OrchestratorTools.CallContext.accessLevel context with
               | Value (c :: s) => c :: s
               | _ => u "public"
               end))
       Undefined Undefined) = Throw msg ->
  OrchestratorTools.gatherContext ragQuery findAvailableSlots getContactByPhone
    intent query context = [].
Proof.
  intros Ha Hq. eapply gatherContext_knowledge_error; eassumption.
Qed.

Lemma gatherContext_error_skips_later_tools_witness :
  let intent := Orchestrator.mkIntent "appointment" (6 # 10) [] in
  let context := OrchestratorTools.CallContext.mk Undefined (Some (u "+33123456789")) in
  OrchestratorTools.gatherContext (fun _ _ => Throw "database unreachable")
    (Ok 4) (fun _ => Ok (Some "Alice"%string)) intent (u "book a slot") context
  = [].
Proof.
  intros intent context.
  refine (gatherContext_error_skips_later_tools
            (fun _ _ => Throw "database unreachable")
            (Ok 4) (fun _ => Ok (Some "Alice"%string))
            intent (u "book a slot") context "database unreachable" _ _).
  - discriminate.
  - reflexivity.
Defined.

(** The same request when the knowledge base answers: all three tools
    report, in the order of the code. *)
Example gatherContext_ex :
  let intent := Orchestrator.mkIntent "appointment" (6 # 10) [] in
  let context := OrchestratorTools.CallContext.mk Undefined (Some (u "+33123456789")) in
  let answer := RAGQuery.QueryResult.mk (u "book a slot")
                  [VectorStore.Hit.mk 1 1 0 [] [] [] None None (VectorStore.Number 1) []]
                  [] true 1 in
  OrchestratorTools.gatherContext (fun _ _ => Ok answer)
    (Ok 12) (fun _ => Ok (Some "Alice"%string)) intent (u "book a slot") context
  = [Orchestrator.mkToolResult "knowledge_base" "Found 1 relevant documents";
     Orchestrator.mkToolResult "check_calendar" "12 available time slots today";
     Orchestrator.mkToolResult "search_contacts" "Caller identified: Alice"].
Proof. reflexivity. Qed.

(** When the knowledge base query of a turn throws or has no result, the
    turn is handed off, whatever the utterance. *)
Theorem turn_without_knowledge_is_handed_off
    (systemPrompt : jsstring) (toLowerCase : jsstring -> jsstring)
    (ragQuery : jsstring -> RAGQuery.QueryOptions.t -> Result RAGQuery.QueryResult.t)
    (findAvailableSlots : Result nat)
    (getContactByPhone : jsstring -> Result (option string))
    (context : OrchestratorTools.CallContext.t)
    (generateResponse :
       list Orchestrator.Message -> jsstring -> Orchestrator.Intent -> Result jsstring)
    (isOpen : bool)
    (h : gmap (list N) (list Orchestrator.Message)) (callId userInput : jsstring)
    (result : Orchestrator.Turn.t) :
  (forall options answer,
      ragQuery userInput options = Ok answer ->
      RAGQuery.QueryResult.hasResults answer = false) ->
  snd (Orchestrator.processCall systemPrompt toLowerCase
         (fun intent query =>
            OrchestratorTools.gatherContext ragQuery findAvailableSlots
              getContactByPhone intent query context)
         generateResponse isOpen callId userInput h) = Ok result ->
  Orchestrator.Turn.needsHandoff result = true
  /\ ~ In "knowledge_base"%string (Orchestrator.Turn.toolsUsed result)
  /\ exists reason, Orchestrator.Turn.handoffReason result = Some reason.
Proof.
  intros Hrag. unfold Orchestrator.processCall.
  destruct (generateResponse _ _ _) as [reply | msg]; cbn [snd]; [| discriminate].
  intros [= <-].
  cbn [Orchestrator.Turn.needsHandoff Orchestrator.Turn.toolsUsed
         Orchestrator.Turn.handoffReason].
  set (intent := Orchestrator.detectIntent toLowerCase userInput).
  set (tools := OrchestratorTools.gatherContext ragQuery findAvailableSlots
                  getContactByPhone intent userInput context).
  assert (Hno : ~ In "knowledge_base"%string (List.map Orchestrator.tool tools)).
  { intros Hin. apply gatherContext_knowledge in Hin.
    destruct Hin as [_ (answer & Hq & Hh)]. rewrite (Hrag _ _ Hq) in Hh.
    discriminate. }
  assert (Hk : Orchestrator.hasKnowledge tools = false).
  { destruct (Orchestrator.hasKnowledge tools) eqn:Hk; [| reflexivity].
    apply hasKnowledge_iff in Hk. contradiction. }
  assert (Hs : Orchestrator.shouldHandoff intent tools isOpen = true).
  { unfold Orchestrator.shouldHandoff. rewrite Hk.
    destruct (detectIntent_cases toLowerCase userInput)
      as [(_ & _ & Hlow) | (_ & Hname & _)]; fold intent in Hlow || fold intent in Hname.
    - rewrite Hlow. destruct (String.eqb _ _); reflexivity.
    - destruct (String.eqb_spec (Orchestrator.name intent) "general_inquiry");
        [contradiction |].
      cbn [negb andb].
      destruct (String.eqb _ _); [reflexivity |].
      destruct (Orchestrator.lowConfidence intent); [reflexivity |].
      destruct (_ && _); reflexivity. }
  rewrite Hs. split; [reflexivity |]. split; [exact Hno | eauto].
Qed.

Lemma turn_without_knowledge_is_handed_off_witness :
  exists result,
    snd (Orchestrator.processCall (u "prompt") toLowerCase_ascii
           (fun intent query =>
              OrchestratorTools.gatherContext
                (fun _ _ => Throw "database unreachable") (Ok 4) (fun _ => Ok None)
                intent query (OrchestratorTools.CallContext.mk Undefined None))
           (fun _ _ _ => Ok (u "ok")) false (u "call-1")
           (u "What is the price of a repair?") ∅) = Ok result
    /\ Orchestrator.Turn.needsHandoff result = true.
Proof.
  eexists. split; [vm_compute; reflexivity |].
  refine (proj1 (turn_without_knowledge_is_handed_off (u "prompt") toLowerCase_ascii
                   (fun _ _ => Throw "database unreachable") (Ok 4)
                   (fun _ => Ok None)
                   (OrchestratorTools.CallContext.mk Undefined None)
                   (fun _ _ _ => Ok (u "ok")) false ∅ (u "call-1")
                   (u "What is the price of a repair?") _ _ _)).
  - intros options answer Hq. discriminate Hq.
  - vm_compute. reflexivity.
Defined.

(** ** Sources and context of a retrieval *)

Section Sources.

Import RAGQuery.

Lemma hasSource_iff (sources : list SourceRef.t) (documentId : nat) :
  hasSource sources documentId = true
  <-> In documentId (List.map SourceRef.documentId sources).
Proof.
  unfold hasSource. rewrite existsb_exists, List.in_map_iff. split.
  - intros [s [Hin Hs]]. apply Nat.eqb_eq in Hs. eauto.
  - intros [s [Hs Hin]]. exists s. split; [exact Hin |]. apply Nat.eqb_eq. exact Hs.
Qed.

(** After one result, its document id is among the sources, and the
    sources seen before are still there. *)
Lemma addSource_ids (acc : list SourceRef.t) (r : VectorStore.Hit.t) (d : nat) :
  In d (List.map SourceRef.documentId (addSource acc r))
  <-> In d (List.map SourceRef.documentId acc) \/ d = VectorStore.Hit.documentId r.
Proof.
  unfold addSource.
  destruct (hasSource acc (VectorStore.Hit.documentId r)) eqn:Hhas.
  - apply hasSource_iff in Hhas. split; [auto |]. intros [H | ->]; assumption.
  - rewrite List.map_app, List.in_app_iff. simpl. intuition.
Qed.

Lemma getSources_loop_ids (results : list VectorStore.Hit.t)
    (acc : list SourceRef.t) (d : nat) :
  In d (List.map SourceRef.documentId (List.fold_left addSource results acc))
  <-> In d (List.map SourceRef.documentId acc)
      \/ In d (List.map VectorStore.Hit.documentId results).
Proof.
  revert acc. induction results as [|r results IH]; intros acc; simpl.
  - tauto.
  - rewrite IH, addSource_ids. intuition.
Qed.

Lemma getSources_loop_NoDup (results : list VectorStore.Hit.t)
    (acc : list SourceRef.t) :
  List.NoDup (List.map SourceRef.documentId acc) ->
  List.NoDup (List.map SourceRef.documentId (List.fold_left addSource results acc)).
Proof.
  revert acc. induction results as [|r results IH]; intros acc Hnd; simpl;
    [exact Hnd |].
  apply IH. unfold addSource.
  destruct (hasSource acc (VectorStore.Hit.documentId r)) eqn:Hhas; [exact Hnd |].
  rewrite List.map_app. simpl. apply List.NoDup_app; [exact Hnd | |].
  - constructor; [intros [] | constructor].
  - intros d Hd [<- | []]. apply hasSource_iff in Hd. congruence.
Qed.

Lemma getSources_loop_first (results : list VectorStore.Hit.t)
    (acc : list SourceRef.t) (s : SourceRef.t) :
  In s (List.fold_left addSource results acc) ->
  In s acc
  \/ exists pre r post,
       results = pre ++ r :: post /\ s = toSourceRef r
       /\ ~ In (VectorStore.Hit.documentId r) (List.map VectorStore.Hit.documentId pre)
       /\ ~ In (VectorStore.Hit.documentId r) (List.map SourceRef.documentId acc).
Proof.
  revert acc. induction results as [|r results IH]; intros acc; simpl; [auto |].
  intros Hs. apply IH in Hs. destruct Hs as [Hs | Hs].
  - unfold addSource in Hs.
    destruct (hasSource acc (VectorStore.Hit.documentId r)) eqn:Hhas; [auto |].
    apply in_app_or in Hs. destruct Hs as [Hs | [<- | []]]; [auto |].
    right. exists [], r, results. repeat split; [intros [] |].
    intros Hc. apply hasSource_iff in Hc. congruence.
  - right. destruct Hs as (pre & r' & post & -> & -> & Hpre & Hacc).
    exists (r :: pre), r', post. repeat split.
    + simpl. intros [He | Hin]; [| contradiction].
      apply Hacc, addSource_ids. right. symmetry. exact He.
    + intros Hc. apply Hacc, addSource_ids. left. exact Hc.
Qed.

Lemma contextParts_In (results : list VectorStore.Hit.t) (r : VectorStore.Hit.t)
    (start : nat) :
  In r results -> exists index, In (contextPart index r) (contextParts start results).
Proof.
  revert start. induction results as [|r' results IH]; intros start; [intros [] |].
  intros [<- | Hin].
  - exists start. left. reflexivity.
  - destruct (IH (S start) Hin) as [index Hindex]. exists index. right. exact Hindex.
Qed.

End Sources.

(** [getSources] returns one source per document id that occurs in the
    results: the ids of the sources are distinct, they are exactly the
    ids of the results, and each source is built from the first result
    that carries its id. *)
Theorem getSources_first_occurrence (results : list VectorStore.Hit.t) :
  List.NoDup (List.map RAGQuery.SourceRef.documentId (RAGQuery.getSources results))
  /\ (forall d,
        In d (List.map RAGQuery.SourceRef.documentId (RAGQuery.getSources results))
        <-> In d (List.map VectorStore.Hit.documentId results))
  /\ Forall (fun s =>
               exists pre r post,
                 results = pre ++ r :: post
                 /\ s = RAGQuery.toSourceRef r
                 /\ ~ In (VectorStore.Hit.documentId r)
                      (List.map VectorStore.Hit.documentId pre))
            (RAGQuery.getSources results).
Proof.
  unfold RAGQuery.getSources. split; [| split].
  - apply getSources_loop_NoDup. constructor.
  - intros d. rewrite getSources_loop_ids. simpl. tauto.
  - apply List.Forall_forall. intros s Hs.
    apply getSources_loop_first in Hs.
    destruct Hs as [[] | (pre & r & post & H1 & H2 & H3 & _)].
    exists pre, r, post. auto.
Qed.

(** The context text is empty exactly when there is no result, and it
    holds the title and the content of every result as they are. *)
Theorem formatContext_holds_every_result (results : list VectorStore.Hit.t) :
  (RAGQuery.formatContext results = [] <-> results = [])
  /\ Forall (fun r =>
               includes (RAGQuery.formatContext results) (VectorStore.Hit.content r)
               = true
               /\ includes (RAGQuery.formatContext results) (VectorStore.Hit.title r)
                  = true) results.
Proof.
  split.
  - destruct results as [|r results]; [tauto |].
    split; [| discriminate]. unfold RAGQuery.formatContext.
    cbn [RAGQuery.contextParts]. intros H. exfalso.
    assert (Hpart : exists c t, RAGQuery.contextPart 0 r = c :: t)
      by (unfold RAGQuery.contextPart; eexists; eexists; reflexivity).
    destruct Hpart as (c & t & Hpart). rewrite Hpart in H.
    destruct (RAGQuery.contextParts 1 results); discriminate H.
  - apply List.Forall_forall. intros r Hr.
    destruct (contextParts_In results r 0 Hr) as [index Hpart].
    unfold RAGQuery.formatContext. destruct results as [|r0 results]; [destruct Hr |].
    destruct (join_In_split ([10; 10]%N ++ u "---" ++ [10; 10]%N) _ _ Hpart)
      as (pre & post & ->).
    unfold RAGQuery.contextPart. split; apply includes_spec.
    + exists (pre ++ u "[Source " ++ numberToString (index + 1) ++ u ": "
                ++ VectorStore.Hit.title r ++ u " - "
                ++ RAGQuery.showNullable (VectorStore.Hit.category r) ++ u "]"
                ++ [10%N]), post.
      rewrite <- !app_assoc. reflexivity.
    + exists (pre ++ u "[Source " ++ numberToString (index + 1) ++ u ": "),
        (u " - " ++ RAGQuery.showNullable (VectorStore.Hit.category r) ++ u "]"
           ++ [10%N] ++ VectorStore.Hit.content r ++ post).
      rewrite <- !app_assoc. reflexivity.
Qed.

(** ** Retrieval: what a query returns *)

Section QueryResults.

Import VectorStore.

Variable cosineDistance : Vector -> Vector -> Float8.
Variable configTopK : nat.
Variable configThreshold : Q.
Variable documents : list Document.t.
Variable document_chunks : list ChunkRow.t.
Variable queryEmbedding : Vector.
Variable options : SearchOptions.t.

Local Abbreviation hitsOf :=
  (searchSimilar cosineDistance configTopK configThreshold documents
     document_chunks queryEmbedding options).

(** The join pairs a chunk with the documents that carry its id. *)
Lemma joined_In (row : ChunkRow.t * Document.t) :
  In row (joined documents document_chunks)
  <-> In (fst row) document_chunks /\ In (snd row) documents
      /\ Document.id (snd row) = ChunkRow.document_id (fst row).
Proof.
  unfold joined. rewrite List.in_flat_map. split.
  - intros [dc [Hdc Hrow]]. apply List.in_map_iff in Hrow.
    destruct Hrow as [d [<- Hd]]. apply List.filter_In in Hd.
    destruct Hd as [Hd Hid]. apply Nat.eqb_eq in Hid. auto.
  - intros (Hdc & Hd & Hid). exists (fst row). split; [exact Hdc |].
    apply List.in_map_iff. exists (snd row). split; [destruct row; reflexivity |].
    apply List.filter_In. split; [exact Hd |]. apply Nat.eqb_eq. exact Hid.
Qed.

Lemma searchSimilar_rows (hit : Hit.t) :
  In hit hitsOf ->
  exists row,
    In row (joined documents document_chunks)
    /\ hit = toHit cosineDistance queryEmbedding row
    /\ whereClause cosineDistance configThreshold queryEmbedding options row = true.
Proof.
  unfold searchSimilar. intros Hhit. apply List.in_map_iff in Hhit.
  destruct Hhit as [row [<- Hrow]]. apply searchRows_where in Hrow.
  exists row. tauto.
Qed.

(** Every hit passed the threshold test of the database: its similarity
    is NaN, or a number that reaches the threshold. *)
Lemma searchSimilar_threshold (hit : Hit.t) :
  In hit hitsOf ->
  pgLe (Number (thresholdOf configThreshold options)) (Hit.similarity hit) = true.
Proof.
  intros Hhit. destruct (searchSimilar_rows hit Hhit) as (row & _ & -> & Hw).
  unfold whereClause in Hw. rewrite !andb_true_iff in Hw. apply Hw.
Qed.

Lemma searchSimilar_sorted :
  StronglySorted (fun a b => pgLe (Hit.similarity b) (Hit.similarity a) = true)
    hitsOf.
Proof.
  unfold searchSimilar, searchRows.
  apply map_StronglySorted. cbn [toHit Hit.similarity].
  apply firstn_StronglySorted.
  exact (orderBySimilarityDesc_Sorted cosineDistance queryEmbedding _).
Qed.

Lemma searchSimilar_length : List.length hitsOf <= topKOf configTopK options.
Proof.
  unfold searchSimilar, searchRows.
  rewrite List.length_map, List.length_firstn. apply Nat.le_min_l.
Qed.

(** In a list in the descending order of the database, the NaN entries
    come first: whatever stands before a NaN is NaN. *)
Lemma sorted_NaN_first (hits : list Hit.t) :
  StronglySorted (fun a b => pgLe (Hit.similarity b) (Hit.similarity a) = true) hits ->
  forall pre hit post,
    hits = pre ++ hit :: post -> Hit.similarity hit = NaN ->
    Forall (fun h => Hit.similarity h = NaN) pre.
Proof.
  intros Hsorted pre hit post -> Hnan. apply List.Forall_forall. intros h Hh.
  pose proof (StronglySorted_app_inv _ pre (hit :: post) Hsorted h hit Hh
                (or_introl eq_refl)) as Hle.
  cbv beta in Hle. rewrite Hnan in Hle. apply pgLe_NaN. exact Hle.
Qed.

(** After a first entry that is a number, every entry is a number and
    none is larger. *)
Lemma sorted_Number_first (first : Hit.t) (rest : list Hit.t) (s : Q) :
  StronglySorted (fun a b => pgLe (Hit.similarity b) (Hit.similarity a) = true)
    (first :: rest) ->
  Hit.similarity first = Number s ->
  Forall (fun h => exists q, Hit.similarity h = Number q /\ (q <= s)%Q)
    (first :: rest).
Proof.
  intros Hsorted Hfirst. constructor.
  - exists s. split; [exact Hfirst | apply Qle_refl].
  - inversion Hsorted as [|? ? _ Hall]; subst.
    eapply List.Forall_impl; [| exact Hall].
    intros h Hle. cbv beta in Hle. rewrite Hfirst in Hle.
    destruct (Hit.similarity h) as [|q]; [discriminate Hle |].
    exists q. split; [reflexivity |]. apply Qle_bool_iff. exact Hle.
Qed.

End QueryResults.

(** What [searchSimilar] returns, on similarities as the database holds
    them. Every hit passed the WHERE clause: a hit whose similarity is a
    number has at least the threshold. The hits are in the descending
    order of the database, in which the hits of similarity NaN come
    first and the numbers follow from high to low. There are at most
    topK hits, as many as topK allows among the matching rows. Each of
    the filters accessLevel, category and department that is supplied
    (a non-empty string; accessLevel is "public" when left out) holds as
    an equality on every returned row. *)
Theorem searchSimilar_database_order_and_filters
    (cosineDistance : VectorStore.Vector -> VectorStore.Vector -> VectorStore.Float8)
    (configTopK : nat) (configThreshold : Q)
    (documents : list VectorStore.Document.t)
    (document_chunks : list VectorStore.ChunkRow.t)
    (queryEmbedding : VectorStore.Vector)
    (options : VectorStore.SearchOptions.t) :
  let rows := VectorStore.searchRows cosineDistance configTopK configThreshold
                documents document_chunks queryEmbedding options in
  let hits := VectorStore.searchSimilar cosineDistance configTopK configThreshold
                documents document_chunks queryEmbedding options in
  let topK := default configTopK (VectorStore.SearchOptions.topK options) in
  let threshold := default configThreshold (VectorStore.SearchOptions.threshold options) in
  hits = List.map (VectorStore.toHit cosineDistance queryEmbedding) rows
  /\ Forall (fun hit =>
               match VectorStore.Hit.similarity hit with
               | VectorStore.NaN => True
               | VectorStore.Number s => (threshold <= s)%Q
               end) hits
  /\ StronglySorted
       (fun a b =>
          VectorStore.pgLe (VectorStore.Hit.similarity b)
            (VectorStore.Hit.similarity a) = true)
       hits
  /\ (forall pre hit post,
        hits = pre ++ hit :: post ->
        VectorStore.Hit.similarity hit = VectorStore.NaN ->
        Forall (fun h => VectorStore.Hit.similarity h = VectorStore.NaN) pre)
  /\ List.length hits <= topK
  /\ List.length hits
     = Nat.min topK
         (List.length
            (List.filter
               (VectorStore.whereClause cosineDistance configThreshold
                  queryEmbedding options)
               (VectorStore.joined documents document_chunks)))
  /\ (forall level,
        (VectorStore.SearchOptions.accessLevel options = Value level /\ level <> []
         \/ VectorStore.SearchOptions.accessLevel options = Undefined
            /\ level = u "public") ->
        Forall (fun row =>
                  VectorStore.Document.access_level (snd row) = Some level) rows)
  /\ (forall category,
        VectorStore.SearchOptions.category options = Value category ->
        category <> [] ->
        Forall (fun hit => VectorStore.Hit.category hit = Some category) hits)
  /\ (forall department,
        VectorStore.SearchOptions.department options = Value department ->
        department <> [] ->
        Forall (fun hit => VectorStore.Hit.department hit = Some department) hits).
Proof.
  intros rows hits topK threshold.
  assert (Hwhere := searchRows_where cosineDistance queryEmbedding configTopK
                      configThreshold documents document_chunks options).
  fold rows in Hwhere.
  assert (Hclause : forall row, In row rows ->
            VectorStore.columnMatches
              (VectorStore.Document.access_level (snd row))
              (VectorStore.activeFilter (VectorStore.accessLevelOf options)) = true
            /\ VectorStore.columnMatches
                 (VectorStore.Document.category (snd row))
                 (VectorStore.activeFilter
                    (VectorStore.SearchOptions.category options)) = true
            /\ VectorStore.columnMatches
                 (VectorStore.Document.department (snd row))
                 (VectorStore.activeFilter
                    (VectorStore.SearchOptions.department options)) = true).
  { intros row Hrow. destruct (Hwhere row Hrow) as [_ Hw].
    unfold VectorStore.whereClause in Hw.
    rewrite !andb_true_iff in Hw. tauto. }
  pose proof (searchSimilar_sorted cosineDistance configTopK configThreshold
                documents document_chunks queryEmbedding options) as Hsorted.
  fold hits in Hsorted.
  split; [reflexivity |].
  split.
  { apply List.Forall_forall. intros hit Hhit.
    apply searchSimilar_threshold in Hhit.
    destruct (VectorStore.Hit.similarity hit) as [|s]; [exact I |].
    apply Qle_bool_iff. exact Hhit. }
  split; [exact Hsorted |].
  split; [exact (sorted_NaN_first hits Hsorted) |].
  assert (Hlen : List.length hits
                 = Nat.min topK
                     (List.length
                        (List.filter
                           (VectorStore.whereClause cosineDistance configThreshold
                              queryEmbedding options)
                           (VectorStore.joined documents document_chunks)))).
  { unfold hits, VectorStore.searchSimilar, VectorStore.searchRows.
    rewrite List.length_map, List.length_firstn, orderBySimilarityDesc_length.
    reflexivity. }
  split; [rewrite Hlen; apply Nat.le_min_l |].
  split; [exact Hlen |].
  split; [| split].
  - intros level Hlevel. apply List.Forall_forall. intros row Hrow.
    apply columnMatches_Some.
    destruct (Hclause row Hrow) as (Ha & _).
    unfold VectorStore.accessLevelOf in Ha.
    destruct Hlevel as [[Hv Hne] | [Hv ->]]; rewrite Hv in Ha.
    + destruct level; [contradiction | exact Ha].
    + exact Ha.
  - intros category Hv Hne. apply List.Forall_forall. intros hit Hhit.
    apply List.in_map_iff in Hhit. destruct Hhit as [row [<- Hrow]].
    cbn [VectorStore.toHit VectorStore.Hit.category].
    apply columnMatches_Some.
    destruct (Hclause row Hrow) as (_ & Hc & _). rewrite Hv in Hc.
    destruct category; [contradiction | exact Hc].
  - intros department Hv Hne. apply List.Forall_forall. intros hit Hhit.
    apply List.in_map_iff in Hhit. destruct Hhit as [row [<- Hrow]].
    cbn [VectorStore.toHit VectorStore.Hit.department].
    apply columnMatches_Some.
    destruct (Hclause row Hrow) as (_ & _ & Hd). rewrite Hv in Hd.
    destruct department; [contradiction | exact Hd].
Qed.

(** Every result of a query is a stored chunk paired with its document,
    and that document has the access level asked for; when the caller
    gives no level, or the empty string, the level is "public". A query
    never returns a chunk of a document of another level. *)
Theorem query_hits_respect_access_level
    (embeddingClient : option (jsstring -> Result VectorStore.Vector))
    (cosineDistance : VectorStore.Vector -> VectorStore.Vector -> VectorStore.Float8)
    (configTopK : nat) (configThreshold : Q)
    (documents : list VectorStore.Document.t)
    (document_chunks : list VectorStore.ChunkRow.t)
    (question : jsstring) (options : RAGQuery.QueryOptions.t)
    (answer : RAGQuery.QueryResult.t) :
  RAGQuery.query embeddingClient cosineDistance configTopK configThreshold
    documents document_chunks question options = Ok answer ->
  Forall (fun hit =>
            exists chunk document,
              In chunk document_chunks /\ In document documents
              /\ VectorStore.Document.id document
                 = VectorStore.ChunkRow.document_id chunk
              /\ VectorStore.Hit.id hit = VectorStore.ChunkRow.id chunk
              /\ VectorStore.Hit.documentId hit = VectorStore.Document.id document
              /\ VectorStore.Hit.content hit = VectorStore.ChunkRow.content chunk
              /\ VectorStore.Hit.title hit = VectorStore.Document.title document
              /\ VectorStore.Document.access_level document
                 = Some (RAGQuery.accessLevelOrPublic
                           (RAGQuery.QueryOptions.accessLevel options)))
         (RAGQuery.QueryResult.results answer).
Proof.
  unfold RAGQuery.query.
  destruct (Embeddings.generateEmbedding VectorStore.Vector embeddingClient question)
    as [queryEmbedding | msg]; [| discriminate].
  intros [= <-]. cbn [RAGQuery.QueryResult.results].
  apply List.Forall_forall. intros hit Hhit.
  destruct (searchSimilar_rows _ _ _ _ _ _ _ hit Hhit) as (row & Hrow & -> & Hw).
  apply joined_In in Hrow. destruct Hrow as (Hchunk & Hdoc & Hid).
  exists (fst row), (snd row).
  cbn [VectorStore.toHit VectorStore.Hit.id VectorStore.Hit.documentId
         VectorStore.Hit.content VectorStore.Hit.title].
  repeat split; auto.
  unfold VectorStore.whereClause in Hw. rewrite !andb_true_iff in Hw.
  destruct Hw as [[[_ Ha] _] _].
  unfold VectorStore.accessLevelOf, RAGQuery.searchOptionsOf in Ha.
  cbn [VectorStore.SearchOptions.accessLevel] in Ha.
  apply columnMatches_Some.
  unfold RAGQuery.accessLevelOrPublic in *.
  destruct (RAGQuery.QueryOptions.accessLevel options) as [| | [|c s]]; exact Ha.
Qed.

(** A shop with a public and a confidential document: a caller that
    gives no access level gets the public chunk only. *)
Lemma query_hits_respect_access_level_witness :
  let distance := fun (v _ : VectorStore.Vector) =>
                    match v with
                    | d :: _ => VectorStore.Number d
                    | [] => VectorStore.Number 1
                    end in
  let documents :=
    [VectorStore.Document.mk 1 (u "Hours") (u "drive") (Some (u "faq")) None
       (Some (u "public"));
     VectorStore.Document.mk 2 (u "Salaries") (u "drive") (Some (u "hr")) None
       (Some (u "confidential"))] in
  let chunks :=
    [VectorStore.ChunkRow.mk 10 1 0 (u "We open at nine.") [2 # 10] (u "{}");
     VectorStore.ChunkRow.mk 13 2 0 (u "Pay day is the first.") [0 # 10] (u "{}")] in
  let options := RAGQuery.QueryOptions.mk None None Undefined Undefined Undefined in
  let answer :=
    RAGQuery.QueryResult.mk (u "when do you open")
      (VectorStore.searchSimilar distance 5 (7 # 10) documents chunks [1 # 1]
         (RAGQuery.searchOptionsOf 5 (7 # 10) options))
      (RAGQuery.formatContext
         (VectorStore.searchSimilar distance 5 (7 # 10) documents chunks [1 # 1]
            (RAGQuery.searchOptionsOf 5 (7 # 10) options)))
      true (8 # 10) in
  Forall (fun hit =>
            exists chunk document,
              In chunk chunks /\ In document documents
              /\ VectorStore.Document.id document
                 = VectorStore.ChunkRow.document_id chunk
              /\ VectorStore.Hit.id hit = VectorStore.ChunkRow.id chunk
              /\ VectorStore.Hit.documentId hit = VectorStore.Document.id document
              /\ VectorStore.Hit.content hit = VectorStore.ChunkRow.content chunk
              /\ VectorStore.Hit.title hit = VectorStore.Document.title document
              /\ VectorStore.Document.access_level document
                 = Some (RAGQuery.accessLevelOrPublic
                           (RAGQuery.QueryOptions.accessLevel options)))
         (RAGQuery.QueryResult.results answer).
Proof.
  intros distance documents chunks options answer.
  apply (query_hits_respect_access_level (Some (fun _ => Ok [1 # 1])) distance
           5 (7 # 10) documents chunks (u "when do you open") options answer).
  reflexivity.
Defined.

(** A threshold of zero and a result count of zero cannot be asked for:
    both are falsy for [||], so the query runs with the configured
    threshold and the configured count instead. With a threshold of
    zero every result still passed the configured threshold in the
    database, so its similarity is NaN or a number of at least the
    configured threshold. *)
Theorem query_zero_options_use_config
    (embeddingClient : option (jsstring -> Result VectorStore.Vector))
    (cosineDistance : VectorStore.Vector -> VectorStore.Vector -> VectorStore.Float8)
    (configTopK : nat) (configThreshold : Q)
    (documents : list VectorStore.Document.t)
    (document_chunks : list VectorStore.ChunkRow.t)
    (question : jsstring) (options : RAGQuery.QueryOptions.t)
    (answer : RAGQuery.QueryResult.t) :
  RAGQuery.query embeddingClient cosineDistance configTopK configThreshold
    documents document_chunks question options = Ok answer ->
  (forall t, RAGQuery.QueryOptions.threshold options = Some t -> (t == 0)%Q ->
     Forall (fun hit =>
               match VectorStore.Hit.similarity hit with
               | VectorStore.NaN => True
               | VectorStore.Number s => (configThreshold <= s)%Q
               end)
       (RAGQuery.QueryResult.results answer))
  /\ (RAGQuery.QueryOptions.topK options = Some 0 ->
      List.length (RAGQuery.QueryResult.results answer) <= configTopK).
Proof.
  unfold RAGQuery.query.
  destruct (Embeddings.generateEmbedding VectorStore.Vector embeddingClient question)
    as [queryEmbedding | msg]; [| discriminate].
  intros [= <-]. cbn [RAGQuery.QueryResult.results]. split.
  - intros t Ht Hzero. apply List.Forall_forall. intros hit Hhit.
    apply searchSimilar_threshold in Hhit.
    assert (Hdefault :
      VectorStore.thresholdOf configThreshold
        (RAGQuery.searchOptionsOf configTopK configThreshold options)
      = configThreshold).
    { unfold VectorStore.thresholdOf, RAGQuery.searchOptionsOf,
        RAGQuery.thresholdOrDefault.
      cbn [VectorStore.SearchOptions.threshold]. rewrite Ht.
      apply Qeq_bool_iff in Hzero. rewrite Hzero. reflexivity. }
    rewrite Hdefault in Hhit.
    destruct (VectorStore.Hit.similarity hit) as [|s]; [exact I |].
    apply Qle_bool_iff. exact Hhit.
  - intros Hk.
    pose proof (searchSimilar_length cosineDistance configTopK configThreshold
                  documents document_chunks queryEmbedding
                  (RAGQuery.searchOptionsOf configTopK configThreshold options))
      as Hlen.
    assert (Hdefault :
      VectorStore.topKOf configTopK
        (RAGQuery.searchOptionsOf configTopK configThreshold options) = configTopK).
    { unfold VectorStore.topKOf, RAGQuery.searchOptionsOf, RAGQuery.topKOrDefault.
      cbn [VectorStore.SearchOptions.topK]. rewrite Hk. reflexivity. }
    rewrite Hdefault in Hlen. exact Hlen.
Qed.

(** A caller asks for every chunk (threshold 0): the chunk of
    similarity 0, orthogonal to the query, is below the configured 7/10
    and is left out. *)
Lemma query_zero_options_use_config_witness :
  let documents :=
    [VectorStore.Document.mk 1 (u "Hours") (u "drive") (Some (u "faq")) None
       (Some (u "public"))] in
  let chunks :=
    [VectorStore.ChunkRow.mk 10 1 0 (u "We open at nine.") [3; 4]%Q (u "{}");
     VectorStore.ChunkRow.mk 11 1 1 (u "We close at six.") [4; -3]%Q (u "{}")] in
  let options :=
    RAGQuery.QueryOptions.mk (Some 0) (Some 0%Q) Undefined Undefined Undefined in
  match RAGQuery.query (Some (fun _ => Ok [3; 4]%Q))
          (VectorStore.pgvectorCosineDistance sqrtFloor) 5 (7 # 10)
          documents chunks (u "when do you open") options with
  | Ok answer =>
      List.map VectorStore.Hit.id (RAGQuery.QueryResult.results answer) = [10]
      /\ Forall (fun hit =>
                   match VectorStore.Hit.similarity hit with
                   | VectorStore.NaN => True
                   | VectorStore.Number s => (7 # 10 <= s)%Q
                   end)
           (RAGQuery.QueryResult.results answer)
  | Throw _ => False
  end.
Proof.
  intros documents chunks options.
  destruct (RAGQuery.query (Some (fun _ => Ok [3; 4]%Q))
              (VectorStore.pgvectorCosineDistance sqrtFloor) 5 (7 # 10)
              documents chunks (u "when do you open") options)
    as [answer | msg] eqn:Hq; [| discriminate Hq].
  split.
  - injection Hq as <-. reflexivity.
  - apply (proj1 (query_zero_options_use_config _ _ _ _ _ _ _ _ _ Hq) 0%Q);
      reflexivity.
Defined.

(** The answer of a query reports results exactly when there are some,
    and its context is empty exactly when there are none. Its top score
    is [results[0]?.similarity || 0]: 0 without results, and 0 as well
    when the first result has the similarity NaN, whatever the results
    behind it. When the first result has a number as similarity, every
    result has one, the top score is that of the first, no result
    exceeds it, and it reaches the threshold in force. *)
Theorem query_top_score_is_best
    (embeddingClient : option (jsstring -> Result VectorStore.Vector))
    (cosineDistance : VectorStore.Vector -> VectorStore.Vector -> VectorStore.Float8)
    (configTopK : nat) (configThreshold : Q)
    (documents : list VectorStore.Document.t)
    (document_chunks : list VectorStore.ChunkRow.t)
    (question : jsstring) (options : RAGQuery.QueryOptions.t)
    (answer : RAGQuery.QueryResult.t) :
  RAGQuery.query embeddingClient cosineDistance configTopK configThreshold
    documents document_chunks question options = Ok answer ->
  (RAGQuery.QueryResult.hasResults answer = true
   <-> RAGQuery.QueryResult.results answer <> [])
  /\ (RAGQuery.QueryResult.context answer = []
      <-> RAGQuery.QueryResult.results answer = [])
  /\ (RAGQuery.QueryResult.results answer = [] ->
      RAGQuery.QueryResult.topScore answer = 0%Q)
  /\ (forall first rest,
        RAGQuery.QueryResult.results answer = first :: rest ->
        VectorStore.Hit.similarity first = VectorStore.NaN ->
        RAGQuery.QueryResult.topScore answer = 0%Q)
  /\ (forall first rest s,
        RAGQuery.QueryResult.results answer = first :: rest ->
        VectorStore.Hit.similarity first = VectorStore.Number s ->
        (RAGQuery.QueryResult.topScore answer == s)%Q
        /\ (RAGQuery.thresholdOrDefault configThreshold options
            <= RAGQuery.QueryResult.topScore answer)%Q
        /\ Forall (fun hit =>
                     exists q,
                       VectorStore.Hit.similarity hit = VectorStore.Number q
                       /\ (q <= RAGQuery.QueryResult.topScore answer)%Q)
                  (RAGQuery.QueryResult.results answer)).
Proof.
  unfold RAGQuery.query.
  destruct (Embeddings.generateEmbedding VectorStore.Vector embeddingClient question)
    as [queryEmbedding | msg]; [| discriminate].
  intros [= <-].
  cbn [RAGQuery.QueryResult.results RAGQuery.QueryResult.hasResults
         RAGQuery.QueryResult.context RAGQuery.QueryResult.topScore].
  pose proof (searchSimilar_sorted cosineDistance configTopK configThreshold
                documents document_chunks queryEmbedding
                (RAGQuery.searchOptionsOf configTopK configThreshold options))
    as Hsorted.
  pose proof (searchSimilar_threshold cosineDistance configTopK configThreshold
                documents document_chunks queryEmbedding
                (RAGQuery.searchOptionsOf configTopK configThreshold options))
    as Hthreshold.
  destruct (VectorStore.searchSimilar cosineDistance configTopK configThreshold
              documents document_chunks queryEmbedding
              (RAGQuery.searchOptionsOf configTopK configThreshold options))
    as [|hit hits].
  - repeat split; try discriminate; try tauto.
  - assert (Hcontext : RAGQuery.formatContext (hit :: hits) <> []).
    { unfold RAGQuery.formatContext. cbn [RAGQuery.contextParts].
      assert (Hpart : exists c t, RAGQuery.contextPart 0 hit = c :: t)
        by (unfold RAGQuery.contextPart; eexists; eexists; reflexivity).
      destruct Hpart as (c & t & Hpart). rewrite Hpart.
      destruct (RAGQuery.contextParts 1 hits); discriminate. }
    split; [split; [discriminate | reflexivity] |].
    split; [split; [intros H; contradiction | discriminate] |].
    split; [discriminate |]. split.
    + intros first rest [= <- <-] Hnan. unfold RAGQuery.topScoreOf.
      rewrite Hnan. reflexivity.
    + intros first rest s [= <- <-] Hs.
      assert (Htop : (RAGQuery.topScoreOf (hit :: hits) == s)%Q).
      { unfold RAGQuery.topScoreOf. rewrite Hs.
        destruct (Qeq_bool s 0) eqn:Hz; [| reflexivity].
        apply Qeq_bool_iff in Hz. symmetry. exact Hz. }
      split; [exact Htop |]. split.
      * rewrite Htop. specialize (Hthreshold hit (or_introl eq_refl)).
        rewrite Hs in Hthreshold. apply Qle_bool_iff in Hthreshold.
        unfold VectorStore.thresholdOf, RAGQuery.searchOptionsOf in Hthreshold.
        cbn [VectorStore.SearchOptions.threshold from_option id] in Hthreshold.
        exact Hthreshold.
      * eapply List.Forall_impl; [| exact (sorted_Number_first hit hits s Hsorted Hs)].
        intros h (q & Hq & Hle). exists q. split; [exact Hq |].
        rewrite Htop. exact Hle.
Qed.

(** Two chunks above the threshold, the better one first: the top score
    is its similarity. *)
Lemma query_top_score_is_best_witness :
  let distance := fun (v _ : VectorStore.Vector) =>
                    match v with
                    | d :: _ => VectorStore.Number d
                    | [] => VectorStore.Number 1
                    end in
  let documents :=
    [VectorStore.Document.mk 1 (u "Hours") (u "drive") (Some (u "faq")) None
       (Some (u "public"))] in
  let chunks :=
    [VectorStore.ChunkRow.mk 10 1 0 (u "We open at nine.") [2 # 10] (u "{}");
     VectorStore.ChunkRow.mk 11 1 1 (u "We close at six.") [1 # 10] (u "{}")] in
  let options := RAGQuery.QueryOptions.mk None None Undefined Undefined Undefined in
  match RAGQuery.query (Some (fun _ => Ok [1 # 1])) distance 5 (7 # 10)
          documents chunks (u "when do you open") options with
  | Ok answer =>
      List.map VectorStore.Hit.id (RAGQuery.QueryResult.results answer) = [11; 10]
      /\ (RAGQuery.QueryResult.hasResults answer = true
          <-> RAGQuery.QueryResult.results answer <> [])
  | Throw _ => False
  end.
Proof.
  intros distance documents chunks options.
  destruct (RAGQuery.query (Some (fun _ => Ok [1 # 1])) distance 5 (7 # 10)
              documents chunks (u "when do you open") options)
    as [answer | msg] eqn:Hq; [| discriminate Hq].
  split.
  - injection Hq as <-. reflexivity.
  - apply (query_top_score_is_best _ _ _ _ _ _ _ _ _ Hq).
Defined.

(** A stored vector of norm zero: its chunk comes first with the
    similarity NaN, so the answer reports the top score 0 although the
    second result has the similarity 1. *)
Example query_top_score_nan :
  let documents :=
    [VectorStore.Document.mk 1 (u "Hours") (u "drive") (Some (u "faq")) None
       (Some (u "public"))] in
  let chunks :=
    [VectorStore.ChunkRow.mk 10 1 0 (u "We open at nine.") [3; 4]%Q (u "{}");
     VectorStore.ChunkRow.mk 11 1 1 (u "We close at six.") [0; 0]%Q (u "{}")] in
  let options := RAGQuery.QueryOptions.mk None None Undefined Undefined Undefined in
  match RAGQuery.query (Some (fun _ => Ok [3; 4]%Q))
          (VectorStore.pgvectorCosineDistance sqrtFloor) 5 (7 # 10)
          documents chunks (u "when do you open") options with
  | Ok answer =>
      List.map VectorStore.Hit.similarity (RAGQuery.QueryResult.results answer)
      = [VectorStore.NaN; VectorStore.Number 1]
      /\ RAGQuery.QueryResult.topScore answer = 0%Q
  | Throw _ => False
  end.
Proof. vm_compute. split; reflexivity. Qed.

(** ** Deleting a document from the index *)

Section DeleteChunks.

Import VectorStore.

Variable documentId : nat.

Lemma filter_other_documents (rows : list ChunkRow.t) (row : ChunkRow.t) :
  In row (List.filter (fun r => negb (ofDocument documentId r)) rows)
  <-> In row rows /\ ChunkRow.document_id row <> documentId.
Proof.
  rewrite List.filter_In. unfold ofDocument.
  rewrite negb_true_iff, Nat.eqb_neq. reflexivity.
Qed.

Lemma filter_ofDocument_others (rows : list ChunkRow.t) :
  List.filter (ofDocument documentId)
    (List.filter (fun r => negb (ofDocument documentId r)) rows) = [].
Proof.
  induction rows as [|r rows IH]; simpl; [reflexivity |].
  destruct (ofDocument documentId r) eqn:Hr; simpl; [exact IH |].
  rewrite Hr. exact IH.
Qed.

(** What [deleteDocumentChunks] does on a client that is not inside a
    transaction. *)
Lemma deleteDocumentChunks_idle (table : list ChunkRow.t) :
  deleteDocumentChunks documentId (Client.mk table Idle)
  = (Client.mk (List.filter (fun r => negb (ofDocument documentId r)) table) Idle,
     Ok (List.length (List.filter (ofDocument documentId) table))).
Proof. reflexivity. Qed.

End DeleteChunks.

(** After [deleteDocument] on an idle client the table holds the rows of
    the other documents and none of this one; the count returned is the
    number of rows that went away; the document has no chunk to list,
    and no search over the table returns a hit of it, whatever the
    query and the options. *)
Theorem deleteDocument_removes_document
    (documentId : nat) (client : VectorStore.Client.t) :
  VectorStore.Client.tx client = VectorStore.Idle ->
  let r := RAGQuery.deleteDocument documentId client in
  let table' := VectorStore.Client.table (fst r) in
  VectorStore.Client.tx (fst r) = VectorStore.Idle
  /\ (forall row,
        In row table'
        <-> In row (VectorStore.Client.table client)
            /\ VectorStore.ChunkRow.document_id row <> documentId)
  /\ (exists deleted,
        snd r = Ok deleted
        /\ deleted + List.length table'
           = List.length (VectorStore.Client.table client))
  /\ VectorStore.getDocumentChunks documentId (fst r) = Ok []
  /\ (forall cosineDistance configTopK configThreshold documents
             queryEmbedding options,
        Forall (fun hit => VectorStore.Hit.documentId hit <> documentId)
          (VectorStore.searchSimilar cosineDistance configTopK configThreshold
             documents table' queryEmbedding options)).
Proof.
  destruct client as [table tx]. cbn [VectorStore.Client.tx]. intros ->.
  unfold RAGQuery.deleteDocument. rewrite deleteDocumentChunks_idle.
  cbn [fst snd VectorStore.Client.table VectorStore.Client.tx].
  split; [reflexivity |].
  split; [apply filter_other_documents |].
  split; [eexists; split; [reflexivity | apply List.filter_length] |].
  split.
  - unfold VectorStore.getDocumentChunks, VectorStore.visibleRows.
    cbn [VectorStore.Client.tx VectorStore.Client.table].
    rewrite filter_ofDocument_others. reflexivity.
  - intros. apply List.Forall_forall. intros hit Hhit.
    destruct (searchSimilar_rows _ _ _ _ _ _ _ hit Hhit) as (row & Hrow & -> & _).
    apply joined_In in Hrow. destruct Hrow as (Hchunk & _ & _).
    apply filter_other_documents in Hchunk.
    cbn [VectorStore.toHit VectorStore.Hit.documentId]. apply Hchunk.
Qed.

Lemma deleteDocument_removes_document_witness :
  let table :=
    [VectorStore.ChunkRow.mk 10 1 0 (u "a") [2 # 10] (u "{}");
     VectorStore.ChunkRow.mk 11 2 0 (u "b") [1 # 10] (u "{}");
     VectorStore.ChunkRow.mk 12 1 1 (u "c") [6 # 10] (u "{}")] in
  let r := RAGQuery.deleteDocument 1 (VectorStore.Client.mk table VectorStore.Idle) in
  VectorStore.getDocumentChunks 1 (fst r) = Ok []
  /\ List.map VectorStore.ChunkRow.id (VectorStore.Client.table (fst r)) = [11]
  /\ snd r = Ok 2.
Proof.
  intros table r. split; [| split; reflexivity].
  apply (deleteDocument_removes_document 1
           (VectorStore.Client.mk table VectorStore.Idle) eq_refl).
Defined.

(** ** Indexing a document *)

Section SentenceChunksNonBlank.

Import Embeddings.

Lemma trim_keeps_nonblank (s : jsstring) :
  isBlank s = false -> isBlank (trim s) = false.
Proof.
  intros Hb. apply isBlank_false_iff in Hb. apply isBlank_false_iff.
  unfold trim, trimEnd.
  apply trimStart_keeps, Exists_rev_intro, trimStart_keeps, Exists_rev_intro in Hb.
  exact Hb.
Qed.

(** Sentence chunking never yields a blank chunk, so the filter of
    [generateEmbeddings] drops none of them. *)
Lemma chunkBySentences_nonblank (text : jsstring) (maxChunkSize : Z) :
  Forall (fun text => isBlank text = false)
    (List.map SentenceChunk.text (chunkBySentences text maxChunkSize)).
Proof.
  destruct (isBlank text) eqn:Hb.
  - rewrite chunkBySentences_blank by exact Hb. constructor.
  - unfold chunkBySentences. rewrite Hb, numbered_texts.
    pose proof (sentencesOf_nonblank text Hb) as Hs.
    destruct (sentenceChunks_groups maxChunkSize _ Hs) as (groups & -> & Hcat & Hne).
    apply List.Forall_forall. intros t Ht.
    apply List.in_map_iff in Ht. destruct Ht as [gr [<- Hgr]].
    rewrite List.Forall_forall in Hne. specialize (Hne gr Hgr).
    destruct gr as [|w gr']; [contradiction |].
    apply (join_nonblank _ _ w); [left; reflexivity |].
    assert (Hw : In w (List.map trim (sentencesOf text))).
    { rewrite <- Hcat. apply List.in_concat. exists (w :: gr').
      split; [exact Hgr | left; reflexivity]. }
    apply List.in_map_iff in Hw. destruct Hw as [s [<- Hin]].
    apply trim_keeps_nonblank.
    rewrite List.Forall_forall in Hs. specialize (Hs s Hin).
    unfold isBlank. destruct (trim s); [contradiction | reflexivity].
Qed.

End SentenceChunksNonBlank.

Lemma map_nth_error_seq {A : Type} (pre l : list A) :
  List.map (nth_error (pre ++ l)) (List.seq (List.length pre) (List.length l))
  = List.map Some l.
Proof.
  revert pre. induction l as [|x l IH]; intros pre; [reflexivity |].
  cbn [List.length List.seq List.map]. f_equal.
  - rewrite List.nth_error_app2 by lia. rewrite Nat.sub_diag. reflexivity.
  - specialize (IH (pre ++ [x])). rewrite <- List.app_assoc in IH.
    rewrite List.length_app in IH. cbn [List.length app] in IH.
    rewrite Nat.add_1_r in IH. exact IH.
Qed.

Section IndexDocument.

Import VectorStore RAGQuery.

Variable embeddingsClient : option (list jsstring -> Result (list Vector)).
Variable accepts : list ChunkRow.t -> ChunkRow.t -> bool.
Variable freshId : list ChunkRow.t -> nat.
Variable metadataJson : nat -> nat -> jsstring.

Lemma chunksToInsert_fields (document : DocumentInput.t) (total start : nat)
    (chunks : list Embeddings.SentenceChunk.t) (embeddings : list Vector) :
  List.map Chunk.content
    (chunksToInsert metadataJson document total start chunks embeddings)
  = List.map Embeddings.SentenceChunk.text chunks
  /\ List.map Chunk.documentId
       (chunksToInsert metadataJson document total start chunks embeddings)
     = List.map (fun _ => DocumentInput.id document) chunks
  /\ List.map Chunk.chunkIndex
       (chunksToInsert metadataJson document total start chunks embeddings)
     = List.map Z.of_nat (List.seq start (List.length chunks))
  /\ List.map Chunk.embedding
       (chunksToInsert metadataJson document total start chunks embeddings)
     = List.map (nth_error embeddings) (List.seq start (List.length chunks)).
Proof.
  revert start. induction chunks as [|c chunks IH]; intros start.
  - repeat split.
  - destruct (IH (S start)) as (H1 & H2 & H3 & H4).
    cbn [chunksToInsert List.map List.length List.seq Chunk.content
           Chunk.documentId Chunk.chunkIndex Chunk.embedding].
    rewrite H1, H2, H3, H4. repeat split.
Qed.

Lemma rowsOfBatch_embeddings visible chunks rows :
  rowsOfBatch accepts freshId visible chunks = Some rows ->
  List.map (fun row => Some (ChunkRow.embedding row)) rows
  = List.map Chunk.embedding chunks.
Proof.
  revert visible rows.
  induction chunks as [|chunk chunks IH]; intros visible rows; cbn [rowsOfBatch].
  - intros [= <-]. reflexivity.
  - destruct (Chunk.embedding chunk) as [embedding |] eqn:He; [| discriminate].
    destruct (accepts visible (rowOf freshId visible chunk embedding));
      [| discriminate].
    destruct (rowsOfBatch accepts freshId
                (visible ++ [rowOf freshId visible chunk embedding]) chunks)
      as [rest |] eqn:Hrest; [| discriminate].
    cbn [option_map]. intros [= <-].
    cbn [List.map rowOf ChunkRow.embedding]. rewrite (IH _ _ Hrest), He.
    reflexivity.
Qed.

(** [insertChunks] on a client that is not inside a transaction. *)
Lemma insertChunks_idle (chunks : list Chunk.t) (table : list ChunkRow.t) :
  match rowsOfBatch accepts freshId table chunks with
  | Some rows =>
      insertChunks accepts freshId chunks (Client.mk table Idle)
      = (Client.mk (table ++ rows) Idle, Ok (List.map ChunkRow.id rows))
  | None =>
      exists msg,
        insertChunks accepts freshId chunks (Client.mk table Idle)
        = (Client.mk table Idle, Throw msg)
  end.
Proof.
  unfold insertChunks, queryBegin. cbn [Client.tx Client.table].
  pose proof (insertLoop_in_transaction accepts freshId chunks table table [])
    as Hloop.
  destruct (rowsOfBatch accepts freshId table chunks) as [rows |].
  - rewrite Hloop. reflexivity.
  - destruct Hloop as (client' & msg & -> & Htable). exists msg.
    unfold queryRollback. rewrite Htable. reflexivity.
Qed.

(** [indexDocument] on a client that is not inside a transaction: it
    throws and leaves the client as it was, or it adds the rows of the
    batch built from the chunks and the embeddings. *)
Lemma indexDocument_idle (document : DocumentInput.t) (table : list ChunkRow.t) :
  let chunks := Embeddings.chunkBySentences (DocumentInput.content document) 500 in
  let r := indexDocument embeddingsClient accepts freshId metadataJson document
             (Client.mk table Idle) in
  (exists msg, r = (Client.mk table Idle, Throw msg))
  \/ (exists embeddings rows,
        Embeddings.generateEmbeddings Vector embeddingsClient
          (List.map Embeddings.SentenceChunk.text chunks) = Ok embeddings
        /\ rowsOfBatch accepts freshId table
             (chunksToInsert metadataJson document (List.length chunks) 0 chunks
                embeddings) = Some rows
        /\ r = (Client.mk (table ++ rows) Idle,
                Ok (IndexResult.mk (DocumentInput.id document)
                      (List.length rows) (List.map ChunkRow.id rows)))).
Proof.
  intros chunks r. subst r. unfold indexDocument. cbv zeta. fold chunks.
  destruct (Embeddings.generateEmbeddings Vector embeddingsClient
              (List.map Embeddings.SentenceChunk.text chunks))
    as [embeddings | msg]; [| left; eauto].
  pose proof (insertChunks_idle
                (chunksToInsert metadataJson document (List.length chunks) 0
                   chunks embeddings) table) as Hins.
  destruct (rowsOfBatch accepts freshId table
              (chunksToInsert metadataJson document (List.length chunks) 0
                 chunks embeddings)) as [rows |] eqn:Hrows.
  - right. exists embeddings, rows. rewrite Hins, List.length_map. auto.
  - left. destruct Hins as [msg ->]. eauto.
Qed.

(** The rows of a batch built by [indexDocument]: one per chunk, with
    the chunk's text, its position and the document's id. *)
Lemma indexDocument_rows (document : DocumentInput.t) (table : list ChunkRow.t)
    (chunks : list Embeddings.SentenceChunk.t) (embeddings : list Vector)
    (rows : list ChunkRow.t) :
  rowsOfBatch accepts freshId table
    (chunksToInsert metadataJson document (List.length chunks) 0 chunks embeddings)
  = Some rows ->
  List.length rows = List.length chunks
  /\ List.map ChunkRow.content rows = List.map Embeddings.SentenceChunk.text chunks
  /\ Forall (fun row => ChunkRow.document_id row = DocumentInput.id document) rows
  /\ List.map ChunkRow.chunk_index rows
     = List.map Z.of_nat (List.seq 0 (List.length chunks))
  /\ List.map (fun row => Some (ChunkRow.embedding row)) rows
     = List.map (nth_error embeddings) (List.seq 0 (List.length chunks)).
Proof.
  intros Hrows.
  destruct (chunksToInsert_fields document (List.length chunks) 0 chunks embeddings)
    as (H1 & H2 & H3 & H4).
  pose proof (rowsOfBatch_embeddings _ _ _ Hrows) as Hemb.
  apply rowsOfBatch_rows in Hrows.
  destruct Hrows as (Hlen & Hcontent & Hdoc & Hindex & _).
  rewrite Hcontent, Hindex, Hemb, H1, H3, H4.
  split; [| repeat split].
  - rewrite <- (List.length_map ChunkRow.content), Hcontent, H1, List.length_map.
    reflexivity.
  - rewrite H2 in Hdoc. apply List.Forall_forall. intros row Hrow.
    assert (Hin : In (ChunkRow.document_id row)
                    (List.map (fun _ : Embeddings.SentenceChunk.t =>
                                 DocumentInput.id document) chunks)).
    { rewrite <- Hdoc. apply List.in_map. exact Hrow. }
    apply List.in_map_iff in Hin. destruct Hin as [c [Hc _]]. symmetry. exact Hc.
Qed.

(** Rows whose chunk indices count up are already in the order of
    [ORDER BY chunk_index ASC]. *)
Lemma orderByChunkIndex_ascending (rows : list ChunkRow.t) (start n : nat) :
  List.map ChunkRow.chunk_index rows = List.map Z.of_nat (List.seq start n) ->
  orderByChunkIndex rows = rows.
Proof.
  revert start n. induction rows as [|r rows IH]; intros start n Hidx;
    [reflexivity |].
  destruct n as [|n]; [discriminate |].
  cbn [List.map List.seq] in Hidx. injection Hidx as Hr Hrest.
  unfold orderByChunkIndex in *. cbn [List.fold_right].
  rewrite (IH _ _ Hrest).
  destruct rows as [|r' rows']; [reflexivity |].
  destruct n as [|n']; [discriminate |].
  cbn [List.map List.seq] in Hrest. injection Hrest as Hr' _.
  cbn [insertAsc]. rewrite Hr, Hr'.
  destruct (Z.leb_spec (Z.of_nat start) (Z.of_nat (S start))); [reflexivity | lia].
Qed.

Lemma filter_ofDocument_all (documentId : nat) (rows : list ChunkRow.t) :
  Forall (fun row => ChunkRow.document_id row = documentId) rows ->
  List.filter (ofDocument documentId) rows = rows.
Proof.
  induction 1 as [|r rows Hr _ IH]; simpl; [reflexivity |].
  unfold ofDocument at 1. rewrite Hr, Nat.eqb_refl, IH. reflexivity.
Qed.

End IndexDocument.

(** On an idle client [indexDocument] is all or nothing. When it
    throws, the table is what it was. When it returns, the table has
    grown by one row per sentence chunk, the result counts these rows,
    and the content had at least one chunk. A document whose content is
    blank is never indexed: the call throws. *)
Theorem indexDocument_all_or_nothing
    (embeddingsClient : option (list jsstring -> Result (list VectorStore.Vector)))
    (accepts : list VectorStore.ChunkRow.t -> VectorStore.ChunkRow.t -> bool)
    (freshId : list VectorStore.ChunkRow.t -> nat)
    (metadataJson : nat -> nat -> jsstring)
    (document : RAGQuery.DocumentInput.t) (client : VectorStore.Client.t) :
  VectorStore.Client.tx client = VectorStore.Idle ->
  let chunks :=
    Embeddings.chunkBySentences (RAGQuery.DocumentInput.content document) 500 in
  let r := RAGQuery.indexDocument embeddingsClient accepts freshId metadataJson
             document client in
  VectorStore.Client.tx (fst r) = VectorStore.Idle
  /\ (forall msg, snd r = Throw msg ->
        VectorStore.Client.table (fst r) = VectorStore.Client.table client)
  /\ (forall result, snd r = Ok result ->
        chunks <> []
        /\ List.length (VectorStore.Client.table (fst r))
           = List.length (VectorStore.Client.table client) + List.length chunks
        /\ RAGQuery.IndexResult.documentId result = RAGQuery.DocumentInput.id document
        /\ RAGQuery.IndexResult.chunksIndexed result = List.length chunks
        /\ List.length (RAGQuery.IndexResult.chunkIds result) = List.length chunks)
  /\ (isBlank (RAGQuery.DocumentInput.content document) = true ->
      exists msg, snd r = Throw msg).
Proof.
  destruct client as [table tx]. intros Hidle. cbn in Hidle. subst tx.
  intros chunks r.
  assert (Hblank : isBlank (RAGQuery.DocumentInput.content document) = true ->
                   exists msg, snd r = Throw msg).
  { intros Hb. subst r. unfold RAGQuery.indexDocument. cbv zeta.
    rewrite chunkBySentences_blank by exact Hb. cbn [List.map].
    unfold Embeddings.generateEmbeddings.
    destruct embeddingsClient; cbn [snd]; eauto. }
  destruct (indexDocument_idle embeddingsClient accepts freshId metadataJson
              document table)
    as [[msg Hr] | (embeddings & rows & Hemb & Hrows & Hr)];
    fold chunks in Hr; fold r in Hr; try fold chunks in Hemb, Hrows;
    rewrite Hr; cbn [fst snd VectorStore.Client.tx VectorStore.Client.table].
  - split; [reflexivity |]. split; [reflexivity |].
    split; [discriminate |].
    intros Hb. rewrite Hr in Hblank. exact (Hblank Hb).
  - apply indexDocument_rows in Hrows. destruct Hrows as (Hlen & _).
    split; [reflexivity |]. split; [discriminate |]. split.
    + intros result [= <-].
      cbn [RAGQuery.IndexResult.documentId RAGQuery.IndexResult.chunksIndexed
             RAGQuery.IndexResult.chunkIds].
      rewrite List.length_app, List.length_map, Hlen. repeat split.
      intros Hnil. rewrite Hnil in Hemb. cbn [List.map] in Hemb.
      unfold Embeddings.generateEmbeddings in Hemb.
      destruct embeddingsClient; discriminate Hemb.
    + intros Hb. rewrite Hr in Hblank. exact (Hblank Hb).
Qed.

(** A document of three sentences cut at 500 characters is one chunk;
    a provider that fails leaves the table as it was. *)
Lemma indexDocument_all_or_nothing_witness :
  let accepts := fun (_ : list VectorStore.ChunkRow.t) (_ : VectorStore.ChunkRow.t) =>
                   true in
  let freshId := fun visible : list VectorStore.ChunkRow.t => List.length visible in
  let table := [VectorStore.ChunkRow.mk 0 6 0 (u "old") [0; 1]%Q (u "{}")] in
  let document :=
    RAGQuery.DocumentInput.mk 7 (u "Hours") (u "We open at nine. We close at six.") in
  let r := RAGQuery.indexDocument (Some (fun _ => Throw "rate limit")) accepts freshId
             (fun _ _ => u "{}") document
             (VectorStore.Client.mk table VectorStore.Idle) in
  snd r = Throw "rate limit" /\ VectorStore.Client.table (fst r) = table.
Proof.
  intros accepts freshId table document r.
  assert (Hr : snd r = Throw "rate limit") by reflexivity.
  split; [exact Hr |].
  exact (proj1 (proj2 (indexDocument_all_or_nothing
                         (Some (fun _ => Throw "rate limit")) accepts freshId
                         (fun _ _ => u "{}") document
                         (VectorStore.Client.mk table VectorStore.Idle) eq_refl))
           "rate limit"%string Hr).
Defined.

(** With a provider that answers every request with one vector per
    text, a successful [indexDocument] on an idle client appends one
    row per sentence chunk, in chunk order: row i holds the text of
    chunk i, the index i, the id of the document, and the vector of its
    own text. The compaction of [generateEmbeddings] cannot shift the
    vectors here, because no sentence chunk is blank. *)
Theorem indexDocument_rows_carry_own_vector
    (embed : jsstring -> VectorStore.Vector)
    (create : list jsstring -> Result (list VectorStore.Vector))
    (accepts : list VectorStore.ChunkRow.t -> VectorStore.ChunkRow.t -> bool)
    (freshId : list VectorStore.ChunkRow.t -> nat)
    (metadataJson : nat -> nat -> jsstring)
    (document : RAGQuery.DocumentInput.t) (client : VectorStore.Client.t)
    (result : RAGQuery.IndexResult.t) :
  (forall batch, batch <> [] ->
     List.length batch <= Embeddings.batchSize ->
     create batch = Ok (List.map embed batch)) ->
  VectorStore.Client.tx client = VectorStore.Idle ->
  let chunks :=
    Embeddings.chunkBySentences (RAGQuery.DocumentInput.content document) 500 in
  let r := RAGQuery.indexDocument (Some create) accepts freshId metadataJson
             document client in
  snd r = Ok result ->
  exists rows,
    VectorStore.Client.table (fst r) = VectorStore.Client.table client ++ rows
    /\ List.map VectorStore.ChunkRow.content rows
       = List.map Embeddings.SentenceChunk.text chunks
    /\ List.map VectorStore.ChunkRow.chunk_index rows
       = List.map Z.of_nat (List.seq 0 (List.length chunks))
    /\ Forall (fun row =>
                 VectorStore.ChunkRow.document_id row
                 = RAGQuery.DocumentInput.id document
                 /\ VectorStore.ChunkRow.embedding row
                    = embed (VectorStore.ChunkRow.content row)) rows
    /\ RAGQuery.IndexResult.chunkIds result = List.map VectorStore.ChunkRow.id rows.
Proof.
  intros Hcreate. destruct client as [table tx]. intros Hidle. cbn in Hidle.
  subst tx. intros chunks r Hres.
  destruct (indexDocument_idle (Some create) accepts freshId metadataJson
              document table)
    as [[msg Hr] | (embeddings & rows & Hemb & Hrows & Hr)];
    fold chunks in Hr; fold r in Hr; rewrite Hr in Hres |- *;
    [discriminate Hres |].
  fold chunks in Hemb, Hrows. cbn [snd] in Hres. injection Hres as <-.
  apply indexDocument_rows in Hrows.
  destruct Hrows as (Hlen & Hcontent & Hdoc & Hindex & Hvec).
  exists rows. cbn [fst VectorStore.Client.table RAGQuery.IndexResult.chunkIds].
  repeat split; try assumption.
  assert (Hne : List.map Embeddings.SentenceChunk.text chunks <> []).
  { intros Hnil. rewrite Hnil in Hemb. discriminate Hemb. }
  rewrite (generateEmbeddings_per_text VectorStore.Vector embed create _ Hcreate Hne
             (chunkBySentences_nonblank _ _)) in Hemb.
  injection Hemb as <-.
  pose proof (map_nth_error_seq []
                (List.map embed (List.map Embeddings.SentenceChunk.text chunks)))
    as Hseq.
  cbn [app List.length] in Hseq. rewrite !List.length_map in Hseq.
  rewrite Hseq, <- Hcontent, !List.map_map in Hvec.
  apply List.Forall_forall. intros row Hrow. split.
  - rewrite List.Forall_forall in Hdoc. exact (Hdoc row Hrow).
  - assert (Hsome : Some (VectorStore.ChunkRow.embedding row)
                    = Some (embed (VectorStore.ChunkRow.content row))).
    { revert row Hrow. apply List.map_ext_in_iff. exact Hvec. }
    injection Hsome as ->. reflexivity.
Qed.

(** Two sentences cut at 500 characters make one chunk; with the length
    of a text as its (one-number) vector, the stored row holds the
    whole text and its own vector. *)
Lemma indexDocument_rows_carry_own_vector_witness :
  let embed := fun text : jsstring => [inject_Z (Z.of_nat (List.length text))] in
  let create := fun batch : list jsstring => Ok (List.map embed batch) in
  let accepts := fun (_ : list VectorStore.ChunkRow.t) (_ : VectorStore.ChunkRow.t) =>
                   true in
  let freshId := fun visible : list VectorStore.ChunkRow.t => List.length visible in
  let document :=
    RAGQuery.DocumentInput.mk 7 (u "Hours") (u "We open at nine. We close at six.") in
  let r := RAGQuery.indexDocument (Some create) accepts freshId (fun _ _ => u "{}")
             document (VectorStore.Client.mk [] VectorStore.Idle) in
  VectorStore.Client.table (fst r)
  = [VectorStore.ChunkRow.mk 0 7 0 (u "We open at nine. We close at six.")
       [33 # 1] (u "{}")]
  /\ exists rows,
       VectorStore.Client.table (fst r) = [] ++ rows
       /\ List.map VectorStore.ChunkRow.content rows
          = List.map Embeddings.SentenceChunk.text
              (Embeddings.chunkBySentences (RAGQuery.DocumentInput.content document)
                 500)
       /\ List.map VectorStore.ChunkRow.chunk_index rows
          = List.map Z.of_nat
              (List.seq 0
                 (List.length
                    (Embeddings.chunkBySentences
                       (RAGQuery.DocumentInput.content document) 500)))
       /\ Forall (fun row =>
                    VectorStore.ChunkRow.document_id row
                    = RAGQuery.DocumentInput.id document
                    /\ VectorStore.ChunkRow.embedding row
                       = embed (VectorStore.ChunkRow.content row)) rows
       /\ [0] = List.map VectorStore.ChunkRow.id rows.
Proof.
  intros embed create accepts freshId document r.
  split; [vm_compute; reflexivity |].
  apply (indexDocument_rows_carry_own_vector embed create accepts freshId
           (fun _ _ => u "{}") document
           (VectorStore.Client.mk [] VectorStore.Idle)
           (RAGQuery.IndexResult.mk 7 1 [0])).
  - intros batch _ _. reflexivity.
  - reflexivity.
  - vm_compute. reflexivity.
Defined.

(** ** Reindexing a document *)

Section Reindex.

Import VectorStore RAGQuery.

Variable embeddingsClient : option (list jsstring -> Result (list Vector)).
Variable accepts : list ChunkRow.t -> ChunkRow.t -> bool.
Variable freshId : list ChunkRow.t -> nat.
Variable metadataJson : nat -> nat -> jsstring.

(** [reindexDocument] on an idle client: the delete has happened in
    both outcomes. *)
Lemma reindexDocument_idle (document : DocumentInput.t) (table : list ChunkRow.t) :
  let chunks := Embeddings.chunkBySentences (DocumentInput.content document) 500 in
  let others :=
    List.filter (fun row => negb (ofDocument (DocumentInput.id document) row)) table in
  let r := reindexDocument embeddingsClient accepts freshId metadataJson document
             (Client.mk table Idle) in
  (exists msg, r = (Client.mk others Idle, Throw msg))
  \/ (exists embeddings rows,
        rowsOfBatch accepts freshId others
          (chunksToInsert metadataJson document (List.length chunks) 0 chunks
             embeddings) = Some rows
        /\ r = (Client.mk (others ++ rows) Idle,
                Ok (IndexResult.mk (DocumentInput.id document)
                      (List.length rows) (List.map ChunkRow.id rows)))).
Proof.
  intros chunks others r. subst r. unfold reindexDocument.
  rewrite deleteDocumentChunks_idle. fold others.
  destruct (indexDocument_idle embeddingsClient accepts freshId metadataJson
              document others)
    as [[msg Hr] | (embeddings & rows & _ & Hrows & Hr)]; rewrite Hr.
  - left. eauto.
  - right. exists embeddings, rows. auto.
Qed.

End Reindex.

(** After a successful [reindexDocument] on an idle client, listing the
    chunks of the document gives exactly the sentence chunks of the new
    content, in order, with the indices 0, 1, 2, ... and the ids that
    the call returned; whatever the document had before is gone, and
    the rows of the other documents are untouched. *)
Theorem reindexDocument_then_read_back
    (embeddingsClient : option (list jsstring -> Result (list VectorStore.Vector)))
    (accepts : list VectorStore.ChunkRow.t -> VectorStore.ChunkRow.t -> bool)
    (freshId : list VectorStore.ChunkRow.t -> nat)
    (metadataJson : nat -> nat -> jsstring)
    (document : RAGQuery.DocumentInput.t) (client : VectorStore.Client.t)
    (result : RAGQuery.IndexResult.t) :
  VectorStore.Client.tx client = VectorStore.Idle ->
  let chunks :=
    Embeddings.chunkBySentences (RAGQuery.DocumentInput.content document) 500 in
  let r := RAGQuery.reindexDocument embeddingsClient accepts freshId metadataJson
             document client in
  snd r = Ok result ->
  (exists stored,
     VectorStore.getDocumentChunks (RAGQuery.DocumentInput.id document) (fst r)
     = Ok stored
     /\ List.map VectorStore.StoredChunk.content stored
        = List.map Embeddings.SentenceChunk.text chunks
     /\ List.map VectorStore.StoredChunk.chunk_index stored
        = List.map Z.of_nat (List.seq 0 (List.length chunks))
     /\ List.map VectorStore.StoredChunk.id stored
        = RAGQuery.IndexResult.chunkIds result)
  /\ (forall row,
        VectorStore.ChunkRow.document_id row <> RAGQuery.DocumentInput.id document ->
        In row (VectorStore.Client.table (fst r))
        <-> In row (VectorStore.Client.table client)).
Proof.
  destruct client as [table tx]. intros Hidle. cbn in Hidle. subst tx.
  intros chunks r Hres.
  destruct (reindexDocument_idle embeddingsClient accepts freshId metadataJson
              document table)
    as [[msg Hr] | (embeddings & rows & Hrows & Hr)];
    fold chunks in Hr; fold r in Hr; rewrite Hr in Hres |- *;
    [discriminate Hres |].
  fold chunks in Hrows. cbn [snd] in Hres. injection Hres as <-.
  apply indexDocument_rows in Hrows.
  destruct Hrows as (Hlen & Hcontent & Hdoc & Hindex & _).
  cbn [fst VectorStore.Client.table RAGQuery.IndexResult.chunkIds]. split.
  - unfold VectorStore.getDocumentChunks, VectorStore.visibleRows.
    cbn [VectorStore.Client.tx VectorStore.Client.table].
    rewrite List.filter_app, filter_ofDocument_others,
      (filter_ofDocument_all _ _ Hdoc).
    cbn [app]. rewrite (orderByChunkIndex_ascending rows _ _ Hindex).
    eexists. split; [reflexivity |].
    rewrite !List.map_map. cbn [VectorStore.toStoredChunk
      VectorStore.StoredChunk.content VectorStore.StoredChunk.chunk_index
      VectorStore.StoredChunk.id].
    auto.
  - intros row Hother. rewrite List.in_app_iff, filter_other_documents. split.
    + intros [[Hin _] | Hin]; [exact Hin |].
      rewrite List.Forall_forall in Hdoc. elim Hother. exact (Hdoc row Hin).
    + intros Hin. left. split; assumption.
Qed.

(** A document with two stale chunks is reindexed from a text of two
    sentences: it ends with the one new chunk, and the chunk of the
    other document stays. *)
Lemma reindexDocument_then_read_back_witness :
  let embed := fun text : jsstring => [inject_Z (Z.of_nat (List.length text))] in
  let create := fun batch : list jsstring => Ok (List.map embed batch) in
  let accepts := fun (_ : list VectorStore.ChunkRow.t) (_ : VectorStore.ChunkRow.t) =>
                   true in
  let freshId := fun visible : list VectorStore.ChunkRow.t =>
                   100 + List.length visible in
  let table :=
    [VectorStore.ChunkRow.mk 10 7 0 (u "We open at ten.") [15 # 1] (u "{}");
     VectorStore.ChunkRow.mk 11 2 0 (u "Pay day is the first.") [21 # 1] (u "{}");
     VectorStore.ChunkRow.mk 12 7 1 (u "We close at five.") [17 # 1] (u "{}")] in
  let document :=
    RAGQuery.DocumentInput.mk 7 (u "Hours") (u "We open at nine. We close at six.") in
  let r := RAGQuery.reindexDocument (Some create) accepts freshId (fun _ _ => u "{}")
             document (VectorStore.Client.mk table VectorStore.Idle) in
  List.map VectorStore.ChunkRow.id (VectorStore.Client.table (fst r)) = [11; 101]
  /\ exists stored,
       VectorStore.getDocumentChunks 7 (fst r) = Ok stored
       /\ List.map VectorStore.StoredChunk.content stored
          = List.map Embeddings.SentenceChunk.text
              (Embeddings.chunkBySentences (RAGQuery.DocumentInput.content document)
                 500)
       /\ List.map VectorStore.StoredChunk.chunk_index stored
          = List.map Z.of_nat
              (List.seq 0
                 (List.length
                    (Embeddings.chunkBySentences
                       (RAGQuery.DocumentInput.content document) 500)))
       /\ List.map VectorStore.StoredChunk.id stored = [101].
Proof.
  intros embed create accepts freshId table document r.
  split; [vm_compute; reflexivity |].
  refine (proj1 (reindexDocument_then_read_back (Some create) accepts freshId
                   (fun _ _ => u "{}") document
                   (VectorStore.Client.mk table VectorStore.Idle)
                   (RAGQuery.IndexResult.mk 7 1 [101]) eq_refl _)).
  vm_compute. reflexivity.
Defined.

(** [reindexDocument] is not atomic: the chunks are deleted by a
    statement of its own before the new ones are built. When the call
    throws on an idle client (the provider fails, the content is blank,
    a row is rejected), the document is left without any chunk, the old
    ones included; the rows of the other documents are untouched. *)
Theorem reindexDocument_failure_loses_chunks
    (embeddingsClient : option (list jsstring -> Result (list VectorStore.Vector)))
    (accepts : list VectorStore.ChunkRow.t -> VectorStore.ChunkRow.t -> bool)
    (freshId : list VectorStore.ChunkRow.t -> nat)
    (metadataJson : nat -> nat -> jsstring)
    (document : RAGQuery.DocumentInput.t) (client : VectorStore.Client.t)
    (msg : string) :
  VectorStore.Client.tx client = VectorStore.Idle ->
  let r := RAGQuery.reindexDocument embeddingsClient accepts freshId metadataJson
             document client in
  snd r = Throw msg ->
  VectorStore.getDocumentChunks (RAGQuery.DocumentInput.id document) (fst r) = Ok []
  /\ (forall row,
        In row (VectorStore.Client.table (fst r))
        <-> In row (VectorStore.Client.table client)
            /\ VectorStore.ChunkRow.document_id row
               <> RAGQuery.DocumentInput.id document).
Proof.
  destruct client as [table tx]. intros Hidle. cbn in Hidle. subst tx.
  intros r Hres.
  destruct (reindexDocument_idle embeddingsClient accepts freshId metadataJson
              document table)
    as [[msg' Hr] | (embeddings & rows & Hrows & Hr)];
    fold r in Hr; rewrite Hr in Hres |- *; [| discriminate Hres].
  cbn [fst VectorStore.Client.table]. split.
  - unfold VectorStore.getDocumentChunks, VectorStore.visibleRows.
    cbn [VectorStore.Client.tx VectorStore.Client.table].
    rewrite filter_ofDocument_others. reflexivity.
  - intros row. apply filter_other_documents.
Qed.

(** The provider is down while a document with two chunks is
    reindexed: the call throws and the two chunks are gone. *)
Lemma reindexDocument_failure_loses_chunks_witness :
  let accepts := fun (_ : list VectorStore.ChunkRow.t) (_ : VectorStore.ChunkRow.t) =>
                   true in
  let freshId := fun visible : list VectorStore.ChunkRow.t =>
                   100 + List.length visible in
  let table :=
    [VectorStore.ChunkRow.mk 10 7 0 (u "We open at ten.") [15 # 1] (u "{}");
     VectorStore.ChunkRow.mk 11 2 0 (u "Pay day is the first.") [21 # 1] (u "{}");
     VectorStore.ChunkRow.mk 12 7 1 (u "We close at five.") [17 # 1] (u "{}")] in
  let document :=
    RAGQuery.DocumentInput.mk 7 (u "Hours") (u "We open at nine. We close at six.") in
  let r := RAGQuery.reindexDocument (Some (fun _ => Throw "rate limit")) accepts
             freshId (fun _ _ => u "{}") document
             (VectorStore.Client.mk table VectorStore.Idle) in
  snd r = Throw "rate limit"
  /\ List.map VectorStore.ChunkRow.id (VectorStore.Client.table (fst r)) = [11]
  /\ VectorStore.getDocumentChunks 7 (fst r) = Ok [].
Proof.
  intros accepts freshId table document r.
  split; [vm_compute; reflexivity |]. split; [vm_compute; reflexivity |].
  refine (proj1 (reindexDocument_failure_loses_chunks
                   (Some (fun _ => Throw "rate limit")) accepts freshId
                   (fun _ _ => u "{}") document
                   (VectorStore.Client.mk table VectorStore.Idle)
                   "rate limit" eq_refl _)).
  vm_compute. reflexivity.
Defined.

(** ** Folder indexing: files without content, and a listing that fails *)

Section FolderEdges.

Import Drive.

Variable Store : Type.
Variable getFileMetadata : jsstring -> Result FileMetadata.t.
Variable downloadFile : jsstring -> jsstring -> Result (option jsstring).
Variable indexDocument : jsstring -> jsstring -> jsstring -> Store -> Store * Result unit.

Lemma indexFile_withoutContent (file : File.t) (store : Store) :
  withoutContent getFileMetadata downloadFile file = true ->
  indexFile Store getFileMetadata downloadFile indexDocument (File.id file) store
  = (store, Ok tt).
Proof.
  unfold withoutContent, indexFile.
  destruct (getFileMetadata (File.id file)) as [metadata | msg]; [| discriminate].
  destruct (downloadFile (File.id file) (FileMetadata.mimeType metadata))
    as [[content |] | msg]; [| reflexivity | discriminate].
  intros ->. reflexivity.
Qed.

Lemma indexLoop_withoutContent (files : list File.t) (st : Store * list IndexError.t) :
  forallb (withoutContent getFileMetadata downloadFile) files = true ->
  List.fold_left
    (indexStep Store (indexFile Store getFileMetadata downloadFile indexDocument))
    files st = st.
Proof.
  revert st. induction files as [|file files IH]; intros st; [reflexivity |].
  cbn [forallb]. rewrite andb_true_iff. intros [Hfile Hrest].
  cbn [List.fold_left]. unfold indexStep at 2.
  rewrite (indexFile_withoutContent file (fst st) Hfile).
  destruct st as [store errors]. apply IH. exact Hrest.
Qed.

Lemma fetchAll_failed_page (pages : list (list File.t)) (msg : string)
    (allFiles : list File.t) :
  fetchAll (List.fold_right NextPage (ListingFailed msg) pages) allFiles = Throw msg.
Proof.
  revert allFiles. induction pages as [|page pages IH]; intros allFiles;
    [reflexivity |].
  cbn [List.fold_right fetchAll]. apply IH.
Qed.

End FolderEdges.

(** A file whose download has no data, or nothing but white space, is
    skipped by [indexFile] with a normal return, so [indexFolder] counts
    it as indexed: over a folder of such files the summary reports every
    file as indexed and no error, while the store is what it was. *)
Theorem indexFolder_counts_skipped_files
    (Store : Type)
    (getFileMetadata : jsstring -> Result Drive.FileMetadata.t)
    (downloadFile : jsstring -> jsstring -> Result (option jsstring))
    (indexDocument : jsstring -> jsstring -> jsstring -> Store -> Store * Result unit)
    (listing : Drive.Listing) (store : Store) (allFiles : list Drive.File.t) :
  Drive.fetchAll listing [] = Ok allFiles ->
  forallb (Drive.withoutContent getFileMetadata downloadFile) allFiles = true ->
  Drive.indexFolder Store
    (Drive.indexFile Store getFileMetadata downloadFile indexDocument) listing store
  = (store,
     Ok (Drive.Summary.mk (List.length allFiles) (List.length allFiles) [])).
Proof.
  intros Hfetch Hall. unfold Drive.indexFolder. rewrite Hfetch. cbv zeta.
  rewrite (indexLoop_withoutContent Store getFileMetadata downloadFile indexDocument
             allFiles (store, []) Hall).
  cbn [fst snd List.length]. rewrite Nat.sub_0_r. reflexivity.
Qed.

(** A folder of an empty file and a file of blank lines: the summary
    says two of two indexed, the store (the list of indexed ids) stays
    empty. *)
Lemma indexFolder_counts_skipped_files_witness :
  let getFileMetadata := fun id : jsstring =>
                           Ok (Drive.FileMetadata.mk id (u "text/plain")) in
  let downloadFile := fun (id : jsstring) (_ : jsstring) =>
                        if bool_decide (id = u "a") then Ok None
                        else Ok (Some [32; 10; 10]%N) in
  let indexDocument := fun (id _ _ : jsstring) (store : list jsstring) =>
                         (store ++ [id], Ok tt) in
  Drive.indexFolder (list jsstring)
    (Drive.indexFile (list jsstring) getFileMetadata downloadFile indexDocument)
    (Drive.LastPage [Drive.File.mk (u "a") (u "empty.txt");
                     Drive.File.mk (u "b") (u "blank.txt")]) []
  = ([], Ok (Drive.Summary.mk 2 2 [])).
Proof.
  intros getFileMetadata downloadFile indexDocument.
  apply (indexFolder_counts_skipped_files (list jsstring) getFileMetadata
           downloadFile indexDocument
           (Drive.LastPage [Drive.File.mk (u "a") (u "empty.txt");
                            Drive.File.mk (u "b") (u "blank.txt")]) []
           [Drive.File.mk (u "a") (u "empty.txt");
            Drive.File.mk (u "b") (u "blank.txt")] eq_refl).
  reflexivity.
Defined.

(** When the listing of any page fails, [indexFolder] rethrows the
    error and indexes nothing, however many pages were listed before:
    no file is handed to [indexFile] until the whole folder has been
    listed. *)
Theorem indexFolder_listing_failure
    (Store : Type) (indexFile : jsstring -> Store -> Store * Result unit)
    (pages : list (list Drive.File.t)) (msg : string) (store : Store) :
  Drive.indexFolder Store indexFile
    (List.fold_right Drive.NextPage (Drive.ListingFailed msg) pages) store
  = (store, Throw msg).
Proof.
  unfold Drive.indexFolder. rewrite fetchAll_failed_page. reflexivity.
Qed.
